(** * The per-file reader of the stanza file consumer

    A shallow embedding of
    [pkg/stanza/fileconsumer/internal/reader/reader.go]: the [Metadata] and
    [Reader] structs, [ReadToEnd] with its deferred functions,
    [createGzipReader], the header phase [readHeader], the content phase
    [readContents], [delete], [close], [Read], [Validate] and
    [updateFingerprint].

    The Reader's collaborators live in other packages (the scanner, the
    fingerprint, the header pipeline, the decoder, the sink callback, the
    operating system).  They enter the development through the interface
    [Env]; every theorem holds for every implementation of it. *)

From Stdlib Require Import ZArith List Bool Lia.
From stdpp Require Import base list strings gmap.

Open Scope Z_scope.

(** ** Go values *)

Definition bytes := list Byte.byte.

(** A Go [error] value, identified by its message. *)
Definition error := string.

(** [int] and [int64] are 64-bit two's complement integers. *)
Definition wrap64 (z : Z) : Z := (z + 2 ^ 63) mod 2 ^ 64 - 2 ^ 63.

Definition maxInt64 : Z := 2 ^ 63 - 1.

(** How a function body ends: by returning, or by a run-time panic that
    unwinds the stack (deferred functions still run). *)
Inductive Outcome (A : Type) :=
| Returned (a : A)
| Panicked (msg : string).

Arguments Returned {A} a.
Arguments Panicked {A} msg.

(** [make([]T, n)]: a slice of [n] zero values; a negative length panics.
    The allocator's upper limit on [n] is not modelled. *)
Definition make_slice {A} (zero : A) (n : Z) : option (list A) :=
  if n <? 0 then None else Some (replicate (Z.to_nat n) zero).

(** [s[i] = v]: a checked store; [None] is the index-out-of-range panic. *)
Definition slice_set {A} (s : list A) (i : Z) (v : A) : option (list A) :=
  if (0 <=? i) && (i <? Z.of_nat (length s))
  then Some (<[Z.to_nat i := v]> s) else None.

(** [s[:n]]: a checked reslice of a slice whose capacity is its length. *)
Definition slice_to {A} (s : list A) (n : Z) : option (list A) :=
  if (0 <=? n) && (n <=? Z.of_nat (length s))
  then Some (take (Z.to_nat n) s) else None.

(** ** Logging *)

Inductive Level := ErrorLevel | DebugLevel.

Definition LogEntry : Type := Level * string.

(** ** The scanner, as the Reader observes it *)

(** One call of the underlying [io.Reader]'s [Read]: the byte count and the
    error it returned. *)
Definition ReadResult : Type := Z * option error.

(** A call of [Scan] that returned [true]: the raw reads it made through the
    Reader, the token ([Bytes]) and by how much [Pos] moved. *)
Record TokenScan := {
  tok_reads : list ReadResult;
  tok_bytes : bytes;
  tok_advance : Z
}.

(** The call of [Scan] that returned [false]: the raw reads it made and the
    scanner's [Error] (nil at a clean end of stream). *)
Record FinalScan := {
  fin_reads : list ReadResult;
  fin_err : option error
}.

(** Modelled from the spec: the scanner of [internal/scanner], which is not
    part of the sources at hand.  It is a pull-style tokenizer with
    advance-to-next-token, current token bytes, current byte offset (the
    position immediately after the most recently returned token) and the
    terminal error.  A scanner is therefore the sequence of outcomes of its
    [Scan] calls, together with the position it was started at. *)
Record Scanner := {
  s_tokens : list TokenScan;
  s_final : FinalScan;
  s_pos : Z
}.

(** The byte source [r.reader] the scanner pulls from. *)
Inductive ByteSource :=
| SrcNil
| SrcFile
| SrcGzip (section_off section_len : Z) (consumed : Z).

(** ** The sink *)

Section Sink.
Context {any : Type}.

(** The arguments of one call of the [emit.Callback]. *)
Record EmitCall := {
  call_tokens : list bytes;
  call_attrs : gmap string any;
  call_recordNum : Z;
  call_offsets : list Z
}.

(** The callback's verdict may depend on the calls it has seen before. *)
Definition Callback : Type := list EmitCall -> EmitCall -> option error.
End Sink.

Arguments EmitCall : clear implicits.
Arguments Callback : clear implicits.

(** ** Collaborators *)

Class Env := {
  File : Type;
  SplitFunc : Type;
  any : Type;
  HeaderReader : Type;
  Fingerprint : Type;
  FlushState : Type;
  (* package fingerprint *)
  fingerprint_Len : Fingerprint -> Z;
  fingerprint_StartsWith : Fingerprint -> Fingerprint -> bool;
  fingerprint_NewFromFile : File -> Z -> bool -> Fingerprint + error;
  (* package header *)
  header_Process :
    HeaderReader -> string -> gmap string any ->
    HeaderReader * gmap string any * option error;
  header_Stop : HeaderReader -> option error;
  (* package os and compress/gzip *)
  file_Stat : File -> Z + error;
  file_Seek : File -> Z -> option error;
  file_Close : File -> option error;
  os_Remove : string -> option error;
  gzip_NewReader : File -> Z -> Z -> option error;
  (* the platform's file lock *)
  file_TryLock : File -> bool;
  (* package scanner: what a scanner started on this byte source, with the
     raw handle at this position, is going to yield *)
  scanner_script : SplitFunc -> ByteSource -> Z -> list TokenScan * FinalScan
}.

(** [header.ErrEndOfHeader] and [errors.Is] against it. *)
Definition ErrEndOfHeader : error := "end of header".

Definition errors_Is (e target : error) : bool := String.eqb e target.

(** ** The data model *)

Section Model.
Context {E : Env}.

Record TokenLenState := { MinimumLength : Z }.

Record Metadata := {
  Fingerprint_ : Fingerprint;
  Offset : Z;
  RecordNum : Z;
  FileAttributes : gmap string any;
  HeaderFinalized : bool;
  FlushState_ : FlushState;
  TokenLenState_ : TokenLenState;
  FileType : string
}.

Record Reader := {
  md : Metadata;
  fileName : string;
  file : option File;
  reader : ByteSource;
  fingerprintSize : Z;
  initialBufferSize : Z;
  maxLogSize : Z;
  headerSplitFunc : SplitFunc;
  contentSplitFunc : SplitFunc;
  decoder : bytes -> bytes * option error;
  headerReader : option HeaderReader;
  emitFunc : Callback any;
  deleteAtEOF : bool;
  needsUpdateFingerprint : bool;
  compression : string;
  acquireFSLock : bool;
  maxBatchSize : Z
}.

(** What the Reader does to the world around it: the log, the calls of the
    sink, the tokens handed to the header pipeline and how often it was
    stopped, the raw handle's position, the files removed, the lock, and
    how often the context was polled. *)
Record World := {
  logs : list LogEntry;
  emitted : list (EmitCall any);
  processed : list string;
  stops : nat;
  fpos : Z;
  removed : list string;
  locked : bool;
  polls : nat
}.

(** *** Field updates *)

Definition md_with_Offset (z : Z) (m : Metadata) : Metadata :=
  {| Fingerprint_ := Fingerprint_ m; Offset := z; RecordNum := RecordNum m;
     FileAttributes := FileAttributes m;
     HeaderFinalized := HeaderFinalized m; FlushState_ := FlushState_ m;
     TokenLenState_ := TokenLenState_ m; FileType := FileType m |}.

Definition md_with_RecordNum (z : Z) (m : Metadata) : Metadata :=
  {| Fingerprint_ := Fingerprint_ m; Offset := Offset m; RecordNum := z;
     FileAttributes := FileAttributes m;
     HeaderFinalized := HeaderFinalized m; FlushState_ := FlushState_ m;
     TokenLenState_ := TokenLenState_ m; FileType := FileType m |}.

Definition md_with_FileAttributes (a : gmap string any) (m : Metadata)
  : Metadata :=
  {| Fingerprint_ := Fingerprint_ m; Offset := Offset m;
     RecordNum := RecordNum m; FileAttributes := a;
     HeaderFinalized := HeaderFinalized m; FlushState_ := FlushState_ m;
     TokenLenState_ := TokenLenState_ m; FileType := FileType m |}.

Definition md_with_HeaderFinalized (b : bool) (m : Metadata) : Metadata :=
  {| Fingerprint_ := Fingerprint_ m; Offset := Offset m;
     RecordNum := RecordNum m; FileAttributes := FileAttributes m;
     HeaderFinalized := b; FlushState_ := FlushState_ m;
     TokenLenState_ := TokenLenState_ m; FileType := FileType m |}.

Definition md_with_Fingerprint (f : Fingerprint) (m : Metadata) : Metadata :=
  {| Fingerprint_ := f; Offset := Offset m; RecordNum := RecordNum m;
     FileAttributes := FileAttributes m;
     HeaderFinalized := HeaderFinalized m; FlushState_ := FlushState_ m;
     TokenLenState_ := TokenLenState_ m; FileType := FileType m |}.

Definition with_md (m : Metadata) (r : Reader) : Reader :=
  {| md := m; fileName := fileName r; file := file r; reader := reader r;
     fingerprintSize := fingerprintSize r;
     initialBufferSize := initialBufferSize r; maxLogSize := maxLogSize r;
     headerSplitFunc := headerSplitFunc r;
     contentSplitFunc := contentSplitFunc r; decoder := decoder r;
     headerReader := headerReader r; emitFunc := emitFunc r;
     deleteAtEOF := deleteAtEOF r;
     needsUpdateFingerprint := needsUpdateFingerprint r;
     compression := compression r; acquireFSLock := acquireFSLock r;
     maxBatchSize := maxBatchSize r |}.

Definition with_file (f : option File) (r : Reader) : Reader :=
  {| md := md r; fileName := fileName r; file := f; reader := reader r;
     fingerprintSize := fingerprintSize r;
     initialBufferSize := initialBufferSize r; maxLogSize := maxLogSize r;
     headerSplitFunc := headerSplitFunc r;
     contentSplitFunc := contentSplitFunc r; decoder := decoder r;
     headerReader := headerReader r; emitFunc := emitFunc r;
     deleteAtEOF := deleteAtEOF r;
     needsUpdateFingerprint := needsUpdateFingerprint r;
     compression := compression r; acquireFSLock := acquireFSLock r;
     maxBatchSize := maxBatchSize r |}.

Definition with_reader (s : ByteSource) (r : Reader) : Reader :=
  {| md := md r; fileName := fileName r; file := file r; reader := s;
     fingerprintSize := fingerprintSize r;
     initialBufferSize := initialBufferSize r; maxLogSize := maxLogSize r;
     headerSplitFunc := headerSplitFunc r;
     contentSplitFunc := contentSplitFunc r; decoder := decoder r;
     headerReader := headerReader r; emitFunc := emitFunc r;
     deleteAtEOF := deleteAtEOF r;
     needsUpdateFingerprint := needsUpdateFingerprint r;
     compression := compression r; acquireFSLock := acquireFSLock r;
     maxBatchSize := maxBatchSize r |}.

Definition with_headerReader (h : option HeaderReader) (r : Reader)
  : Reader :=
  {| md := md r; fileName := fileName r; file := file r; reader := reader r;
     fingerprintSize := fingerprintSize r;
     initialBufferSize := initialBufferSize r; maxLogSize := maxLogSize r;
     headerSplitFunc := headerSplitFunc r;
     contentSplitFunc := contentSplitFunc r; decoder := decoder r;
     headerReader := h; emitFunc := emitFunc r;
     deleteAtEOF := deleteAtEOF r;
     needsUpdateFingerprint := needsUpdateFingerprint r;
     compression := compression r; acquireFSLock := acquireFSLock r;
     maxBatchSize := maxBatchSize r |}.

Definition with_needsUpdateFingerprint (b : bool) (r : Reader) : Reader :=
  {| md := md r; fileName := fileName r; file := file r; reader := reader r;
     fingerprintSize := fingerprintSize r;
     initialBufferSize := initialBufferSize r; maxLogSize := maxLogSize r;
     headerSplitFunc := headerSplitFunc r;
     contentSplitFunc := contentSplitFunc r; decoder := decoder r;
     headerReader := headerReader r; emitFunc := emitFunc r;
     deleteAtEOF := deleteAtEOF r; needsUpdateFingerprint := b;
     compression := compression r; acquireFSLock := acquireFSLock r;
     maxBatchSize := maxBatchSize r |}.

Definition setOffset (z : Z) (r : Reader) : Reader :=
  with_md (md_with_Offset z (md r)) r.

Definition setRecordNum (z : Z) (r : Reader) : Reader :=
  with_md (md_with_RecordNum z (md r)) r.

Definition setFileAttributes (a : gmap string any) (r : Reader) : Reader :=
  with_md (md_with_FileAttributes a (md r)) r.

Definition setHeaderFinalized (b : bool) (r : Reader) : Reader :=
  with_md (md_with_HeaderFinalized b (md r)) r.

Definition setFingerprint (f : Fingerprint) (r : Reader) : Reader :=
  with_md (md_with_Fingerprint f (md r)) r.

Definition log (lvl : Level) (msg : string) (w : World) : World :=
  {| logs := logs w ++ [(lvl, msg)]; emitted := emitted w;
     processed := processed w; stops := stops w; fpos := fpos w;
     removed := removed w; locked := locked w; polls := polls w |}.

Definition with_emitted (c : EmitCall any) (w : World) : World :=
  {| logs := logs w; emitted := emitted w ++ [c];
     processed := processed w; stops := stops w; fpos := fpos w;
     removed := removed w; locked := locked w; polls := polls w |}.

Definition with_processed (t : string) (w : World) : World :=
  {| logs := logs w; emitted := emitted w;
     processed := processed w ++ [t]; stops := stops w; fpos := fpos w;
     removed := removed w; locked := locked w; polls := polls w |}.

Definition with_stop (w : World) : World :=
  {| logs := logs w; emitted := emitted w; processed := processed w;
     stops := S (stops w); fpos := fpos w; removed := removed w;
     locked := locked w; polls := polls w |}.

Definition with_fpos (z : Z) (w : World) : World :=
  {| logs := logs w; emitted := emitted w; processed := processed w;
     stops := stops w; fpos := z; removed := removed w;
     locked := locked w; polls := polls w |}.

Definition with_removed (f : string) (w : World) : World :=
  {| logs := logs w; emitted := emitted w; processed := processed w;
     stops := stops w; fpos := fpos w; removed := removed w ++ [f];
     locked := locked w; polls := polls w |}.

Definition with_locked (b : bool) (w : World) : World :=
  {| logs := logs w; emitted := emitted w; processed := processed w;
     stops := stops w; fpos := fpos w; removed := removed w;
     locked := b; polls := polls w |}.

Definition with_poll (w : World) : World :=
  {| logs := logs w; emitted := emitted w; processed := processed w;
     stops := stops w; fpos := fpos w; removed := removed w;
     locked := locked w; polls := S (polls w) |}.

End Model.

(** ** The operations of the Reader *)

Definition io_EOF : error := "EOF".

Definition os_ErrInvalid : error := "invalid argument".

Definition gzipExtension : string := ".gz".

(** A [context.Context], as the Reader uses it: the answer of the
    non-blocking check of [ctx.Done()] at the n-th poll. *)
Definition Context : Type := nat -> bool.

Section Operations.
Context {E : Env}.

Definition ctx_Done (ctx : Context) (w : World) : bool * World :=
  (ctx (polls w), with_poll w).

(** Methods of a nil [*os.File] fail with [os.ErrInvalid]. *)
Definition Seek (f : option File) (off : Z) (w : World)
  : World * option error :=
  match f with
  | None => (w, Some os_ErrInvalid)
  | Some h =>
      match file_Seek h off with
      | Some e => (w, Some e)
      | None => (with_fpos off w, None)
      end
  end.

(** Modelled from the spec: the lock helpers, which live in a
    platform-specific file outside the sources at hand.  The attempt is
    non-blocking and may fail; the lock is released on exit. *)
Definition tryLockFile (r : Reader) : bool :=
  match file r with
  | None => false
  | Some h => file_TryLock h
  end.

Definition unlockFile (w : World) : World := with_locked false w.

(** Modelled from the spec: [textutils.DecodeAsString], which is outside
    the sources at hand: the decoder's text, as a string, or its error. *)
Definition DecodeAsString (dec : bytes -> bytes * option error) (b : bytes)
  : string * option error :=
  let '(out, err) := dec b in
  match err with
  | Some e => (EmptyString, Some e)
  | None => (String.string_of_list_byte out, None)
  end.

(** *** close and delete *)

Definition close (r : Reader) (w : World) : Reader * World :=
  let '(r, w) :=
    match file r with
    | Some f =>
        let w := match file_Close f with
                 | Some _ => log DebugLevel "Problem closing reader" w
                 | None => w
                 end in
        (with_file None r, w)
    | None => (r, w)
    end in
  match headerReader r with
  | Some h =>
      let w := with_stop w in
      let w := match header_Stop h with
               | Some _ => log ErrorLevel "Failed to stop header pipeline" w
               | None => w
               end in
      (r, w)
  | None => (r, w)
  end.

Definition delete (r : Reader) (w : World) : Reader * World :=
  let '(r, w) := close r w in
  match os_Remove (fileName r) with
  | Some _ => (r, log ErrorLevel "could not delete" w)
  | None => (r, with_removed (fileName r) w)
  end.

(** *** Read: the Reader as the scanner's byte source *)

(** The bytes a raw read consumed move the position of the source. *)
Definition source_advance (n : Z) (r : Reader) (w : World)
  : Reader * World :=
  match reader r with
  | SrcFile => (r, with_fpos (fpos w + n) w)
  | SrcGzip o l c => (with_reader (SrcGzip o l (c + n)) r, w)
  | SrcNil => (r, w)
  end.

Definition Read (res : ReadResult) (r : Reader) (w : World)
  : Reader * World :=
  let '(n, err) := res in
  let '(r, w) := source_advance n r w in
  if (n =? 0) || match err with Some _ => true | None => false end
  then (r, w)
  else if negb (needsUpdateFingerprint r)
          && (fingerprint_Len (Fingerprint_ (md r)) <? fingerprintSize r)
       then (with_needsUpdateFingerprint true r, w)
       else (r, w).

(** The raw reads one call of [Scan] makes through the Reader. *)
Definition scan_reads (rs : list ReadResult) (r : Reader) (w : World)
  : Reader * World :=
  fold_left (fun rw res => Read res (fst rw) (snd rw)) rs (r, w).

(** [scanner.New(r, r.maxLogSize, buf, r.Offset, split)].  The buffer only
    bounds allocation and is left out.  The split functions keep their state
    from one scan to the next in the [FlushState] and [TokenLenState] of the
    Metadata; what they write there is decided outside the sources at hand
    and is left out as well: the two fields are carried along, and nothing
    is concluded about them across a scan. *)
Definition scanner_New (r : Reader) (w : World) (split : SplitFunc)
  : Scanner :=
  let '(toks, fin) := scanner_script split (reader r) (fpos w) in
  {| s_tokens := toks; s_final := fin; s_pos := Offset (md r) |}.

(** *** Validate and updateFingerprint *)

Definition Validate (r : Reader) : bool :=
  match file r with
  | None => false
  | Some f =>
      match fingerprint_NewFromFile f (fingerprintSize r)
              (negb (String.eqb (compression r) "")) with
      | inr _ => false
      | inl refreshedFingerprint =>
          if fingerprint_StartsWith refreshedFingerprint
               (Fingerprint_ (md r))
          then true else false
      end
  end.

Definition updateFingerprint (r : Reader) : Reader :=
  let r := with_needsUpdateFingerprint false r in
  match file r with
  | None => r
  | Some f =>
      match fingerprint_NewFromFile f (fingerprintSize r)
              (negb (String.eqb (compression r) "")) with
      | inr _ => r
      | inl refreshedFingerprint =>
          if (0 <? fingerprint_Len (Fingerprint_ (md r)))
             && negb (fingerprint_StartsWith refreshedFingerprint
                        (Fingerprint_ (md r)))
          then r (* fingerprint tampered, likely due to truncation *)
          else setFingerprint refreshedFingerprint r
      end
  end.

(** *** createGzipReader *)

Definition createGzipReader (r : Reader) (w : World)
  : Reader * World * (Z * option error) :=
  match file r with
  | None => (r, log ErrorLevel "failed to stat" w, (0, Some os_ErrInvalid))
  | Some f =>
      match file_Stat f with
      | inr e => (r, log ErrorLevel "failed to stat" w, (0, Some e))
      | inl currentEOF =>
          match gzip_NewReader f (Offset (md r)) currentEOF with
          | Some e =>
              let w := if negb (errors_Is e io_EOF)
                       then log ErrorLevel "failed to create gzip reader" w
                       else w in
              (r, w, (0, Some e))
          | None =>
              (with_reader (SrcGzip (Offset (md r)) currentEOF 0) r, w,
               (currentEOF, None))
          end
      end
  end.

(** *** The header phase *)

(** How the loop of [readHeader] is left: by one of its [return]
    statements, by the [break] at the end of the header, or by a panic. *)
Inductive HeaderExit :=
| HdrReturn (doneReadingFile : bool)
| HdrBreak
| HdrPanic (msg : string).

Fixpoint readHeader_loop (ctx : Context) (toks : list TokenScan)
    (fin : FinalScan) (pos : Z) (r : Reader) (w : World) {struct toks}
  : Reader * World * HeaderExit :=
  let '(done, w) := ctx_Done ctx w in
  if done then (r, w, HdrReturn true) else
  match toks with
  | [] =>
      (* s.Scan() returned false *)
      let '(r, w) := scan_reads (fin_reads fin) r w in
      let '(r, w) :=
        match fin_err fin with
        | Some _ => (r, log ErrorLevel "failed during header scan" w)
        | None =>
            let w := log DebugLevel "end of file reached" w in
            if deleteAtEOF r then delete r w else (r, w)
        end in
      (r, w, HdrReturn true)
  | t :: toks' =>
      let '(r, w) := scan_reads (tok_reads t) r w in
      let pos := pos + tok_advance t in
      let '(token, err) := DecodeAsString (decoder r) (tok_bytes t) in
      match err with
      | Some _ =>
          let w := log ErrorLevel "failed to decode header token" w in
          (* move past the bad token or we may be stuck *)
          readHeader_loop ctx toks' fin pos (setOffset pos r) w
      | None =>
          match headerReader r with
          | None => (r, w, HdrPanic "nil pointer dereference")
          | Some h =>
              let '(h', attrs, perr) :=
                header_Process h token (FileAttributes (md r)) in
              let r := with_headerReader (Some h')
                         (setFileAttributes attrs r) in
              let w := with_processed token w in
              match perr with
              | Some e =>
                  if errors_Is e ErrEndOfHeader
                  then (r, w, HdrBreak)
                  else
                    let w :=
                      log ErrorLevel "failed to process header token" w in
                    readHeader_loop ctx toks' fin pos (setOffset pos r) w
              | None =>
                  readHeader_loop ctx toks' fin pos (setOffset pos r) w
              end
          end
      end
  end.

(** Lines 192-205: what follows the [break] of the loop. *)
Definition finalizeHeader (r : Reader) (w : World)
  : Reader * World * Outcome bool :=
  (* Clean up the header machinery *)
  match headerReader r with
  | None => (r, w, Panicked "nil pointer dereference")
  | Some h =>
      let w := with_stop w in
      let w :=
        match header_Stop h with
        | Some _ =>
            log ErrorLevel
              "failed to stop header pipeline during finalization" w
        | None => w
        end in
      let r := with_headerReader None r in
      let r := setHeaderFinalized true r in
      (* Reset position in file to r.Offset *)
      match Seek (file r) (Offset (md r)) w with
      | (w, Some _) =>
          (r, log ErrorLevel "failed to seek post-header" w, Returned true)
      | (w, None) => (r, w, Returned false)
      end
  end.

(** The loop, entered with the scanner at [pos] and [toks] still to come,
    and what follows it. *)
Definition readHeader_from (ctx : Context) (toks : list TokenScan)
    (fin : FinalScan) (pos : Z) (r : Reader) (w : World)
  : Reader * World * Outcome bool :=
  match readHeader_loop ctx toks fin pos r w with
  | (r, w, HdrReturn b) => (r, w, Returned b)
  | (r, w, HdrPanic m) => (r, w, Panicked m)
  | (r, w, HdrBreak) => finalizeHeader r w
  end.

Definition readHeader (ctx : Context) (r : Reader) (w : World)
  : Reader * World * Outcome bool :=
  let s := scanner_New r w (headerSplitFunc r) in
  readHeader_from ctx (s_tokens s) (s_final s) (s_pos s) r w.

(** *** The content phase *)

(** A call of the sink and the logging of its failure. *)
Definition emit_batch (batch : list bytes) (tokenOffsets : list Z)
    (r : Reader) (w : World) : World :=
  let call := {| call_tokens := batch;
                 call_attrs := FileAttributes (md r);
                 call_recordNum := RecordNum (md r);
                 call_offsets := tokenOffsets |} in
  let err := emitFunc r (emitted w) call in
  let w := with_emitted call w in
  match err with
  | Some _ => log ErrorLevel "failed to emit token" w
  | None => w
  end.

Fixpoint readContents_loop (ctx : Context) (toks : list TokenScan)
    (fin : FinalScan) (pos : Z) (tokenBodies : list bytes)
    (tokenOffsets : list Z) (numTokensBatched : Z)
    (r : Reader) (w : World) {struct toks}
  : Reader * World * Outcome unit :=
  let '(done, w) := ctx_Done ctx w in
  if done then (r, w, Returned tt) else
  match toks with
  | [] =>
      (* s.Scan() returned false *)
      let '(r, w) := scan_reads (fin_reads fin) r w in
      let '(r, w) :=
        match fin_err fin with
        | Some _ => (r, log ErrorLevel "failed during scan" w)
        | None => if deleteAtEOF r then delete r w else (r, w)
        end in
      if 0 <? numTokensBatched then
        match slice_to tokenBodies numTokensBatched with
        | None => (r, w, Panicked "slice bounds out of range")
        | Some batch =>
            let w := emit_batch batch tokenOffsets r w in
            (setOffset pos r, w, Returned tt)
        end
      else (r, w, Returned tt)
  | t :: toks' =>
      let '(r, w) := scan_reads (tok_reads t) r w in
      let pos := pos + tok_advance t in
      let '(body, err) := decoder r (tok_bytes t) in
      match slice_set tokenBodies numTokensBatched body with
      | None => (r, w, Panicked "index out of range")
      | Some tokenBodies =>
      match slice_set tokenOffsets (wrap64 (numTokensBatched + 1)) pos with
      | None => (r, w, Panicked "index out of range")
      | Some tokenOffsets =>
          match err with
          | Some _ =>
              let w := log ErrorLevel "failed to decode token" w in
              (* move past the bad token or we may be stuck *)
              readContents_loop ctx toks' fin pos tokenBodies tokenOffsets
                numTokensBatched (setOffset pos r) w
          | None =>
              let numTokensBatched := wrap64 (numTokensBatched + 1) in
              let r := setRecordNum (wrap64 (RecordNum (md r) + 1)) r in
              if (0 <? maxBatchSize r)
                 && (maxBatchSize r <=? numTokensBatched)
              then
                match slice_to tokenBodies numTokensBatched with
                | None => (r, w, Panicked "slice bounds out of range")
                | Some batch =>
                    let w := emit_batch batch tokenOffsets r w in
                    let r := setOffset pos r in
                    match slice_set tokenOffsets 0 pos with
                    | None => (r, w, Panicked "index out of range")
                    | Some tokenOffsets =>
                        readContents_loop ctx toks' fin pos tokenBodies
                          tokenOffsets 0 r w
                    end
                end
              else
                readContents_loop ctx toks' fin pos tokenBodies
                  tokenOffsets numTokensBatched r w
          end
      end
      end
  end.

(** The choice between a pooled and a one-off buffer (by
    [TokenLenState.MinimumLength]) does not change what is read and is
    left out, like the buffer itself. *)
Definition readContents (ctx : Context) (r : Reader) (w : World)
  : Reader * World * Outcome unit :=
  let s := scanner_New r w (contentSplitFunc r) in
  match make_slice ([] : bytes) (maxBatchSize r) with
  | None => (r, w, Panicked "makeslice: len out of range")
  | Some tokenBodies =>
  match make_slice 0 (wrap64 (maxBatchSize r + 1)) with
  | None => (r, w, Panicked "makeslice: len out of range")
  | Some tokenOffsets =>
  match slice_set tokenOffsets 0 (Offset (md r)) with
  | None => (r, w, Panicked "index out of range")
  | Some tokenOffsets =>
      readContents_loop ctx (s_tokens s) (s_final s) (s_pos s)
        tokenBodies tokenOffsets 0 r w
  end
  end
  end.

(** *** ReadToEnd *)

(** Lines 114-120: the header phase, if a header reader is configured, and
    then the content phase. *)
Definition readPhases (ctx : Context) (r : Reader) (w : World)
  : Reader * World * Outcome unit :=
  match headerReader r with
  | Some _ =>
      match readHeader ctx r w with
      | (r, w, Returned true) => (r, w, Returned tt)
      | (r, w, Returned false) => readContents ctx r w
      | (r, w, Panicked m) => (r, w, Panicked m)
      end
  | None => readContents ctx r w
  end.

(** Lines 103-120: the seek to the offset, the deferred fingerprint
    update, and the two phases.  The deferred function runs when the phases
    are left, also by a panic; it is not yet registered when the seek
    fails. *)
Definition readFromOffset (ctx : Context) (r : Reader) (w : World)
  : Reader * World * Outcome unit :=
  match Seek (file r) (Offset (md r)) w with
  | (w, Some _) => (r, log ErrorLevel "failed to seek" w, Returned tt)
  | (w, None) =>
      let '(r, w, o) := readPhases ctx r w in
      let r := if needsUpdateFingerprint r then updateFingerprint r
               else r in
      (r, w, o)
  end.

(** The gzip arm of the switch: the deferred assignment of the offset is
    registered once the gzip reader exists and runs last. *)
Definition readGzip (ctx : Context) (r : Reader) (w : World)
  : Reader * World * Outcome unit :=
  match createGzipReader r w with
  | (r, w, (_, Some _)) => (r, w, Returned tt)
  | (r, w, (currentEOF, None)) =>
      let '(r, w, o) := readFromOffset ctx r w in
      (setOffset currentEOF r, w, o)
  end.

(** The switch on [r.compression] and all that follows it. *)
Definition readSelected (ctx : Context) (r : Reader) (w : World)
  : Reader * World * Outcome unit :=
  if String.eqb (compression r) "gzip" then readGzip ctx r w
  else if String.eqb (compression r) "auto" then
    if String.eqb (FileType (md r)) gzipExtension
    then readGzip ctx r w
    else readFromOffset ctx (with_reader SrcFile r) w
  else readFromOffset ctx (with_reader SrcFile r) w.

Definition ReadToEnd (ctx : Context) (r : Reader) (w : World)
  : Reader * World * Outcome unit :=
  if acquireFSLock r then
    if negb (tryLockFile r) then (r, w, Returned tt)
    else
      let '(r, w, o) := readSelected ctx r (with_locked true w) in
      (r, unlockFile w, o)
  else readSelected ctx r w.

(** *** Close and the accessors *)

(** [Close] closes the file and hands the Metadata over: the embedded
    [*Metadata] of the Reader is nil afterwards.  What remains of the Reader
    is returned as a function of the Metadata one would have to attach to
    make it a Reader again, so that nothing can be said about it that
    depends on the Metadata it gave away. *)
Definition Close (r : Reader) (w : World)
  : Metadata * (Metadata -> Reader) * World :=
  let '(r, w) := close r w in
  (md r, fun m => with_md m r, w).

Definition NameEquals (r other : Reader) : bool :=
  String.eqb (fileName r) (fileName other).

Definition GetFileName (r : Reader) : string := fileName r.

Definition GetFingerprint (m : Metadata) : Fingerprint := Fingerprint_ m.

End Operations.

(** ** A concrete environment

    Used to run the model on concrete inputs.  Files are their contents, a
    fingerprint is the leading bytes of the file, the header pipeline absorbs
    the lines that start with [#], and the two scanners replay the two
    scripts the environment is built from. *)

Module Example.

Fixpoint is_prefix (a b : bytes) : bool :=
  match a, b with
  | [], _ => true
  | x :: a', y :: b' => Byte.eqb x y && is_prefix a' b'
  | _ :: _, [] => false
  end.

Definition starts_with_hash (s : string) : bool :=
  match s with
  | String c _ => Ascii.eqb c (Ascii.ascii_of_nat 35)
  | EmptyString => false
  end.

Definition env (hdr cont : list TokenScan * FinalScan) : Env :=
  {| File := bytes;
     SplitFunc := bool;
     any := string;
     HeaderReader := unit;
     Fingerprint := bytes;
     FlushState := unit;
     fingerprint_Len := fun f => Z.of_nat (length f);
     fingerprint_StartsWith := fun f old => is_prefix old f;
     fingerprint_NewFromFile :=
       fun f n _ => inl (take (Z.to_nat n) f);
     header_Process :=
       fun h tok attrs =>
         if starts_with_hash tok
         then (h, <["header" := tok]> attrs, None)
         else (h, attrs, Some ErrEndOfHeader);
     header_Stop := fun _ => None;
     file_Stat := fun f => inl (Z.of_nat (length f));
     file_Seek := fun _ off => if off <? 0 then Some "negative" else None;
     file_Close := fun _ => None;
     os_Remove := fun _ => None;
     gzip_NewReader := fun _ _ _ => None;
     file_TryLock := fun _ => true;
     scanner_script := fun hdr_split _ _ => if hdr_split then hdr else cont
  |}.

(** A token of the given bytes whose delimiter is one more byte. *)
Definition line (b : bytes) : TokenScan :=
  {| tok_reads := []; tok_bytes := b;
     tok_advance := Z.of_nat (length b) + 1 |}.

Definition eof : FinalScan := {| fin_reads := []; fin_err := None |}.

Definition no_tokens : list TokenScan * FinalScan := ([], eof).

(** The identity decoder, and one that rejects the byte [0xff]. *)
Definition nop_decoder (b : bytes) : bytes * option error := (b, None).

Definition strict_decoder (b : bytes) : bytes * option error :=
  if existsb (Byte.eqb Byte.xff) b
  then ([], Some "invalid byte"%string)
  else (b, None).

Definition sink_ok {A} : Callback A := fun _ _ => None.


Definition never : Context := fun _ => false.

(** Cancelled from the n-th poll on. *)
Definition cancelled_from (n : nat) : Context := fun k => (n <=? k)%nat.

Definition world0 {E : Env} : World :=
  {| logs := []; emitted := []; processed := []; stops := 0%nat;
     fpos := 0; removed := []; locked := false; polls := 0%nat |}.

Definition reader_of (hdr cont : list TokenScan * FinalScan)
    (contents fp : bytes) (dec : bytes -> bytes * option error)
    (sink : Callback string) (batch : Z) (comp : string)
    (hr : option unit) : @Reader (env hdr cont) :=
  {| md := {| Fingerprint_ := (fp : @Fingerprint (env hdr cont));
              Offset := 0; RecordNum := 0; FileAttributes := ∅;
              HeaderFinalized := false; FlushState_ := tt;
              TokenLenState_ := {| MinimumLength := 0 |};
              FileType := "" |};
     fileName := "app.log";
     file := Some contents;
     reader := SrcNil;
     fingerprintSize := 1000;
     initialBufferSize := 16384;
     maxLogSize := 1048576;
     headerSplitFunc := true;
     contentSplitFunc := false;
     decoder := dec;
     headerReader := hr;
     emitFunc := sink;
     deleteAtEOF := false;
     needsUpdateFingerprint := false;
     compression := comp;
     acquireFSLock := false;
     maxBatchSize := batch |}.

(** A fresh reader of an uncompressed file without a header. *)
Definition reader0 (hdr cont : list TokenScan * FinalScan)
    (contents : bytes) (dec : bytes -> bytes * option error)
    (sink : Callback string) (batch : Z) : @Reader (env hdr cont) :=
  reader_of hdr cont contents [] dec sink batch "" None.

(** Some bytes, tokens and scripts. *)
Definition b_a : bytes := [Byte.x61].
Definition b_bb : bytes := [Byte.x62; Byte.x62].
Definition b_bad : bytes := [Byte.xff].
Definition b_hash_a : bytes := [Byte.x23; Byte.x61].

Definition one_line : list TokenScan * FinalScan := ([line b_a], eof).

Definition five_lines : list TokenScan * FinalScan :=
  ([line b_a; line b_bb; line b_a; line b_bb; line b_a], eof).

Definition bad_between : list TokenScan * FinalScan :=
  ([line b_a; line b_bad; line b_bb], eof).

(** Five lines for a sink that fails every call, batches of two. *)
Definition env_five : Env := env no_tokens five_lines.


Definition r_five : @Reader env_five :=
  reader0 no_tokens five_lines [] nop_decoder sink_ok 2.

(** One line, batches of two. *)
Definition env_one : Env := env no_tokens one_line.

Definition r_one : @Reader env_one :=
  reader0 no_tokens one_line [] nop_decoder sink_ok 2.


(** One line, no room for a batch. *)
Definition r_zero : @Reader env_one :=
  reader0 no_tokens one_line [] nop_decoder sink_ok 0.

(** A gzip file of four bytes on disk whose stream holds five lines. *)
Definition gz_contents : bytes := [Byte.x1f; Byte.x8b; Byte.x08; Byte.x00].

Definition r_gzip : @Reader env_five :=
  reader_of no_tokens five_lines gz_contents [] nop_decoder sink_ok 2
    "gzip" None.

(** A stored fingerprint [a] on a file that now starts with [bc]. *)
Definition r_truncated : @Reader env_one :=
  reader_of no_tokens one_line [Byte.x62; Byte.x63] b_a nop_decoder sink_ok 2
    "" None.

(** A header of two [#] lines around an undecodable one, and content with an
    undecodable line in the middle. *)
Definition hdr_lines : list TokenScan * FinalScan :=
  ([line b_hash_a; line b_bad; line b_hash_a], eof).

Definition env_hdr : Env := env hdr_lines bad_between.

Definition r_hdr : @Reader env_hdr :=
  reader_of hdr_lines bad_between [] [] strict_decoder sink_ok 2 ""
    (Some tt).

(** The runs the statements on concrete inputs speak about. *)
Definition end_of_header_run
  : @Reader env_hdr * @World env_hdr * Outcome bool :=
  readHeader_from never [line b_a] eof 0 r_hdr world0.




Definition cancelled_run
  : @Reader env_five * @World env_five * Outcome unit :=
  readContents (cancelled_from 1) r_five world0.

(** Inputs for the further properties. *)

(** A Reader whose fingerprint is complete: two bytes of two. *)
Definition r_full_fingerprint : @Reader env_five :=
  {| md := {| Fingerprint_ := (b_bb : @Fingerprint env_five);
              Offset := 0; RecordNum := 0; FileAttributes := ∅;
              HeaderFinalized := true; FlushState_ := tt;
              TokenLenState_ := {| MinimumLength := 0 |};
              FileType := "" |};
     fileName := "app.log";
     file := Some [Byte.x62; Byte.x62; Byte.x63];
     reader := SrcNil;
     fingerprintSize := 2;
     initialBufferSize := 16384;
     maxLogSize := 1048576;
     headerSplitFunc := true;
     contentSplitFunc := false;
     decoder := nop_decoder;
     headerReader := None;
     emitFunc := sink_ok;
     deleteAtEOF := false;
     needsUpdateFingerprint := false;
     compression := "";
     acquireFSLock := false;
     maxBatchSize := 2 |}.

(** A Reader that deletes the file at its end. *)
Definition r_delete_at_eof : @Reader env_five :=
  {| md := md r_five;
     fileName := "app.log";
     file := Some [];
     reader := SrcNil;
     fingerprintSize := 1000;
     initialBufferSize := 16384;
     maxLogSize := 1048576;
     headerSplitFunc := true;
     contentSplitFunc := false;
     decoder := nop_decoder;
     headerReader := None;
     emitFunc := sink_ok;
     deleteAtEOF := true;
     needsUpdateFingerprint := false;
     compression := "";
     acquireFSLock := false;
     maxBatchSize := 2 |}.

(** A Reader whose handle is closed. *)
Definition r_closed : @Reader env_five := with_file None r_five.

(** A Reader that takes the file lock. *)
Definition r_locking : @Reader env_five :=
  {| md := md r_five;
     fileName := "app.log";
     file := Some [];
     reader := SrcNil;
     fingerprintSize := 1000;
     initialBufferSize := 16384;
     maxLogSize := 1048576;
     headerSplitFunc := true;
     contentSplitFunc := false;
     decoder := nop_decoder;
     headerReader := None;
     emitFunc := sink_ok;
     deleteAtEOF := false;
     needsUpdateFingerprint := false;
     compression := "";
     acquireFSLock := true;
     maxBatchSize := 2 |}.

(** A closed Reader with a refresh of the fingerprint pending. *)
Definition r_stale : @Reader env_five :=
  with_needsUpdateFingerprint true r_closed.

(** A header of one [#] line, ended by the first line of the content. *)
Definition hdr_then_content : list TokenScan * FinalScan :=
  ([line b_hash_a; line b_a], eof).

Definition env_hdr_done : Env := env hdr_then_content one_line.

Definition r_hdr_done : @Reader env_hdr_done :=
  reader_of hdr_then_content one_line [] [] nop_decoder sink_ok 2 ""
    (Some tt).

(** The same collaborators, with gzip streams that hold nothing beyond the
    size of the file. *)
Definition env_gz_done : Env :=
  {| File := bytes;
     SplitFunc := bool;
     any := string;
     HeaderReader := unit;
     Fingerprint := bytes;
     FlushState := unit;
     fingerprint_Len := @fingerprint_Len env_five;
     fingerprint_StartsWith := @fingerprint_StartsWith env_five;
     fingerprint_NewFromFile := @fingerprint_NewFromFile env_five;
     header_Process := @header_Process env_five;
     header_Stop := @header_Stop env_five;
     file_Stat := @file_Stat env_five;
     file_Seek := @file_Seek env_five;
     file_Close := @file_Close env_five;
     os_Remove := @os_Remove env_five;
     gzip_NewReader :=
       fun _ off size => if size <=? off then Some io_EOF else None;
     file_TryLock := @file_TryLock env_five;
     scanner_script := @scanner_script env_five
  |}.

(** A gzip file of four bytes, read up to its end. *)
Definition r_gz_done : @Reader env_gz_done :=
  {| md := {| Fingerprint_ := ([] : @Fingerprint env_gz_done);
              Offset := 4; RecordNum := 5; FileAttributes := ∅;
              HeaderFinalized := false; FlushState_ := tt;
              TokenLenState_ := {| MinimumLength := 0 |};
              FileType := "" |};
     fileName := "app.log.gz";
     file := Some gz_contents;
     reader := SrcNil;
     fingerprintSize := 1000;
     initialBufferSize := 16384;
     maxLogSize := 1048576;
     headerSplitFunc := true;
     contentSplitFunc := false;
     decoder := nop_decoder;
     headerReader := None;
     emitFunc := sink_ok;
     deleteAtEOF := false;
     needsUpdateFingerprint := false;
     compression := "gzip";
     acquireFSLock := false;
     maxBatchSize := 2 |}.

(** A scanner that splits its byte source at line feeds.  The sources here
    are shorter than its buffer: the first scan reads all that is left of
    the source, the later scans are served from the buffer, and the scan
    that finds no further line reads the end of the source. *)
Fixpoint lines_of (cur s : bytes) : list bytes :=
  match s with
  | [] => []
  | x :: s' =>
      if Byte.eqb x Byte.x0a then rev cur :: lines_of [] s'
      else lines_of (x :: cur) s'
  end.

Definition buffered_lines (s : bytes) : list TokenScan * FinalScan :=
  (match lines_of [] s with
   | [] => []
   | l :: ls =>
       {| tok_reads := [(Z.of_nat (length s), None)]; tok_bytes := l;
          tok_advance := Z.of_nat (length l) + 1 |} :: map line ls
   end,
   {| fin_reads := [(0, Some io_EOF)]; fin_err := None |}).

(** The collaborators of a file whose raw handle yields [raw] and whose
    gzip reader yields [stream]: a scanner is fed what is left of its byte
    source, from the position of the raw handle or from what the gzip
    reader has handed out so far. *)
Definition env_lines (raw stream : bytes) : Env :=
  {| File := bytes;
     SplitFunc := bool;
     any := string;
     HeaderReader := unit;
     Fingerprint := bytes;
     FlushState := unit;
     fingerprint_Len := @fingerprint_Len env_five;
     fingerprint_StartsWith := @fingerprint_StartsWith env_five;
     fingerprint_NewFromFile := @fingerprint_NewFromFile env_five;
     header_Process := @header_Process env_five;
     header_Stop := @header_Stop env_five;
     file_Stat := @file_Stat env_five;
     file_Seek := @file_Seek env_five;
     file_Close := @file_Close env_five;
     os_Remove := @os_Remove env_five;
     gzip_NewReader := fun _ _ _ => None;
     file_TryLock := @file_TryLock env_five;
     scanner_script :=
       fun _ src pos =>
         match src with
         | SrcNil => no_tokens
         | SrcFile => buffered_lines (drop (Z.to_nat pos) raw)
         | SrcGzip _ _ consumed =>
             buffered_lines (drop (Z.to_nat consumed) stream)
         end
  |}.

(** The lines [#a] and [a]: a header line and the first line of the
    content. *)
Definition header_and_line : bytes :=
  [Byte.x23; Byte.x61; Byte.x0a; Byte.x61; Byte.x0a].

(** A fresh Reader with a header reader, over a file of the given contents
    read as the compression says. *)
Definition r_header_of (raw stream : bytes) (comp : string)
  : @Reader (env_lines raw stream) :=
  {| md := {| Fingerprint_ := ([] : @Fingerprint (env_lines raw stream));
              Offset := 0; RecordNum := 0; FileAttributes := ∅;
              HeaderFinalized := false; FlushState_ := tt;
              TokenLenState_ := {| MinimumLength := 0 |};
              FileType := "" |};
     fileName := "app.log";
     file := Some raw;
     reader := SrcNil;
     fingerprintSize := 1000;
     initialBufferSize := 16384;
     maxLogSize := 1048576;
     headerSplitFunc := true;
     contentSplitFunc := false;
     decoder := nop_decoder;
     headerReader := Some tt;
     emitFunc := sink_ok;
     deleteAtEOF := false;
     needsUpdateFingerprint := false;
     compression := comp;
     acquireFSLock := false;
     maxBatchSize := 2 |}.

(** The two lines in a gzip file of four bytes, and in a plain file. *)
Definition r_gzip_header : @Reader (env_lines gz_contents header_and_line) :=
  r_header_of gz_contents header_and_line "gzip".

Definition r_plain_header : @Reader (env_lines header_and_line []) :=
  r_header_of header_and_line [] "".

End Example.

(** ** Specification vocabulary

    The notions the statements below are phrased in: the scanner's position
    after a run of tokens, the tokens of a run that decode, and the shape of
    a sequence of sink calls that delivers a list of tokens in batches. *)

(** [RecordNum++] on an [int64]. *)
Definition succ64 (z : Z) : Z := wrap64 (z + 1).

(** The scanner's position after it has returned all of [toks]. *)
Definition scan_end (pos : Z) (toks : list TokenScan) : Z :=
  fold_left (fun p t => p + tok_advance t) toks pos.

(** The tokens of [toks] the decoder accepts, each with its decoded body and
    the scanner's position just after it. *)
Fixpoint decoded (d : bytes -> bytes * option error) (pos : Z)
    (toks : list TokenScan) : list (bytes * Z) :=
  match toks with
  | [] => []
  | t :: ts =>
      let p := pos + tok_advance t in
      match d (tok_bytes t) with
      | (b, None) => (b, p) :: decoded d p ts
      | (_, Some _) => decoded d p ts
      end
  end.

(** The end position of the last of [items], or [s] if there is none. *)
Definition last_pos (s : Z) (items : list (bytes * Z)) : Z :=
  match last items with
  | Some (_, p) => p
  | None => s
  end.

(** The header tokens of [toks] the decoder accepts, as strings. *)
Fixpoint hdecoded (d : bytes -> bytes * option error)
    (toks : list TokenScan) : list string :=
  match toks with
  | [] => []
  | t :: ts =>
      match d (tok_bytes t) with
      | (b, None) => String.string_of_list_byte b :: hdecoded d ts
      | (_, Some _) => hdecoded d ts
      end
  end.

(** The header pipeline and the attributes after the pipeline has processed
    [tokens] one after the other. *)
Definition run_header {E : Env} (h : HeaderReader) (a : gmap string any)
    (tokens : list string) : HeaderReader * gmap string any :=
  fold_left (fun ha tok => fst (header_Process (fst ha) tok (snd ha)))
    tokens (h, a).

Section Batches.
Context {A : Type}.

(** [Batches m a s n items cs]: the calls [cs] deliver [items] in order, in
    non-empty batches of at most [m] tokens, all but the last of exactly
    [m].  Each call carries the attributes [a], an offsets array of length
    [m + 1] whose leading entries are the position before the batch ([s]
    for the first batch, the end of the previous batch afterwards) and the
    end positions of the batch's tokens, and the record number counted up
    from [n] through the tokens delivered so far. *)
Inductive Batches (m : Z) (a : gmap string A)
  : Z -> Z -> list (bytes * Z) -> list (EmitCall A) -> Prop :=
| Batches_nil s n : Batches m a s n [] []
| Batches_cons s n batch rest c cs :
    batch <> [] ->
    Z.of_nat (length batch) <= m ->
    (cs <> [] -> Z.of_nat (length batch) = m) ->
    call_tokens c = map fst batch ->
    call_attrs c = a ->
    Z.of_nat (length (call_offsets c)) = m + 1 ->
    take (S (length batch)) (call_offsets c) = s :: map snd batch ->
    call_recordNum c = Nat.iter (length batch) succ64 n ->
    Batches m a (last_pos s batch) (call_recordNum c) rest cs ->
    Batches m a s n (batch ++ rest) (c :: cs).
End Batches.

(** What no operation of the Reader changes: its configuration. *)
Record same_static {E : Env} (r r' : Reader) : Prop := {
  st_fileName : fileName r' = fileName r;
  st_fingerprintSize : fingerprintSize r' = fingerprintSize r;
  st_headerSplitFunc : headerSplitFunc r' = headerSplitFunc r;
  st_contentSplitFunc : contentSplitFunc r' = contentSplitFunc r;
  st_decoder : decoder r' = decoder r;
  st_emitFunc : emitFunc r' = emitFunc r;
  st_deleteAtEOF : deleteAtEOF r' = deleteAtEOF r;
  st_compression : compression r' = compression r;
  st_acquireFSLock : acquireFSLock r' = acquireFSLock r;
  st_maxBatchSize : maxBatchSize r' = maxBatchSize r
}.

(** What the raw reads of a scan leave alone: all but the byte source, the
    flag [needsUpdateFingerprint] and the handle's position. *)
Record reads_only {E : Env} (r : Reader) (w : World) (r' : Reader)
    (w' : World) : Prop := {
  ro_static : same_static r r';
  ro_md : md r' = md r;
  ro_file : file r' = file r;
  ro_headerReader : headerReader r' = headerReader r;
  ro_logs : logs w' = logs w;
  ro_emitted : emitted w' = emitted w;
  ro_processed : processed w' = processed w;
  ro_stops : stops w' = stops w;
  ro_removed : removed w' = removed w;
  ro_locked : locked w' = locked w;
  ro_polls : polls w' = polls w
}.

(** What [delete] leaves alone. *)
Record delete_only {E : Env} (r : Reader) (w : World) (r' : Reader)
    (w' : World) : Prop := {
  do_static : same_static r r';
  do_md : md r' = md r;
  do_headerReader : headerReader r' = headerReader r;
  do_reader : reader r' = reader r;
  do_needs : needsUpdateFingerprint r' = needsUpdateFingerprint r;
  do_emitted : emitted w' = emitted w;
  do_processed : processed w' = processed w;
  do_fpos : fpos w' = fpos w;
  do_locked : locked w' = locked w;
  do_polls : polls w' = polls w
}.

(** The buffers of the content phase hold the pending batch [pend]: its
    bodies at the front of [tokenBodies], its end positions behind the first
    entry of [tokenOffsets]. *)
Record buffers_hold (m : Z) (tokenBodies : list bytes)
    (tokenOffsets : list Z) (s : Z) (pend : list (bytes * Z)) : Prop := {
  bh_bodies_len : Z.of_nat (length tokenBodies) = m;
  bh_offsets_len : Z.of_nat (length tokenOffsets) = m + 1;
  bh_room : Z.of_nat (length pend) < m;
  bh_bodies : take (length pend) tokenBodies = map fst pend;
  bh_first : tokenOffsets !! 0%nat = Some s;
  bh_offsets : take (length pend) (drop 1 tokenOffsets) = map snd pend
}.

(** What a run of the content loop amounts to.  The loop is entered with
    the batch [pend] pending, the scanner at [pos], the position [s] in the
    first entry of the offsets array, and a record number that was counted up
    from [n0] through [pend].  It scans [k] of the tokens [toks]; of the
    tokens it has then seen, it delivers [items] by the calls [cs] and
    leaves [left] undelivered. *)
Record content_run {E : Env} (ctx : Context) (toks : list TokenScan)
    (pos s n0 : Z) (pend : list (bytes * Z)) (r : Reader) (w : World)
    (r' : Reader) (w' : World) (o : Outcome unit) (k : nat)
    (items left : list (bytes * Z)) (cs : list (EmitCall any)) : Prop := {
  cr_returned : o = Returned tt;
  cr_emitted : emitted w' = emitted w ++ cs;
  cr_scanned : (k <= length toks)%nat;
  cr_seen : pend ++ decoded (decoder r) pos (take k toks) = items ++ left;
  cr_batches :
    Batches (maxBatchSize r) (FileAttributes (md r)) s n0 items cs;
  cr_recordNum :
    RecordNum (md r')
    = Nat.iter (length (decoded (decoder r) pos (take k toks))) succ64
        (RecordNum (md r));
  cr_attrs : FileAttributes (md r') = FileAttributes (md r);
  cr_static : same_static r r';
  cr_uncancelled : (forall i, ctx i = false) -> k = length toks /\ left = [];
  cr_offset_end :
    (forall i, ctx i = false) -> pend <> [] \/ Offset (md r) = pos ->
    Offset (md r') = scan_end pos toks;
  cr_offset_flushed :
    Forall (fun t => snd (decoder r (tok_bytes t)) = None) toks ->
    Offset (md r) = s -> pos = last_pos s pend ->
    Offset (md r') = last_pos s items
}.

(** What a run of the header loop amounts to.  The loop is entered with
    the pipeline [h], the attributes [a] and the scanner at [pos]; it scans
    [k] of the tokens [toks] and leaves by the exit [ex]. *)
Record header_run {E : Env} (ctx : Context) (toks : list TokenScan)
    (pos : Z) (h : HeaderReader) (a : gmap string any) (r : Reader)
    (w : World) (r' : Reader) (w' : World) (ex : HeaderExit) (k : nat)
  : Prop := {
  hr_scanned : (k <= length toks)%nat;
  hr_processed :
    processed w' = processed w ++ hdecoded (decoder r) (take k toks);
  hr_pipeline :
    exists h', headerReader r' = Some h'
      /\ (h', FileAttributes (md r'))
         = run_header h a (hdecoded (decoder r) (take k toks));
  hr_recordNum : RecordNum (md r') = RecordNum (md r);
  hr_finalized : HeaderFinalized (md r') = HeaderFinalized (md r);
  hr_emitted : emitted w' = emitted w;
  hr_static : same_static r r';
  hr_exit :
    match ex with
    | HdrPanic _ => False
    | HdrReturn b =>
        b = true /\ Offset (md r') = scan_end pos (take k toks)
        /\ ((forall i, ctx i = false) -> k = length toks)
    | HdrBreak =>
        exists pre t, take k toks = pre ++ [t]
          /\ Offset (md r') = scan_end pos pre
          /\ snd (decoder r (tok_bytes t)) = None
    end
}.

(** The record counter cannot overflow in a cycle of this Reader: the batch
    size is a proper one, and no scanner over the content of the file yields
    more tokens than the counter has room for. *)
Definition counter_has_room {E : Env} (r : Reader) : Prop :=
  1 <= maxBatchSize r < maxInt64
  /\ - 2 ^ 63 <= RecordNum (md r)
  /\ forall src z,
       RecordNum (md r)
       + Z.of_nat (length (scanner_script (contentSplitFunc r) src z).1)
       <= maxInt64.

(** Relations between the state before and after a cycle. *)

(** The configuration of the Reader and the file type.  ([FlushState] and
    [TokenLenState] are not in it: they are the split functions' state from
    one scan to the next.) *)
Definition keeps_config {E : Env} (r : Reader) (w : World) (r' : Reader)
    (w' : World) : Prop :=
  same_static r r'
  /\ FileType (md r') = FileType (md r).

Definition keeps_lock {E : Env} (r : Reader) (w : World) (r' : Reader)
    (w' : World) : Prop :=
  locked w' = locked w.

(** A fingerprint of full size with no refresh pending stays as it is. *)
Definition keeps_full_fingerprint {E : Env} (r : Reader) (w : World)
    (r' : Reader) (w' : World) : Prop :=
  fingerprintSize r' = fingerprintSize r
  /\ (needsUpdateFingerprint r = false ->
      fingerprintSize r <= fingerprint_Len (Fingerprint_ (md r)) ->
      needsUpdateFingerprint r' = false
      /\ Fingerprint_ (md r') = Fingerprint_ (md r)).

(** Without a header reader, nothing of the header phase moves. *)
Definition keeps_header_state {E : Env} (r : Reader) (w : World)
    (r' : Reader) (w' : World) : Prop :=
  headerReader r = None ->
  headerReader r' = None
  /\ FileAttributes (md r') = FileAttributes (md r)
  /\ HeaderFinalized (md r') = HeaderFinalized (md r)
  /\ processed w' = processed w
  /\ stops w' = stops w.

Definition keeps_latch {E : Env} (r : Reader) (w : World) (r' : Reader)
    (w' : World) : Prop :=
  HeaderFinalized (md r) = true -> HeaderFinalized (md r') = true.

(** Without delete-at-EOF, the handle and the file stay. *)
Definition keeps_file {E : Env} (r : Reader) (w : World) (r' : Reader)
    (w' : World) : Prop :=
  deleteAtEOF r = false ->
  deleteAtEOF r' = false /\ file r' = file r /\ removed w' = removed w.

(** The content phase leaves the header reader alone. *)
Definition keeps_headerReader {E : Env} (r : Reader) (w : World)
    (r' : Reader) (w' : World) : Prop :=
  headerReader r' = headerReader r.

(** The Reader reads the raw handle: the mode is neither gzip nor auto on a
    file of type [.gz]. *)
Definition reads_raw {E : Env} (r : Reader) : bool :=
  negb (String.eqb (compression r) "gzip")
  && negb (String.eqb (compression r) "auto"
           && String.eqb (FileType (md r)) gzipExtension).

(** ** Basic facts *)

Lemma wrap64_small z : - 2 ^ 63 <= z < 2 ^ 63 -> wrap64 z = z.
Proof.
  intros Hz. unfold wrap64. rewrite Z.mod_small; lia.
Qed.

Lemma iter_succ64_small (k : nat) (n : Z) :
  - 2 ^ 63 <= n -> n + Z.of_nat k <= maxInt64 ->
  Nat.iter k succ64 n = n + Z.of_nat k.
Proof.
  unfold maxInt64. induction k as [|k IH]; intros Hlo Hhi.
  - simpl. lia.
  - rewrite Nat.iter_succ, IH by lia.
    unfold succ64. rewrite wrap64_small; lia.
Qed.


Lemma decoded_app d pos xs ys :
  decoded d pos (xs ++ ys)
  = decoded d pos xs ++ decoded d (scan_end pos xs) ys.
Proof.
  revert pos. induction xs as [|t xs IH]; intros pos; [reflexivity|].
  cbn [app decoded]. change (scan_end pos (t :: xs))
    with (scan_end (pos + tok_advance t) xs).
  destruct (d (tok_bytes t)) as [b [e|]]; rewrite IH; reflexivity.
Qed.

Lemma decoded_all_ok d pos toks :
  Forall (fun t => snd (d (tok_bytes t)) = None) toks ->
  length (decoded d pos toks) = length toks
  /\ last_pos pos (decoded d pos toks) = scan_end pos toks.
Proof.
  intros Hall. revert pos.
  induction Hall as [|t ts Ht _ IH]; intros pos; [split; reflexivity|].
  cbn [decoded]. destruct (d (tok_bytes t)) as [b [e|]]; [discriminate|].
  destruct (IH (pos + tok_advance t)) as [Hlen Hlast]. split.
  - simpl. congruence.
  - change (scan_end pos (t :: ts)) with (scan_end (pos + tok_advance t) ts).
    rewrite <- Hlast. unfold last_pos.
    destruct (decoded d (pos + tok_advance t) ts) as [|x xs] eqn:Hd;
      [reflexivity|].
    rewrite last_cons. destruct (last (x :: xs)) as [[? ?]|] eqn:Hl;
      [reflexivity|].
    apply last_None in Hl. discriminate.
Qed.

Lemma last_pos_app s xs ys :
  last_pos s (xs ++ ys) = last_pos (last_pos s xs) ys.
Proof.
  unfold last_pos. destruct ys as [|y ys] using rev_ind.
  - rewrite app_nil_r. reflexivity.
  - rewrite app_assoc, !last_snoc. reflexivity.
Qed.

Lemma last_pos_snoc s xs b p : last_pos s (xs ++ [(b, p)]) = p.
Proof. unfold last_pos. rewrite last_snoc. reflexivity. Qed.

(** *** Slices *)

Lemma make_slice_Some {A} (zero : A) n :
  0 <= n -> make_slice zero n = Some (replicate (Z.to_nat n) zero).
Proof.
  intros Hn. unfold make_slice.
  destruct (n <? 0) eqn:Hlt; [lia | reflexivity].
Qed.

Lemma slice_set_Some {A} (s : list A) i v :
  0 <= i < Z.of_nat (length s) ->
  slice_set s i v = Some (<[Z.to_nat i := v]> s).
Proof.
  intros Hi. unfold slice_set.
  destruct (0 <=? i) eqn:H0; [|lia].
  destruct (i <? Z.of_nat (length s)) eqn:H1; [reflexivity | lia].
Qed.


Lemma slice_to_Some {A} (s : list A) n :
  0 <= n <= Z.of_nat (length s) ->
  slice_to s n = Some (take (Z.to_nat n) s).
Proof.
  intros Hn. unfold slice_to.
  destruct (0 <=? n) eqn:H0; [|lia].
  destruct (n <=? Z.of_nat (length s)) eqn:H1; [reflexivity | lia].
Qed.

(** *** What the helpers leave alone *)

Section Preservation.
Context {E : Env}.

Lemma same_static_refl (r : Reader) : same_static r r.
Proof. constructor; reflexivity. Qed.

Lemma same_static_trans (r1 r2 r3 : Reader) :
  same_static r1 r2 -> same_static r2 r3 -> same_static r1 r3.
Proof.
  intros [] []. constructor; congruence.
Qed.

Lemma reads_only_refl r w : reads_only r w r w.
Proof. constructor; try reflexivity. apply same_static_refl. Qed.

Lemma reads_only_trans r1 w1 r2 w2 r3 w3 :
  reads_only r1 w1 r2 w2 -> reads_only r2 w2 r3 w3 ->
  reads_only r1 w1 r3 w3.
Proof.
  intros [] []. constructor; try congruence.
  eapply same_static_trans; eassumption.
Qed.

Lemma Read_reads_only res r w :
  reads_only r w (fst (Read res r w)) (snd (Read res r w)).
Proof.
  destruct res as [n err]. unfold Read, source_advance.
  destruct (reader r);
    destruct ((n =? 0) || match err with Some _ => true | None => false end);
    cbn [fst snd needsUpdateFingerprint md with_reader];
    try match goal with
        | |- context [if ?c then _ else _] => destruct c
        end;
    repeat constructor.
Qed.

Lemma scan_reads_reads_only rs r w :
  reads_only r w (fst (scan_reads rs r w)) (snd (scan_reads rs r w)).
Proof.
  unfold scan_reads. revert r w.
  induction rs as [|res rs IH]; intros r w; [apply reads_only_refl|].
  cbn [fold_left fst snd].
  eapply reads_only_trans; [apply (Read_reads_only res r w)|].
  specialize (IH (fst (Read res r w)) (snd (Read res r w))).
  destruct (Read res r w) as [r1 w1]. exact IH.
Qed.


Lemma delete_delete_only r w :
  delete_only r w (fst (delete r w)) (snd (delete r w)).
Proof.
  unfold delete, close.
  destruct (file r) as [f|]; [destruct (file_Close f)|];
    cbn [headerReader with_file];
    (destruct (headerReader r) as [h|]; [destruct (header_Stop h)|]);
    cbn [fileName with_file];
    destruct (os_Remove (fileName r));
    repeat constructor.
Qed.

End Preservation.

(** *** The buffers of the content phase *)

Lemma buffers_hold_init (m s : Z) :
  1 <= m ->
  buffers_hold m (replicate (Z.to_nat m) ([] : bytes))
    (<[0%nat := s]> (replicate (Z.to_nat (m + 1)) 0)) s [].
Proof.
  intros Hm. constructor; cbn [length take map].
  - rewrite length_replicate. lia.
  - rewrite length_insert, length_replicate. lia.
  - lia.
  - reflexivity.
  - apply list_lookup_insert_eq. rewrite length_replicate. lia.
  - reflexivity.
Qed.

(** A store behind the pending batch does not disturb it. *)
Lemma buffers_hold_skip m tb to s pend b p :
  buffers_hold m tb to s pend ->
  buffers_hold m (<[length pend := b]> tb) (<[S (length pend) := p]> to)
    s pend.
Proof.
  intros [Hb Ho Hr Htb Hf Hoff].
  destruct to as [|x to]; [discriminate|].
  constructor.
  - rewrite length_insert. exact Hb.
  - rewrite length_insert. exact Ho.
  - exact Hr.
  - rewrite take_insert_ge by lia. exact Htb.
  - exact Hf.
  - change (drop 1 (<[S (length pend) := p]> (x :: to)))
      with (<[length pend := p]> to).
    rewrite take_insert_ge by lia. exact Hoff.
Qed.

(** The buffers after the stores of lines 254-255 for a decoded token. *)
Lemma buffers_after_push m tb to s pend b p :
  buffers_hold m tb to s pend ->
  take (S (length pend)) (<[length pend := b]> tb)
  = map fst (pend ++ [(b, p)])
  /\ take (S (S (length pend))) (<[S (length pend) := p]> to)
     = s :: map snd (pend ++ [(b, p)]).
Proof.
  intros [Hb Ho Hr Htb Hf Hoff].
  destruct to as [|x to]; [discriminate|].
  change (drop 1 (x :: to)) with to in Hoff.
  assert (Hto : (length pend < length to)%nat) by (cbn in Ho; lia).
  inversion Hf; subst x. split.
  - rewrite (take_S_r _ _ b)
      by (apply list_lookup_insert_eq; lia).
    rewrite take_insert_ge by lia. rewrite Htb, map_app. reflexivity.
  - change (take (S (S (length pend))) (<[S (length pend) := p]> (s :: to)))
      with (s :: take (S (length pend)) (<[length pend := p]> to)).
    f_equal.
    rewrite (take_S_r _ _ p) by (apply list_lookup_insert_eq; exact Hto).
    rewrite take_insert_ge by lia. rewrite Hoff, map_app. reflexivity.
Qed.

Lemma buffers_hold_push m tb to s pend b p :
  buffers_hold m tb to s pend ->
  Z.of_nat (S (length pend)) < m ->
  buffers_hold m (<[length pend := b]> tb) (<[S (length pend) := p]> to)
    s (pend ++ [(b, p)]).
Proof.
  intros H Hroom.
  destruct (buffers_after_push _ _ _ _ _ b p H) as [Hb' Ho'].
  destruct H as [Hb Ho Hr Htb Hf Hoff].
  destruct to as [|x to]; [discriminate|].
  assert (Hl : length (pend ++ [(b, p)]) = S (length pend))
    by (rewrite length_app; cbn; lia).
  constructor; rewrite ?Hl.
  - rewrite length_insert. exact Hb.
  - rewrite length_insert. exact Ho.
  - exact Hroom.
  - exact Hb'.
  - exact Hf.
  - change (drop 1 (<[S (length pend) := p]> (x :: to)))
      with (<[length pend := p]> to).
    change (take (S (S (length pend))) (<[S (length pend) := p]> (x :: to)))
      with (x :: take (S (length pend)) (<[length pend := p]> to)) in Ho'.
    inversion Ho' as [[Hx Hi]]. rewrite Hi. reflexivity.
Qed.

Lemma buffers_hold_reset m tb to s p :
  buffers_hold m tb to s [] ->
  buffers_hold m tb (<[0%nat := p]> to) p [].
Proof.
  intros [Hb Ho Hr Htb Hf Hoff]. constructor; cbn [length take map] in *.
  - exact Hb.
  - rewrite length_insert. exact Ho.
  - exact Hr.
  - reflexivity.
  - apply list_lookup_insert_eq. lia.
  - reflexivity.
Qed.

(** The batch the final flush passes on. *)
Lemma buffers_pending m tb to s pend :
  buffers_hold m tb to s pend ->
  take (length pend) tb = map fst pend
  /\ take (S (length pend)) to = s :: map snd pend.
Proof.
  intros [Hb Ho Hr Htb Hf Hoff]. split; [exact Htb|].
  destruct to as [|x to]; [discriminate|].
  change (drop 1 (x :: to)) with to in Hoff.
  inversion Hf; subst x.
  change (take (S (length pend)) (s :: to))
    with (s :: take (length pend) to).
  rewrite Hoff. reflexivity.
Qed.

(** *** The content loop *)

(** Projections of updated records. *)
Ltac proj_simpl :=
  cbn [md fileName file reader fingerprintSize initialBufferSize maxLogSize
       headerSplitFunc contentSplitFunc decoder headerReader emitFunc
       deleteAtEOF needsUpdateFingerprint compression acquireFSLock
       maxBatchSize
       Fingerprint_ Offset RecordNum FileAttributes HeaderFinalized
       FlushState_ TokenLenState_ FileType
       logs emitted processed stops fpos removed locked polls
       setOffset setRecordNum setFileAttributes setHeaderFinalized
       setFingerprint with_md with_file with_reader with_headerReader
       with_needsUpdateFingerprint
       md_with_Offset md_with_RecordNum md_with_FileAttributes
       md_with_HeaderFinalized md_with_Fingerprint
       log with_emitted with_processed with_stop with_fpos with_removed
       with_locked with_poll unlockFile] in *.

Section ContentLoop.
Context {E : Env}.

Lemma emit_batch_emitted batch tokenOffsets (r : Reader) (w : World) :
  emitted (emit_batch batch tokenOffsets r w)
  = emitted w
    ++ [ {| call_tokens := batch; call_attrs := FileAttributes (md r);
            call_recordNum := RecordNum (md r);
            call_offsets := tokenOffsets |} ].
Proof.
  unfold emit_batch. destruct (emitFunc r _ _); reflexivity.
Qed.

Lemma readContents_loop_run toks :
  forall ctx fin pos tb to s n0 pend (r : Reader) (w : World) r' w' o,
    1 <= maxBatchSize r < maxInt64 ->
    buffers_hold (maxBatchSize r) tb to s pend ->
    RecordNum (md r) = Nat.iter (length pend) succ64 n0 ->
    readContents_loop ctx toks fin pos tb to (Z.of_nat (length pend)) r w
    = (r', w', o) ->
    exists k items left cs,
      content_run ctx toks pos s n0 pend r w r' w' o k items left cs.
Proof.
  unfold maxInt64.
  induction toks as [|t ts IH];
    intros ctx fin pos tb to s n0 pend r w r' w' o Hm Hbuf Hrec Hrun;
    cbn [readContents_loop] in Hrun; unfold ctx_Done in Hrun;
    destruct (ctx (polls w)) eqn:Hctx.
  - (* cancelled *)
    inversion Hrun; subst r' w' o. exists 0%nat, [], pend, [].
    constructor; cbn [take decoded length Nat.iter app];
      rewrite ?app_nil_r; try reflexivity; try lia.
    + constructor.
    + apply same_static_refl.
    + intros Hnever. rewrite Hnever in Hctx. discriminate.
    + intros Hnever. rewrite Hnever in Hctx. discriminate.
    + intros _ Hoff _. exact Hoff.
  - (* the scanner has stopped *)
    pose proof (scan_reads_reads_only (fin_reads fin) r (with_poll w)) as Hro.
    destruct (scan_reads (fin_reads fin) r (with_poll w)) as [r1 w1].
    cbn [fst snd] in Hro.
    assert (Hfin : exists r2 w2,
      match fin_err fin with
      | Some _ => (r1, log ErrorLevel "failed during scan" w1)
      | None => if deleteAtEOF r1 then delete r1 w1 else (r1, w1)
      end = (r2, w2)
      /\ md r2 = md r /\ same_static r r2 /\ emitted w2 = emitted w).
    { destruct Hro as [Hst Hmd _ _ _ Hem _ _ _ _ _]. cbn in Hem.
      destruct (fin_err fin);
        [|destruct (deleteAtEOF r1);
          [pose proof (delete_delete_only r1 w1) as Hdel;
           destruct (delete r1 w1) as [r2 w2]; cbn [fst snd] in Hdel;
           destruct Hdel as [Hst2 Hmd2 _ _ _ Hem2 _ _ _ _]|]];
        eexists _, _; (split; [reflexivity|]); cbn [emitted log];
        (split; [congruence|split; [|congruence]]);
        first [assumption | eapply same_static_trans; eassumption]. }
    destruct Hfin as (r2 & w2 & Heq & Hmd & Hst & Hem).
    rewrite Heq in Hrun. clear Heq Hro.
    destruct (buffers_pending _ _ _ _ _ Hbuf) as [Hbodies Hoffs].
    destruct Hbuf as [Hb Ho Hr _ Hf _].
    destruct pend as [|x pend'] eqn:Hpend.
    + (* nothing pending *)
      cbn in Hrun. inversion Hrun; subst r' w' o.
      exists 0%nat, [], [], [].
      constructor; cbn [take decoded length Nat.iter app];
        try reflexivity; try lia.
      * rewrite Hem, app_nil_r. reflexivity.
      * constructor.
      * rewrite Hmd. reflexivity.
      * rewrite Hmd. reflexivity.
      * exact Hst.
      * intros _. split; reflexivity.
      * intros _ [Hne|Hoff]; [congruence|]. rewrite Hmd. exact Hoff.
      * intros _ Hoff _. rewrite Hmd. exact Hoff.
    + (* the final flush *)
      rewrite <- Hpend in *.
      assert (Hlen : (0 < length pend)%nat) by (rewrite Hpend; cbn; lia).
      destruct (0 <? Z.of_nat (length pend)) eqn:Hpos; [|lia].
      rewrite slice_to_Some in Hrun by lia.
      rewrite Nat2Z.id in Hrun.
      inversion Hrun; subst r' w' o. clear Hrun.
      exists 0%nat, pend, [],
        [ {| call_tokens := take (length pend) tb;
             call_attrs := FileAttributes (md r2);
             call_recordNum := RecordNum (md r2);
             call_offsets := to |} ].
      constructor; cbn [take decoded length Nat.iter app];
        rewrite ?app_nil_r; try reflexivity; try lia.
      * rewrite emit_batch_emitted, Hem. reflexivity.
      * rewrite <- (app_nil_r pend) at 1.
        apply Batches_cons; cbn [call_tokens call_attrs call_recordNum
                                  call_offsets];
          [ rewrite Hpend; discriminate
          | lia
          | intros Hne; contradiction
          | exact Hbodies
          | rewrite Hmd; reflexivity
          | exact Ho
          | exact Hoffs
          | rewrite Hmd; exact Hrec
          | apply Batches_nil ].
      * cbn. rewrite Hmd. reflexivity.
      * cbn. rewrite Hmd. reflexivity.
      * destruct Hst. constructor; assumption.
      * intros _. split; reflexivity.
      * intros Hall Hoff Hp. cbn. exact Hp.
  - (* cancelled *)
    inversion Hrun; subst r' w' o. exists 0%nat, [], pend, [].
    constructor; cbn [take decoded length Nat.iter app];
      rewrite ?app_nil_r; try reflexivity; try lia.
    + constructor.
    + apply same_static_refl.
    + intros Hnever. rewrite Hnever in Hctx. discriminate.
    + intros Hnever. rewrite Hnever in Hctx. discriminate.
    + intros _ Hoff _. exact Hoff.
  - (* a token *)
    pose proof (scan_reads_reads_only (tok_reads t) r (with_poll w)) as Hro.
    destruct (scan_reads (tok_reads t) r (with_poll w)) as [r1 w1].
    cbn [fst snd] in Hro.
    destruct Hro as [Hst Hmd _ _ _ Hem _ _ _ _ _]. cbn in Hem.
    pose proof (st_decoder _ _ Hst) as Hdec.
    pose proof (st_maxBatchSize _ _ Hst) as Hmax.
    rewrite Hdec in Hrun.
    set (p := pos + tok_advance t) in *.
    destruct (decoder r (tok_bytes t)) as [b err] eqn:Hd.
    pose proof Hbuf as [Hb Ho Hr _ Hf _].
    rewrite slice_set_Some in Hrun by lia.
    rewrite wrap64_small in Hrun by lia.
    rewrite slice_set_Some in Hrun by lia.
    rewrite Nat2Z.id in Hrun.
    replace (Z.to_nat (Z.of_nat (length pend) + 1)) with (S (length pend))
      in Hrun by lia.
    destruct err as [e|].
    + (* undecodable: skipped *)
      eapply (IH _ _ _ _ _ s n0 pend) in Hrun;
        [ | proj_simpl; rewrite Hmax; exact Hm
          | proj_simpl; rewrite Hmax; apply buffers_hold_skip; exact Hbuf
          | proj_simpl; rewrite Hmd; exact Hrec ].
      destruct Hrun as (k & items & left & cs & Hcr).
      destruct Hcr as [Hret Hemit Hk Hseen Hbat Hrn Hattr Hstat Hunc Hend
                       Hflu].
      proj_simpl. rewrite ?Hmax, ?Hdec, ?Hmd, ?Hem in *.
      exists (S k), items, left, cs.
      constructor; cbn [take decoded length]; fold p; rewrite ?Hd;
        try assumption.
      * lia.
      * eapply same_static_trans; [exact Hst|].
        destruct Hstat. constructor; assumption.
      * intros Hnever. destruct (Hunc Hnever) as [-> ->].
        split; reflexivity.
      * intros Hnever _. apply Hend; [exact Hnever | right; reflexivity].
      * intros Hall. inversion Hall as [|? ? Hok _]; subst.
        rewrite Hd in Hok. discriminate.
    + (* decoded: batched and counted *)
      proj_simpl. rewrite Hmax, Hmd in Hrun.
      destruct (buffers_after_push _ _ _ _ _ b p Hbuf) as [Hbod' Hoff'].
      assert (Hlen' : length (pend ++ [(b, p)]) = S (length pend))
        by (rewrite length_app; cbn; lia).
      assert (Hrec' : wrap64 (RecordNum (md r) + 1)
                      = Nat.iter (length (pend ++ [(b, p)])) succ64 n0)
        by (rewrite Hlen', Nat.iter_succ, <- Hrec; reflexivity).
      destruct (maxBatchSize r <=? Z.of_nat (length pend) + 1) eqn:Hfull.
      * (* the batch is full: flush *)
        destruct (0 <? maxBatchSize r) eqn:Hpos; [|lia].
        cbn [andb] in Hrun.
        rewrite slice_to_Some in Hrun by (rewrite length_insert; lia).
        rewrite slice_set_Some in Hrun by (rewrite length_insert; lia).
        replace (Z.to_nat (Z.of_nat (length pend) + 1))
          with (S (length pend)) in Hrun by lia.
        change (Z.to_nat 0) with 0%nat in Hrun.
        rewrite Hbod' in Hrun.
        set (to' := <[S (length pend) := p]> to) in *.
        eapply (IH _ _ _ _ _ p (wrap64 (RecordNum (md r) + 1)) []) in Hrun;
          [ | proj_simpl; rewrite Hmax; exact Hm
            | |  reflexivity ].
        2:{ proj_simpl. rewrite Hmax. apply (buffers_hold_reset _ _ _ s).
            constructor; cbn [length take map]; subst to';
              rewrite ?length_insert; try assumption; try reflexivity;
              try lia.
            rewrite list_lookup_insert_ne by lia. exact Hf. }
        destruct Hrun as (k & items & left & cs & Hcr).
        destruct Hcr as [Hret Hemit Hk Hseen Hbat Hrn Hattr Hstat Hunc Hend
                         Hflu].
        rewrite emit_batch_emitted in Hemit.
        proj_simpl. rewrite ?Hmax, ?Hdec, ?Hmd, ?Hem in *.
        cbn [app] in Hseen.
        exists (S k), ((pend ++ [(b, p)]) ++ items), left,
          ({| call_tokens := map fst (pend ++ [(b, p)]);
              call_attrs := FileAttributes (md r);
              call_recordNum := wrap64 (RecordNum (md r) + 1);
              call_offsets := to' |} :: cs).
        constructor; cbn [take decoded length]; fold p; rewrite ?Hd;
          try assumption.
        -- rewrite Hemit, <- app_assoc. reflexivity.
        -- lia.
        -- rewrite Hseen, <- !app_assoc. reflexivity.
        -- apply Batches_cons; cbn [call_tokens call_attrs call_recordNum
                                    call_offsets];
             [ destruct pend; discriminate
             | lia
             | intros _; lia
             | reflexivity
             | reflexivity
             | subst to'; rewrite length_insert; exact Ho
             | rewrite Hlen'; exact Hoff'
             | exact Hrec'
             | rewrite last_pos_snoc; exact Hbat ].
        -- rewrite Hrn. cbn [length]. rewrite Nat.iter_succ_r. reflexivity.
        -- eapply same_static_trans; [exact Hst|].
           destruct Hstat. constructor; assumption.
        -- intros Hnever. destruct (Hunc Hnever) as [-> ->].
           split; reflexivity.
        -- intros Hnever _. apply Hend; [exact Hnever | right; reflexivity].
        -- intros Hall Hoff Hp. inversion Hall as [|? ? _ Hall']; subst.
           rewrite last_pos_app, last_pos_snoc.
           apply Hflu; [exact Hall' | reflexivity | reflexivity].
      * (* room is left *)
        rewrite andb_false_r in Hrun.
        replace (Z.of_nat (length pend) + 1)
          with (Z.of_nat (length (pend ++ [(b, p)]))) in Hrun by lia.
        eapply (IH _ _ _ _ _ s n0 (pend ++ [(b, p)])) in Hrun;
          [ | proj_simpl; rewrite Hmax; exact Hm
            | proj_simpl; rewrite Hmax; apply buffers_hold_push;
              [exact Hbuf | lia]
            | proj_simpl; rewrite ?Hmd; exact Hrec' ].
        destruct Hrun as (k & items & left & cs & Hcr).
        destruct Hcr as [Hret Hemit Hk Hseen Hbat Hrn Hattr Hstat Hunc Hend
                         Hflu].
        proj_simpl. rewrite ?Hmax, ?Hdec, ?Hmd, ?Hem in *.
        exists (S k), items, left, cs.
        constructor; cbn [take decoded length]; fold p; rewrite ?Hd;
          try assumption.
        -- lia.
        -- rewrite <- Hseen, <- app_assoc. reflexivity.
        -- rewrite Hrn. cbn [length]. rewrite Nat.iter_succ_r. reflexivity.
        -- eapply same_static_trans; [exact Hst|].
           destruct Hstat. constructor; assumption.
        -- intros Hnever. destruct (Hunc Hnever) as [-> ->].
           split; reflexivity.
        -- intros Hnever _. apply Hend; [exact Hnever | left].
           destruct pend; discriminate.
        -- intros Hall Hoff Hp. inversion Hall as [|? ? _ Hall']; subst.
           apply Hflu; [exact Hall' | reflexivity |].
           rewrite last_pos_snoc. reflexivity.
Qed.

End ContentLoop.

(** *** The header loop *)

Section HeaderLoop.
Context {E : Env}.

Lemma run_header_cons (h : HeaderReader) (a : gmap string any) tok toks :
  run_header h a (tok :: toks)
  = run_header (fst (fst (header_Process h tok a)))
      (snd (fst (header_Process h tok a))) toks.
Proof.
  unfold run_header. cbn [fold_left fst snd].
  destruct (header_Process h tok a) as [[h' a'] e]. reflexivity.
Qed.

Lemma readHeader_loop_run toks :
  forall ctx fin pos h (r : Reader) (w : World) r' w' ex,
    headerReader r = Some h ->
    Offset (md r) = pos ->
    readHeader_loop ctx toks fin pos r w = (r', w', ex) ->
    exists k,
      header_run ctx toks pos h (FileAttributes (md r)) r w r' w' ex k.
Proof.
  induction toks as [|t ts IH];
    intros ctx fin pos h r w r' w' ex Hh Hoff Hrun;
    cbn [readHeader_loop] in Hrun; unfold ctx_Done in Hrun;
    destruct (ctx (polls w)) eqn:Hctx.
  - inversion Hrun; subst r' w' ex. exists 0%nat.
    constructor; cbn [take hdecoded]; rewrite ?app_nil_r; try reflexivity.
    + eexists; split; [exact Hh | reflexivity].
    + apply same_static_refl.
    + split; [reflexivity|split; [exact Hoff|]].
      intros Hnever. rewrite Hnever in Hctx. discriminate.
  - pose proof (scan_reads_reads_only (fin_reads fin) r (with_poll w)) as Hro.
    destruct (scan_reads (fin_reads fin) r (with_poll w)) as [r1 w1].
    cbn [fst snd] in Hro.
    destruct Hro as [Hst Hmd _ Hhr _ Hem Hpr _ _ _ _]. cbn in Hem, Hpr.
    assert (Hfin : exists r2 w2,
      match fin_err fin with
      | Some _ => (r1, log ErrorLevel "failed during header scan" w1)
      | None =>
          if deleteAtEOF r1
          then delete r1 (log DebugLevel "end of file reached" w1)
          else (r1, log DebugLevel "end of file reached" w1)
      end = (r2, w2)
      /\ md r2 = md r /\ same_static r r2 /\ emitted w2 = emitted w
      /\ processed w2 = processed w /\ headerReader r2 = headerReader r).
    { destruct (fin_err fin);
        [|destruct (deleteAtEOF r1);
          [pose proof (delete_delete_only r1
                         (log DebugLevel "end of file reached" w1)) as Hdel;
           destruct (delete r1 _) as [r2 w2]; cbn [fst snd] in Hdel;
           destruct Hdel as [Hst2 Hmd2 Hhr2 _ _ Hem2 Hpr2 _ _ _];
           cbn in Hem2, Hpr2|]];
        eexists _, _; (split; [reflexivity|]); cbn [emitted processed log];
        (split; [congruence|split; [|repeat split; congruence]]);
        first [assumption | eapply same_static_trans; eassumption]. }
    destruct Hfin as (r2 & w2 & Heq & Hmd2 & Hst2 & Hem2 & Hpr2 & Hhr2).
    rewrite Heq in Hrun. inversion Hrun; subst r' w' ex. exists 0%nat.
    constructor; cbn [take hdecoded]; rewrite ?app_nil_r;
      try congruence; try reflexivity.
    + eexists; split; [rewrite Hhr2; exact Hh|]. rewrite Hmd2. reflexivity.
    + split; [reflexivity|split; [rewrite Hmd2; exact Hoff|]].
      reflexivity.
  - inversion Hrun; subst r' w' ex. exists 0%nat.
    constructor; cbn [take hdecoded]; rewrite ?app_nil_r; try reflexivity.
    + cbn; lia.
    + eexists; split; [exact Hh | reflexivity].
    + apply same_static_refl.
    + split; [reflexivity|split; [exact Hoff|]].
      intros Hnever. rewrite Hnever in Hctx. discriminate.
  - pose proof (scan_reads_reads_only (tok_reads t) r (with_poll w)) as Hro.
    destruct (scan_reads (tok_reads t) r (with_poll w)) as [r1 w1].
    cbn [fst snd] in Hro.
    destruct Hro as [Hst Hmd _ Hhr _ Hem Hpr _ _ _ _]. cbn in Hem, Hpr.
    pose proof (st_decoder _ _ Hst) as Hdec.
    unfold DecodeAsString in Hrun. rewrite Hdec in Hrun.
    set (p := pos + tok_advance t) in *.
    destruct (decoder r (tok_bytes t)) as [b err] eqn:Hd.
    destruct err as [e|].
    + (* undecodable: skipped *)
      eapply (IH _ _ _ h) in Hrun;
        [ | proj_simpl; rewrite Hhr; exact Hh | reflexivity ].
      destruct Hrun as (k & Hhr').
      destruct Hhr' as [Hk Hproc Hpipe Hrn Hfz Hemit Hstat Hex].
      proj_simpl. rewrite ?Hdec, ?Hmd, ?Hem, ?Hpr in *.
      exists (S k).
      constructor; cbn [take hdecoded length]; rewrite ?Hd;
        try assumption.
      * lia.
      * eapply same_static_trans; [exact Hst|].
        destruct Hstat. constructor; assumption.
      * destruct ex as [bdone| |msg]; [| |exact Hex].
        -- destruct Hex as (Hb & Ho & Hall). split; [exact Hb|].
           split; [exact Ho|]. intros Hn. rewrite (Hall Hn). reflexivity.
        -- destruct Hex as (pre & t' & Htake & Ho & Hok).
           exists (t :: pre), t'. rewrite Htake. repeat split; assumption.
    + (* decoded: handed to the pipeline *)
      rewrite Hhr, Hh, Hmd in Hrun.
      pose proof (run_header_cons h (FileAttributes (md r))
                    (String.string_of_list_byte b)) as Hcons.
      destruct (header_Process h (String.string_of_list_byte b)
                  (FileAttributes (md r))) as [[h' a'] perr] eqn:Hp.
      cbn [fst snd] in Hcons.
      assert (Hcont : forall w2,
        emitted w2 = emitted w ->
        processed w2 = processed w ++ [String.string_of_list_byte b] ->
        readHeader_loop ctx ts fin p
          (setOffset p (with_headerReader (Some h')
                          (setFileAttributes a' r1))) w2 = (r', w', ex) ->
        exists k,
          header_run ctx (t :: ts) pos h (FileAttributes (md r)) r w r' w'
            ex k).
      { intros w2 Hem2 Hpr2 Hloop.
        eapply (IH _ _ _ h') in Hloop; [ | reflexivity | reflexivity ].
        destruct Hloop as (k & Hhr').
        destruct Hhr' as [Hk Hproc Hpipe Hrn Hfz Hemit Hstat Hex].
        proj_simpl. rewrite ?Hdec, ?Hmd, ?Hem2, ?Hpr2 in *.
        exists (S k).
        constructor; cbn [take hdecoded length]; rewrite ?Hd;
          try assumption.
        - lia.
        - rewrite Hproc, <- app_assoc. reflexivity.
        - rewrite Hcons. exact Hpipe.
        - eapply same_static_trans; [exact Hst|].
          destruct Hstat. constructor; assumption.
        - destruct ex as [bdone| |msg]; [| |exact Hex].
          + destruct Hex as (Hb & Ho & Hall). split; [exact Hb|].
            split; [exact Ho|]. intros Hn. rewrite (Hall Hn). reflexivity.
          + destruct Hex as (pre & t' & Htake & Ho & Hok).
            exists (t :: pre), t'. rewrite Htake.
            repeat split; assumption. }
      destruct perr as [e|]; [destruct (errors_Is e ErrEndOfHeader)|].
      * (* end of header *)
        inversion Hrun; subst r' w' ex. exists 1%nat.
        constructor; cbn [take hdecoded length]; rewrite ?Hd;
          proj_simpl; rewrite ?Hmd, ?Hem, ?Hpr; try reflexivity.
        -- lia.
        -- eexists; split; [reflexivity|]. rewrite Hcons. reflexivity.
        -- destruct Hst. constructor; assumption.
        -- exists [], t. repeat split; [exact Hoff | rewrite Hd; reflexivity].
      * eapply Hcont; [ | | exact Hrun];
          proj_simpl; rewrite ?Hem, ?Hpr; reflexivity.
      * eapply Hcont; [ | | exact Hrun];
          proj_simpl; rewrite ?Hem, ?Hpr; reflexivity.
Qed.

End HeaderLoop.

(** *** Sequences of sink calls *)

Section BatchesFacts.
Context {A : Type}.


Lemma Batches_tokens m (a : gmap string A) s n items cs :
  Batches m a s n items cs ->
  concat (map call_tokens cs) = map fst items.
Proof.
  induction 1 as [|s n batch rest c cs _ _ _ Htok _ _ _ _ _ IH];
    [reflexivity|].
  cbn [map concat]. rewrite map_app, Htok, IH. reflexivity.
Qed.

Lemma Batches_no_calls m (a : gmap string A) s n items :
  Batches m a s n items [] -> items = [].
Proof. inversion 1. reflexivity. Qed.

Lemma Batches_no_items m (a : gmap string A) s n cs :
  Batches m a s n [] cs -> cs = [].
Proof.
  intros H. remember [] as items eqn:Hi.
  destruct H as [|? ? batch rest ? ? Hne]; [reflexivity|].
  destruct batch; [contradiction | discriminate].
Qed.


(** Every call delivers a run of consecutive tokens. *)
Lemma Batches_segment m (a : gmap string A) s n items cs c :
  Batches m a s n items cs -> c ∈ cs ->
  exists pre batch post,
    items = pre ++ batch ++ post
    /\ batch <> []
    /\ Z.of_nat (length batch) <= m
    /\ call_tokens c = map fst batch
    /\ call_attrs c = a
    /\ Z.of_nat (length (call_offsets c)) = m + 1
    /\ take (S (length batch)) (call_offsets c)
       = last_pos s pre :: map snd batch
    /\ call_recordNum c = Nat.iter (length (pre ++ batch)) succ64 n.
Proof.
  induction 1 as [|s n batch rest c0 cs Hne Hle _ Htok Hat Hlen Htake Hrn
                   _ IH]; intros Hin.
  - inversion Hin.
  - apply elem_of_cons in Hin. destruct Hin as [->|Hin].
    + exists [], batch, rest. cbn [app]. repeat split; assumption.
    + destruct (IH Hin)
        as (pre & b' & post & -> & Hne' & Hle' & Htok' & Hat' & Hlen'
            & Htake' & Hrn').
      exists (batch ++ pre), b', post.
      rewrite <- app_assoc, last_pos_app.
      repeat split; try assumption.
      rewrite Hrn', Hrn, <- Nat.iter_add, !length_app. f_equal. lia.
Qed.

(** More tokens than fit one batch: the first call is a full batch. *)
Lemma Batches_full m (a : gmap string A) s n items cs :
  Batches m a s n items cs ->
  0 <= m < Z.of_nat (length items) ->
  exists c cs' batch rest,
    cs = c :: cs' /\ items = batch ++ rest
    /\ Z.of_nat (length batch) = m
    /\ length (call_tokens c) = length batch
    /\ call_recordNum c = Nat.iter (length batch) succ64 n
    /\ Batches m a (last_pos s batch) (call_recordNum c) rest cs'.
Proof.
  intros H Hlen.
  destruct H as [|s n batch rest c cs Hne Hle Hfull Htok _ _ _ Hrn Hrest];
    [cbn in Hlen; lia|].
  exists c, cs, batch, rest.
  assert (Hcs : cs <> []).
  { intros ->. apply Batches_no_calls in Hrest. subst rest.
    rewrite app_nil_r in Hlen. lia. }
  repeat split; try assumption; [auto|].
  rewrite Htok, length_map. reflexivity.
Qed.

(** Tokens that fit one batch are delivered by one call. *)
Lemma Batches_single m (a : gmap string A) s n items cs :
  Batches m a s n items cs ->
  0 < Z.of_nat (length items) <= m ->
  exists c,
    cs = [c] /\ length (call_tokens c) = length items
    /\ call_recordNum c = Nat.iter (length items) succ64 n.
Proof.
  intros H Hlen.
  destruct H as [|s n batch rest c cs Hne Hle Hfull Htok _ _ _ Hrn Hrest];
    [cbn in Hlen; lia|].
  destruct cs as [|c' cs'].
  - apply Batches_no_calls in Hrest. subst rest. rewrite app_nil_r in *.
    exists c. repeat split; [|exact Hrn].
    rewrite Htok, length_map. reflexivity.
  - assert (Hrest' : rest <> []).
    { intros ->. apply Batches_no_items in Hrest. discriminate. }
    specialize (Hfull ltac:(discriminate)).
    rewrite length_app in Hlen. destruct rest; [contradiction|].
    cbn [length] in Hlen. lia.
Qed.

(** The record number of a call counts the tokens delivered up to and
    including that call. *)
Lemma Batches_recordNum m (a : gmap string A) s n items cs :
  Batches m a s n items cs ->
  forall i c, cs !! i = Some c ->
    call_recordNum c
    = Nat.iter (length (concat (map call_tokens (take (S i) cs)))) succ64 n.
Proof.
  induction 1 as [|s n batch rest c0 cs _ _ _ Htok _ _ _ Hrn _ IH];
    intros i c Hi; [inversion Hi|].
  destruct i as [|j].
  - inversion Hi; subst c0. cbn [take map concat].
    rewrite app_nil_r, Htok, length_map. exact Hrn.
  - cbn [lookup list_lookup] in Hi. rewrite (IH j c Hi), Hrn.
    rewrite <- Nat.iter_add.
    change (take (S (S j)) (c0 :: cs)) with (c0 :: take (S j) cs).
    cbn [map concat]. rewrite length_app, Htok, length_map.
    f_equal. lia.
Qed.

End BatchesFacts.

(** *** The content phase as a whole *)

Section ContentPhase.
Context {E : Env}.

Lemma readContents_run ctx (r : Reader) (w : World) toks fin r' w' o :
  1 <= maxBatchSize r < maxInt64 ->
  scanner_script (contentSplitFunc r) (reader r) (fpos w) = (toks, fin) ->
  readContents ctx r w = (r', w', o) ->
  exists k items left cs,
    content_run ctx toks (Offset (md r)) (Offset (md r)) (RecordNum (md r))
      [] r w r' w' o k items left cs.
Proof.
  intros Hm Hscript Hrun. unfold readContents, scanner_New in Hrun.
  rewrite Hscript in Hrun. cbn [s_tokens s_final s_pos] in Hrun.
  unfold maxInt64 in Hm.
  rewrite make_slice_Some in Hrun by lia.
  rewrite wrap64_small in Hrun by lia.
  rewrite make_slice_Some in Hrun by lia.
  rewrite slice_set_Some in Hrun by (rewrite length_replicate; lia).
  change (Z.to_nat 0) with 0%nat in Hrun.
  eapply (readContents_loop_run toks _ _ _ _ _ _ _ []); [ | | | exact Hrun].
  - exact Hm.
  - apply buffers_hold_init. lia.
  - reflexivity.
Qed.

End ContentPhase.

(** *** The record counter *)

Section RecordCounter.
Context {E : Env}.

(** The counter over one run of the content phase. *)
Lemma readContents_recordNum_run ctx (r : Reader) (w : World)
    toks fin :
  1 <= maxBatchSize r < maxInt64 ->
  - 2 ^ 63 <= RecordNum (md r) ->
  RecordNum (md r) + Z.of_nat (length toks) <= maxInt64 ->
  scanner_script (contentSplitFunc r) (reader r) (fpos w) = (toks, fin) ->
  exists cs,
    emitted (readContents ctx r w).1.2 = emitted w ++ cs
    /\ RecordNum (md r) <= RecordNum (md (readContents ctx r w).1.1)
    /\ RecordNum (md r)
         + Z.of_nat (length (concat (map call_tokens cs)))
       <= RecordNum (md (readContents ctx r w).1.1)
    /\ (forall i c, cs !! i = Some c ->
          call_recordNum c
          = RecordNum (md r)
            + Z.of_nat
                (length (concat (map call_tokens (take (S i) cs)))))
    /\ ((forall i, ctx i = false) ->
        RecordNum (md (readContents ctx r w).1.1)
        = RecordNum (md r)
          + Z.of_nat (length (concat (map call_tokens cs)))).
Proof.
  intros Hm Hlo Hhi Hscript.
  destruct (readContents ctx r w) as [[r' w'] o] eqn:Hrun.
  destruct (readContents_run _ _ _ _ _ _ _ _ Hm Hscript Hrun)
    as (k & items & left & cs & Hcr).
  destruct Hcr as [_ Hemit Hk Hseen Hbat Hrn _ _ Hunc _ _].
  cbn [app] in Hseen. cbn [fst snd].
  pose proof (Batches_tokens _ _ _ _ _ _ Hbat) as Htoks.
  assert (Hdec_le : forall d p ts,
            (length (decoded d p ts) <= length ts)%nat).
  { intros d p ts. revert p. induction ts as [|t ts IH]; intros p;
      [cbn; lia|].
    cbn [decoded]. destruct (d (tok_bytes t)) as [b [e|]];
      specialize (IH (p + tok_advance t)); cbn [length]; lia. }
  pose proof (Hdec_le (decoder r) (Offset (md r)) (take k toks)) as Hle.
  rewrite length_take in Hle.
  assert (Hitems : (length (concat (map call_tokens cs))
                    + length left
                    = length (decoded (decoder r) (Offset (md r))
                                (take k toks)))%nat).
  { rewrite Htoks, length_map, Hseen, length_app. reflexivity. }
  rewrite iter_succ64_small in Hrn by lia.
  exists cs. split; [exact Hemit|].
  split; [lia|]. split; [lia|]. split.
  - intros i c Hi.
    rewrite (Batches_recordNum _ _ _ _ _ _ Hbat i c Hi).
    apply iter_succ64_small; [exact Hlo|].
    assert (Hpre : (length (concat (map call_tokens (take (S i) cs)))
                    <= length (concat (map call_tokens cs)))%nat).
    { rewrite <- (take_drop (S i) cs) at 2.
      rewrite map_app, concat_app, length_app. lia. }
    lia.
  - intros Hnever. destruct (Hunc Hnever) as [_ ->].
    cbn [length] in Hitems. lia.
Qed.

Lemma emit_batch_polls batch tokenOffsets (r : Reader) (w : World) :
  polls (emit_batch batch tokenOffsets r w) = polls w.
Proof.
  unfold emit_batch. destruct (emitFunc r _ _); reflexivity.
Qed.

(** The loop of the content phase scans the tokens up to the first poll
    that finds the context done, and counts those of them that decode, one
    by one, whatever becomes of the batch they joined. *)
Lemma readContents_loop_scanned toks :
  forall ctx fin pos tb to n (r : Reader) (w : World),
    (readContents_loop ctx toks fin pos tb to n r w).2 = Returned tt ->
    exists k,
      (k <= length toks)%nat
      /\ (forall j, (j < k)%nat -> ctx (polls w + j)%nat = false)
      /\ ((k < length toks)%nat -> ctx (polls w + k)%nat = true)
      /\ RecordNum (md (readContents_loop ctx toks fin pos tb to n r w).1.1)
         = Nat.iter (length (decoded (decoder r) pos (take k toks))) succ64
             (RecordNum (md r)).
Proof.
  induction toks as [|t ts IH]; intros ctx fin pos tb to n r w;
    cbn [readContents_loop]; unfold ctx_Done;
    destruct (ctx (polls w)) eqn:Hc; cbn [fst snd].
  - intros _. exists 0%nat. cbn [length take decoded Nat.iter].
    split; [lia|]. split; [intros j Hj; lia|]. split; [lia | reflexivity].
  - destruct (scan_reads_reads_only (fin_reads fin) r (with_poll w))
      as [_ Hmd _ _ _ _ _ _ _ _ _].
    destruct (scan_reads (fin_reads fin) r (with_poll w)) as [r1 w1].
    cbn [fst snd] in Hmd.
    assert (Hfin : md (match fin_err fin with
                       | Some _ => (r1, log ErrorLevel "failed during scan" w1)
                       | None =>
                           if deleteAtEOF r1 then delete r1 w1 else (r1, w1)
                       end).1 = md r).
    { destruct (fin_err fin); cbn [fst]; [exact Hmd|].
      destruct (deleteAtEOF r1); cbn [fst]; [|exact Hmd].
      rewrite (do_md _ _ _ _ (delete_delete_only r1 w1)). exact Hmd. }
    destruct (match fin_err fin with Some _ => _ | None => _ end)
      as [r2 w2]. cbn [fst] in Hfin.
    intros Hret. exists 0%nat. cbn [length take decoded Nat.iter].
    split; [lia|]. split; [intros j Hj; lia|]. split; [lia|].
    destruct (0 <? n); cbn [fst snd]; [|rewrite Hfin; reflexivity].
    destruct (slice_to tb n); cbn [fst snd]; proj_simpl; rewrite Hfin;
      reflexivity.
  - intros _. exists 0%nat. cbn [length take decoded Nat.iter].
    split; [lia|]. split; [intros j Hj; lia|].
    split; [intros _; rewrite Nat.add_0_r; exact Hc | reflexivity].
  - destruct (scan_reads_reads_only (tok_reads t) r (with_poll w))
      as [Hst Hmd _ _ _ _ _ _ _ _ Hpolls].
    destruct (scan_reads (tok_reads t) r (with_poll w)) as [r1 w1].
    cbn [fst snd] in *. cbn in Hpolls.
    pose proof (st_decoder _ _ Hst) as Hdec.
    assert (Hstep : forall (w2 : World) k',
              polls w2 = S (polls w) ->
              (k' <= length ts)%nat ->
              (forall j, (j < k')%nat -> ctx (polls w2 + j)%nat = false) ->
              ((k' < length ts)%nat -> ctx (polls w2 + k')%nat = true) ->
              (S k' <= length (t :: ts))%nat
              /\ (forall j, (j < S k')%nat -> ctx (polls w + j)%nat = false)
              /\ ((S k' < length (t :: ts))%nat ->
                  ctx (polls w + S k')%nat = true)).
    { intros w2 k' Hp Hk Hbefore Hat. rewrite Hp in *.
      cbn [length]. split; [lia|]. split.
      - intros [|j] Hj; [rewrite Nat.add_0_r; exact Hc|].
        rewrite Nat.add_succ_r. apply (Hbefore j). lia.
      - intros Hlt. rewrite Nat.add_succ_r. apply Hat. lia. }
    destruct (decoder r1 (tok_bytes t)) as [b err] eqn:Hd.
    rewrite Hdec in Hd.
    destruct (slice_set tb n b); cbn [fst snd]; [|discriminate].
    destruct (slice_set to (wrap64 (n + 1)) (pos + tok_advance t));
      cbn [fst snd]; [|discriminate].
    destruct err as [e|].
    + intros Hret.
      destruct (IH _ _ _ _ _ _ _ _ Hret) as (k' & Hk & Hbefore & Hat & Hrn).
      exists (S k').
      destruct (Hstep (log ErrorLevel "failed to decode token" w1)
                  k' Hpolls Hk Hbefore Hat) as (H1 & H2 & H3).
      split; [exact H1|]. split; [exact H2|]. split; [exact H3|].
      rewrite Hrn. proj_simpl. cbn [take decoded]. rewrite Hdec, Hd, Hmd.
      reflexivity.
    + proj_simpl.
      destruct ((0 <? maxBatchSize r1)
                && (maxBatchSize r1 <=? wrap64 (n + 1))).
      * destruct (slice_to l (wrap64 (n + 1))); cbn [fst snd];
          [|discriminate].
        destruct (slice_set l0 0 (pos + tok_advance t)); cbn [fst snd];
          [|discriminate].
        intros Hret.
        destruct (IH _ _ _ _ _ _ _ _ Hret)
          as (k' & Hk & Hbefore & Hat & Hrn).
        exists (S k').
        rewrite emit_batch_polls in Hbefore, Hat.
        destruct (Hstep w1 k' Hpolls Hk Hbefore Hat)
          as (H1 & H2 & H3).
        split; [exact H1|]. split; [exact H2|]. split; [exact H3|].
        rewrite Hrn. proj_simpl. cbn [take decoded]. rewrite Hdec, Hd, Hmd.
        cbn [length]. rewrite Nat.iter_succ_r. reflexivity.
      * intros Hret.
        destruct (IH _ _ _ _ _ _ _ _ Hret)
          as (k' & Hk & Hbefore & Hat & Hrn).
        exists (S k').
        destruct (Hstep w1 k' Hpolls Hk Hbefore Hat)
          as (H1 & H2 & H3).
        split; [exact H1|]. split; [exact H2|]. split; [exact H3|].
        rewrite Hrn. proj_simpl. cbn [take decoded]. rewrite Hdec, Hd, Hmd.
        cbn [length]. rewrite Nat.iter_succ_r. reflexivity.
Qed.

Lemma decoded_length_le d pos toks :
  (length (decoded d pos toks) <= length toks)%nat.
Proof.
  revert pos. induction toks as [|t ts IH]; intros pos; [cbn; lia|].
  cbn [decoded]. destruct (d (tok_bytes t)) as [b [e|]];
    specialize (IH (pos + tok_advance t)); cbn [length]; lia.
Qed.

Lemma decoded_take_same d pos toks k1 k2 :
  length (decoded d pos (take k1 toks))
  = length (decoded d pos (take k2 toks)) ->
  decoded d pos (take k1 toks) = decoded d pos (take k2 toks).
Proof.
  assert (Hle : forall a b,
            (a <= b)%nat ->
            length (decoded d pos (take a toks))
            = length (decoded d pos (take b toks)) ->
            decoded d pos (take a toks) = decoded d pos (take b toks)).
  { intros a b Hab. replace b with (a + (b - a))%nat by lia.
    rewrite <- take_take_drop, decoded_app, length_app.
    intros Hlen.
    assert (Hnil : decoded d (scan_end pos (take a toks))
                     (take (b - a) (drop a toks)) = [])
      by (apply nil_length_inv; lia).
    rewrite Hnil, app_nil_r. reflexivity. }
  intros Hlen. destruct (Nat.le_ge_cases k1 k2) as [H | H].
  - apply Hle; assumption.
  - symmetry. apply Hle; [exact H | symmetry; exact Hlen].
Qed.

(** The counter over one run of the content phase, token by token: the
    phase scans the first [k] tokens, [k] being where the context is first
    found done (or all of them); every one of these that decodes is counted,
    those already passed to the sink and those still pending in the batch
    alike. *)
Lemma readContents_counts_decoded ctx (r : Reader) (w : World) toks fin :
  1 <= maxBatchSize r < maxInt64 ->
  - 2 ^ 63 <= RecordNum (md r) ->
  RecordNum (md r) + Z.of_nat (length toks) <= maxInt64 ->
  scanner_script (contentSplitFunc r) (reader r) (fpos w) = (toks, fin) ->
  exists k cs pending,
    (k <= length toks)%nat
    /\ (forall j, (j < k)%nat -> ctx (polls w + j)%nat = false)
    /\ ((k < length toks)%nat -> ctx (polls w + k)%nat = true)
    /\ emitted (readContents ctx r w).1.2 = emitted w ++ cs
    /\ map fst (decoded (decoder r) (Offset (md r)) (take k toks))
       = concat (map call_tokens cs) ++ pending
    /\ RecordNum (md (readContents ctx r w).1.1)
       = RecordNum (md r)
         + Z.of_nat (length (decoded (decoder r) (Offset (md r))
                               (take k toks)))
    /\ (forall i c, cs !! i = Some c ->
          call_recordNum c
          = RecordNum (md r)
            + Z.of_nat
                (length (concat (map call_tokens (take (S i) cs)))))
    /\ ((forall i, ctx i = false) -> k = length toks /\ pending = []).
Proof.
  intros Hm Hlo Hhi Hscript.
  pose proof (readContents_loop_scanned toks ctx fin (Offset (md r))
                (replicate (Z.to_nat (maxBatchSize r)) ([] : bytes))
                (<[0%nat := Offset (md r)]>
                   (replicate (Z.to_nat (maxBatchSize r + 1)) 0))
                0 r w) as Hsc.
  assert (Hloop : readContents ctx r w
                  = readContents_loop ctx toks fin (Offset (md r))
                      (replicate (Z.to_nat (maxBatchSize r)) ([] : bytes))
                      (<[0%nat := Offset (md r)]>
                         (replicate (Z.to_nat (maxBatchSize r + 1)) 0))
                      0 r w).
  { unfold readContents, scanner_New. rewrite Hscript.
    cbn [s_tokens s_final s_pos]. unfold maxInt64 in Hm.
    rewrite make_slice_Some by lia.
    rewrite wrap64_small by lia.
    rewrite make_slice_Some by lia.
    rewrite slice_set_Some by (rewrite length_replicate; lia).
    reflexivity. }
  rewrite <- Hloop in Hsc.
  destruct (readContents ctx r w) as [[r' w'] o] eqn:Hrun.
  destruct (readContents_run _ _ _ _ _ _ _ _ Hm Hscript Hrun)
    as (k1 & items & left & cs & Hcr).
  destruct Hcr as [Hret Hemit Hk1 Hseen Hbat Hrn _ _ Hunc _ _].
  cbn [app] in Hseen. cbn [fst snd] in *.
  destruct (Hsc Hret) as (k & Hk & Hbefore & Hat & Hrn2).
  pose proof (decoded_length_le (decoder r) (Offset (md r)) (take k1 toks))
    as Hle1.
  pose proof (decoded_length_le (decoder r) (Offset (md r)) (take k toks))
    as Hle2.
  rewrite length_take in Hle1, Hle2.
  rewrite iter_succ64_small in Hrn by lia.
  rewrite iter_succ64_small in Hrn2 by lia.
  assert (Hsame : decoded (decoder r) (Offset (md r)) (take k toks)
                  = items ++ left).
  { rewrite <- Hseen. apply decoded_take_same. lia. }
  pose proof (Batches_tokens _ _ _ _ _ _ Hbat) as Htoks.
  exists k, cs, (map fst left).
  split; [exact Hk|]. split; [exact Hbefore|]. split; [exact Hat|].
  split; [exact Hemit|].
  split; [rewrite Hsame, map_app, Htoks; reflexivity|].
  split; [exact Hrn2|]. split.
  - intros i c Hi.
    rewrite (Batches_recordNum _ _ _ _ _ _ Hbat i c Hi).
    apply iter_succ64_small; [exact Hlo|].
    assert (Hpre : (length (concat (map call_tokens (take (S i) cs)))
                    <= length (concat (map call_tokens cs)))%nat).
    { rewrite <- (take_drop (S i) cs) at 2.
      rewrite map_app, concat_app, length_app. lia. }
    assert (Hall : (length (concat (map call_tokens cs))
                    <= length (decoded (decoder r) (Offset (md r))
                                 (take k toks)))%nat).
    { rewrite Hsame, Htoks, length_map, length_app. lia. }
    lia.
  - intros Hnever. destruct (Hunc Hnever) as [_ ->]. split; [|reflexivity].
    destruct (Nat.lt_ge_cases k (length toks)) as [Hlt | Hge]; [|lia].
    specialize (Hat Hlt). rewrite Hnever in Hat. discriminate.
Qed.

Lemma counter_has_room_static (r r' : Reader) :
  same_static r r' -> RecordNum (md r') = RecordNum (md r) ->
  counter_has_room r -> counter_has_room r'.
Proof.
  intros Hst Hrn (Hm & Hlo & Hhi). unfold counter_has_room.
  rewrite (st_maxBatchSize _ _ Hst), (st_contentSplitFunc _ _ Hst), Hrn.
  auto.
Qed.

Lemma readContents_recordNum_le ctx (r : Reader) (w : World) :
  counter_has_room r ->
  RecordNum (md r) <= RecordNum (md (readContents ctx r w).1.1).
Proof.
  intros (Hm & Hlo & Hhi).
  specialize (Hhi (reader r) (fpos w)).
  destruct (scanner_script (contentSplitFunc r) (reader r) (fpos w))
    as [toks fin] eqn:Hscript.
  destruct (readContents_recordNum_run ctx r w toks fin Hm Hlo Hhi Hscript)
    as (cs & _ & Hle & _).
  exact Hle.
Qed.

Lemma finalizeHeader_preserves (r : Reader) (w : World) :
  RecordNum (md (finalizeHeader r w).1.1) = RecordNum (md r)
  /\ same_static r (finalizeHeader r w).1.1.
Proof.
  unfold finalizeHeader, Seek.
  destruct (headerReader r) as [h|];
    [|split; [reflexivity | apply same_static_refl]].
  proj_simpl.
  destruct (file r) as [f|]; [destruct (file_Seek f (Offset (md r)))|];
    destruct (header_Stop h); cbn [fst snd]; proj_simpl;
    (split; [reflexivity | constructor; reflexivity]).
Qed.

Lemma readHeader_preserves ctx (r : Reader) (w : World) h :
  headerReader r = Some h ->
  RecordNum (md (readHeader ctx r w).1.1) = RecordNum (md r)
  /\ same_static r (readHeader ctx r w).1.1.
Proof.
  intros Hh. unfold readHeader, scanner_New.
  destruct (scanner_script (headerSplitFunc r) (reader r) (fpos w))
    as [toks fin].
  cbn [s_tokens s_final s_pos]. unfold readHeader_from.
  destruct (readHeader_loop ctx toks fin (Offset (md r)) r w)
    as [[r1 w1] ex] eqn:Hloop.
  destruct (readHeader_loop_run _ _ _ _ _ _ _ _ _ _ Hh eq_refl Hloop)
    as (k & Hhr).
  destruct Hhr as [_ _ _ Hrn _ _ Hst Hex].
  destruct ex as [b| |msg]; cbn [fst snd]; [auto | | contradiction].
  destruct (finalizeHeader_preserves r1 w1) as [Hrn' Hst'].
  split; [congruence | eapply same_static_trans; eassumption].
Qed.

Lemma updateFingerprint_preserves (r : Reader) :
  RecordNum (md (updateFingerprint r)) = RecordNum (md r)
  /\ Offset (md (updateFingerprint r)) = Offset (md r)
  /\ same_static r (updateFingerprint r).
Proof.
  unfold updateFingerprint. proj_simpl.
  destruct (file r) as [f|];
    [|repeat split; reflexivity].
  destruct (fingerprint_NewFromFile f (fingerprintSize r) _);
    [|repeat split; reflexivity].
  destruct (_ && _); repeat split; reflexivity.
Qed.

Lemma readPhases_recordNum_le ctx (r : Reader) (w : World) :
  counter_has_room r ->
  RecordNum (md r) <= RecordNum (md (readPhases ctx r w).1.1).
Proof.
  intros Hroom. unfold readPhases.
  destruct (headerReader r) as [h|] eqn:Hh;
    [|apply readContents_recordNum_le; exact Hroom].
  destruct (readHeader_preserves ctx r w h Hh) as [Hrn Hst].
  destruct (readHeader ctx r w) as [[r1 w1] [[|]|msg]]; cbn [fst snd] in *;
    try lia.
  rewrite <- Hrn. apply readContents_recordNum_le.
  eapply counter_has_room_static; eassumption.
Qed.

Lemma readFromOffset_recordNum_le ctx (r : Reader) (w : World) :
  counter_has_room r ->
  RecordNum (md r) <= RecordNum (md (readFromOffset ctx r w).1.1).
Proof.
  intros Hroom. unfold readFromOffset.
  destruct (Seek (file r) (Offset (md r)) w) as [w1 [e|]];
    [cbn; lia|].
  pose proof (readPhases_recordNum_le ctx r w1 Hroom) as Hle.
  destruct (readPhases ctx r w1) as [[r1 w2] o]. cbn [fst snd] in *.
  destruct (needsUpdateFingerprint r1); [|exact Hle].
  destruct (updateFingerprint_preserves r1) as [Hrn _]. lia.
Qed.

Lemma readSelected_recordNum_le ctx (r : Reader) (w : World) :
  counter_has_room r ->
  RecordNum (md r) <= RecordNum (md (readSelected ctx r w).1.1).
Proof.
  intros Hroom.
  assert (Hraw : forall w0,
            RecordNum (md r)
            <= RecordNum (md (readFromOffset ctx (with_reader SrcFile r)
                                w0).1.1)).
  { intros w0.
    apply (readFromOffset_recordNum_le ctx (with_reader SrcFile r)).
    eapply counter_has_room_static; [| |exact Hroom];
      [constructor; reflexivity | reflexivity]. }
  assert (Hgz : forall w0,
            RecordNum (md r) <= RecordNum (md (readGzip ctx r w0).1.1)).
  { intros w0. unfold readGzip, createGzipReader.
    destruct (file r) as [f|]; [|cbn; lia].
    destruct (file_Stat f) as [currentEOF|e]; [|cbn; lia].
    destruct (gzip_NewReader f (Offset (md r)) currentEOF); [cbn; lia|].
    pose proof (readFromOffset_recordNum_le ctx
                  (with_reader (SrcGzip (Offset (md r)) currentEOF 0) r) w0)
      as Hle.
    destruct (readFromOffset ctx _ w0) as [[r1 w1] o].
    cbn [fst snd] in *. proj_simpl. apply Hle.
    eapply counter_has_room_static; [| |exact Hroom];
      [constructor; reflexivity | reflexivity]. }
  unfold readSelected.
  destruct (String.eqb (compression r) "gzip"); [apply Hgz|].
  destruct (String.eqb (compression r) "auto"); [|apply Hraw].
  destruct (String.eqb (FileType (md r)) gzipExtension);
    [apply Hgz | apply Hraw].
Qed.

Lemma ReadToEnd_recordNum_le ctx (r : Reader) (w : World) :
  counter_has_room r ->
  RecordNum (md r) <= RecordNum (md (ReadToEnd ctx r w).1.1).
Proof.
  intros Hroom. unfold ReadToEnd.
  destruct (acquireFSLock r);
    [|apply readSelected_recordNum_le; exact Hroom].
  destruct (tryLockFile r); cbn [negb]; [|cbn; lia].
  pose proof (readSelected_recordNum_le ctx r (with_locked true w) Hroom)
    as Hle.
  destruct (readSelected ctx r (with_locked true w)) as [[r1 w1] o].
  exact Hle.
Qed.

End RecordCounter.

(** ** The properties of the specification *)

Section Claims.
Context {E : Env}.


(** C2, as amended.  Every flush call of the content phase passes an offsets
    array of length [maxBatchSize + 1], whatever the size of the batch.  The
    batch is a run of consecutive decodable tokens; the array starts with the
    position before the batch (the Reader's offset at entry for the first
    batch, the end of the last token delivered before otherwise), followed by
    the position just after each token of the batch. *)
Theorem readContents_offsets_of_call ctx (r : Reader) (w : World) toks fin :
  1 <= maxBatchSize r < maxInt64 ->
  scanner_script (contentSplitFunc r) (reader r) (fpos w) = (toks, fin) ->
  exists cs,
    emitted (readContents ctx r w).1.2 = emitted w ++ cs
    /\ forall c, c ∈ cs ->
         Z.of_nat (length (call_offsets c)) = maxBatchSize r + 1
         /\ exists pre batch post,
              decoded (decoder r) (Offset (md r)) toks
              = pre ++ batch ++ post
              /\ call_tokens c = map fst batch
              /\ 1 <= Z.of_nat (length batch) <= maxBatchSize r
              /\ take (S (length batch)) (call_offsets c)
                 = last_pos (Offset (md r)) pre :: map snd batch.
Proof.
  intros Hm Hscript.
  destruct (readContents ctx r w) as [[r' w'] o] eqn:Hrun.
  destruct (readContents_run _ _ _ _ _ _ _ _ Hm Hscript Hrun)
    as (k & items & left & cs & Hcr).
  exists cs. split; [exact (cr_emitted _ _ _ _ _ _ _ _ _ _ _ _ _ _ _ Hcr)|].
  intros c Hin.
  destruct (Batches_segment _ _ _ _ _ _ _
              (cr_batches _ _ _ _ _ _ _ _ _ _ _ _ _ _ _ Hcr) Hin)
    as (pre & batch & post & Hitems & Hne & Hle & Htok & _ & Hlen & Htake
        & _).
  split; [exact Hlen|].
  exists pre, batch,
    (post ++ left
     ++ decoded (decoder r) (scan_end (Offset (md r)) (take k toks))
          (drop k toks)).
  repeat split; try assumption.
  - rewrite <- (take_drop k toks) at 1. rewrite decoded_app.
    pose proof (cr_seen _ _ _ _ _ _ _ _ _ _ _ _ _ _ _ Hcr) as Hseen.
    cbn [app] in Hseen. rewrite Hseen, Hitems, <- !app_assoc. reflexivity.
  - destruct batch; [contradiction | cbn; lia].
Qed.

(** C3.  In gzip mode, or in auto mode on a file of type [.gz], once the
    lock (if configured) is held and the decompressing reader has been
    created on a file whose size [Stat] reports as [currentEOF], the
    Reader's offset after [ReadToEnd] is [currentEOF], however the call ends
    (by a failed seek, in the header phase, after the content phase, or by a
    panic) and whatever was consumed. *)
Theorem ReadToEnd_gzip_offset ctx (r : Reader) (w : World) f currentEOF :
  compression r = "gzip"
  \/ (compression r = "auto" /\ FileType (md r) = gzipExtension) ->
  acquireFSLock r = false \/ tryLockFile r = true ->
  file r = Some f ->
  file_Stat f = inl currentEOF ->
  gzip_NewReader f (Offset (md r)) currentEOF = None ->
  Offset (md (ReadToEnd ctx r w).1.1) = currentEOF.
Proof.
  intros Hmode Hlock Hf Hstat Hgz.
  assert (Hgzip : forall w0,
            Offset (md (readGzip ctx r w0).1.1) = currentEOF).
  { intros w0. unfold readGzip, createGzipReader.
    rewrite Hf, Hstat, Hgz.
    destruct (readFromOffset ctx _ w0) as [[r' w'] o]. reflexivity. }
  assert (Hsel : forall w0,
            Offset (md (readSelected ctx r w0).1.1) = currentEOF).
  { intros w0. unfold readSelected.
    destruct Hmode as [Hc|[Hc Ht]]; rewrite Hc; cbn [String.eqb Ascii.eqb
      Bool.eqb]; [apply Hgzip|].
    rewrite Ht. cbn. apply Hgzip. }
  unfold ReadToEnd.
  destruct (acquireFSLock r) eqn:Hacq; [|apply Hsel].
  destruct Hlock as [Hno|Hyes]; [discriminate|]. rewrite Hyes. cbn [negb].
  specialize (Hsel (with_locked true w)).
  destruct (readSelected ctx r (with_locked true w)) as [[r' w'] o].
  exact Hsel.
Qed.

(** C4.  A fingerprint refresh on a Reader whose stored fingerprint is not
    empty either leaves the stored fingerprint as it is or replaces it by one
    that starts with it; a re-derived fingerprint that does not start with
    the stored one changes nothing in the Metadata.  (The refresh has no
    access to the log: the discard is silent.) *)
Theorem updateFingerprint_keeps_prefix (r : Reader) :
  0 < fingerprint_Len (Fingerprint_ (md r)) ->
  (Fingerprint_ (md (updateFingerprint r)) = Fingerprint_ (md r)
   \/ fingerprint_StartsWith (Fingerprint_ (md (updateFingerprint r)))
        (Fingerprint_ (md r)) = true)
  /\ (forall f fresh,
        file r = Some f ->
        fingerprint_NewFromFile f (fingerprintSize r)
          (negb (String.eqb (compression r) "")) = inl fresh ->
        fingerprint_StartsWith fresh (Fingerprint_ (md r)) = false ->
        md (updateFingerprint r) = md r).
Proof.
  intros Hlen. unfold updateFingerprint. proj_simpl.
  destruct (file r) as [f|] eqn:Hf;
    [|split; [left; reflexivity | intros ? ? Hf'; discriminate]].
  destruct (fingerprint_NewFromFile f (fingerprintSize r) _)
    as [fresh|e] eqn:Hnf;
    [|split; [left; reflexivity | intros; reflexivity]].
  destruct (0 <? fingerprint_Len (Fingerprint_ (md r))) eqn:Hpos; [|lia].
  cbn [andb].
  destruct (fingerprint_StartsWith fresh (Fingerprint_ (md r))) eqn:Hsw;
    cbn [negb]; split.
  - right. exact Hsw.
  - intros f' fresh' Hf' Hnew Hno. inversion Hf'; subst f'.
    rewrite Hnf in Hnew. inversion Hnew; subst fresh'. congruence.
  - left. reflexivity.
  - intros. reflexivity.
Qed.

(** C9.  [Validate] is true exactly when the handle is open, a fingerprint
    can be re-derived from the file, and that fingerprint starts with the
    stored one.  So it is false on a closed handle, and false once the
    leading bytes of the file no longer extend the stored fingerprint.
    [Validate] assigns to no field of the Reader or its Metadata: it is a
    function of the Reader to a boolean. *)
Theorem Validate_iff (r : Reader) :
  (file r = None -> Validate r = false)
  /\ (Validate r = true <->
      exists f fresh,
        file r = Some f
        /\ fingerprint_NewFromFile f (fingerprintSize r)
             (negb (String.eqb (compression r) "")) = inl fresh
        /\ fingerprint_StartsWith fresh (Fingerprint_ (md r)) = true)
  /\ (forall f fresh,
        file r = Some f ->
        fingerprint_NewFromFile f (fingerprintSize r)
          (negb (String.eqb (compression r) "")) = inl fresh ->
        fingerprint_StartsWith fresh (Fingerprint_ (md r)) = false ->
        Validate r = false).
Proof.
  unfold Validate. destruct (file r) as [f|] eqn:Hf.
  - destruct (fingerprint_NewFromFile f (fingerprintSize r) _)
      as [fresh|e] eqn:Hnf.
    + destruct (fingerprint_StartsWith fresh (Fingerprint_ (md r))) eqn:Hsw.
      * split; [discriminate|]. split.
        -- split; [intros _; exists f, fresh; auto | reflexivity].
        -- intros f' fresh' Hf' Hnew Hno. inversion Hf'; subst.
           rewrite Hnf in Hnew. inversion Hnew; subst. congruence.
      * split; [discriminate|]. split; [|intros; reflexivity].
        split; [discriminate|].
        intros (f' & fresh' & Hf' & Hnew & Hyes). inversion Hf'; subst.
        rewrite Hnf in Hnew. inversion Hnew; subst. congruence.
    + split; [discriminate|]. split; [|intros; reflexivity].
      split; [discriminate|].
      intros (f' & fresh' & Hf' & Hnew & _). inversion Hf'; subst.
      rewrite Hnf in Hnew. discriminate.
  - split; [reflexivity|]. split; [|intros; reflexivity].
    split; [discriminate|]. intros (f' & fresh' & Hf' & _). discriminate.
Qed.

(** The end of the header.  In any state of the header loop, when the next
    token decodes and the header pipeline answers it with the end-of-header
    signal, the header phase ends as follows: the offset is where it was
    before the token, the pipeline has been stopped once and is discarded,
    [HeaderFinalized] is true, and the raw handle is sought to the offset.
    If the seek succeeds the raw handle is at the offset and the phase
    reports that the file is not done, so the content phase follows.  What
    the content scanner then finds depends on the byte source it reads
    through. *)
Lemma readHeader_end_of_header ctx t rest fin pos (r : Reader) (w : World)
    h token h' a' e :
  ctx (polls w) = false ->
  headerReader r = Some h ->
  DecodeAsString (decoder r) (tok_bytes t) = (token, None) ->
  header_Process h token (FileAttributes (md r)) = (h', a', Some e) ->
  errors_Is e ErrEndOfHeader = true ->
  Offset (md (readHeader_from ctx (t :: rest) fin pos r w).1.1)
  = Offset (md r)
  /\ headerReader (readHeader_from ctx (t :: rest) fin pos r w).1.1 = None
  /\ HeaderFinalized (md (readHeader_from ctx (t :: rest) fin pos r w).1.1)
     = true
  /\ stops (readHeader_from ctx (t :: rest) fin pos r w).1.2 = S (stops w)
  /\ processed (readHeader_from ctx (t :: rest) fin pos r w).1.2
     = processed w ++ [token]
  /\ emitted (readHeader_from ctx (t :: rest) fin pos r w).1.2 = emitted w
  /\ match file r with
     | Some f =>
         match file_Seek f (Offset (md r)) with
         | None =>
             (readHeader_from ctx (t :: rest) fin pos r w).2 = Returned false
             /\ fpos (readHeader_from ctx (t :: rest) fin pos r w).1.2
                = Offset (md r)
         | Some _ =>
             (readHeader_from ctx (t :: rest) fin pos r w).2 = Returned true
         end
     | None =>
         (readHeader_from ctx (t :: rest) fin pos r w).2 = Returned true
     end.
Proof.
  intros Hctx Hh Hdecode Hproc Hsig.
  unfold readHeader_from. cbn [readHeader_loop]. unfold ctx_Done.
  rewrite Hctx.
  pose proof (scan_reads_reads_only (tok_reads t) r (with_poll w)) as Hro.
  destruct (scan_reads (tok_reads t) r (with_poll w)) as [r1 w1].
  cbn [fst snd] in Hro.
  destruct Hro as [Hst Hmd Hfile Hhr _ Hem Hpr Hstops _ _ _].
  cbn in Hem, Hpr, Hstops.
  rewrite (st_decoder _ _ Hst), Hdecode, Hhr, Hh, Hmd, Hproc, Hsig.
  unfold finalizeHeader. proj_simpl.
  unfold Seek. proj_simpl. rewrite Hfile, Hmd.
  destruct (file r) as [f|].
  - destruct (file_Seek f (Offset (md r)));
      destruct (header_Stop h'); proj_simpl;
      cbn [fst snd]; proj_simpl; rewrite ?Hem, ?Hpr, ?Hstops, ?Hmd;
      repeat split; reflexivity.
  - destruct (header_Stop h'); proj_simpl;
      cbn [fst snd]; proj_simpl; rewrite ?Hem, ?Hpr, ?Hstops, ?Hmd;
      repeat split; reflexivity.
Qed.

(** C6.  A fresh Reader ([RecordNum] 0) with [maxBatchSize] 2 whose scanner
    yields exactly five tokens, all decodable, and whose context is never
    cancelled, makes exactly three flush calls, of 2, 2 and 1 tokens in that
    order, and passes the record number 5 to the third. *)
Theorem readContents_five_tokens_by_two ctx (r : Reader) (w : World)
    toks fin :
  maxBatchSize r = 2 ->
  RecordNum (md r) = 0 ->
  scanner_script (contentSplitFunc r) (reader r) (fpos w) = (toks, fin) ->
  length toks = 5%nat ->
  (forall i, ctx i = false) ->
  Forall (fun t => snd (decoder r (tok_bytes t)) = None) toks ->
  exists c1 c2 c3,
    emitted (readContents ctx r w).1.2 = emitted w ++ [c1; c2; c3]
    /\ length (call_tokens c1) = 2%nat
    /\ length (call_tokens c2) = 2%nat
    /\ length (call_tokens c3) = 1%nat
    /\ call_recordNum c3 = 5.
Proof.
  intros Hm Hrec Hscript Hlen Hnever Hall.
  destruct (readContents ctx r w) as [[r' w'] o] eqn:Hrun.
  assert (Hm' : 1 <= maxBatchSize r < maxInt64)
    by (rewrite Hm; unfold maxInt64; lia).
  destruct (readContents_run _ _ _ _ _ _ _ _ Hm' Hscript Hrun)
    as (k & items & left & cs & Hcr).
  destruct Hcr as [_ Hemit _ Hseen Hbat _ _ _ Hunc _ _].
  destruct (Hunc Hnever) as [-> ->].
  rewrite take_ge, app_nil_r in Hseen by lia. cbn [app] in Hseen.
  destruct (decoded_all_ok _ (Offset (md r)) _ Hall) as [Hdlen _].
  rewrite Hseen, Hlen in Hdlen. rewrite Hm, Hrec in Hbat.
  destruct (Batches_full _ _ _ _ _ _ Hbat ltac:(lia))
    as (c1 & cs1 & b1 & rest1 & -> & -> & Hb1 & Ht1 & Hr1 & Hbat1).
  rewrite length_app in Hdlen.
  destruct (Batches_full _ _ _ _ _ _ Hbat1 ltac:(lia))
    as (c2 & cs2 & b2 & rest2 & -> & -> & Hb2 & Ht2 & Hr2 & Hbat2).
  rewrite length_app in Hdlen.
  destruct (Batches_single _ _ _ _ _ _ Hbat2 ltac:(lia))
    as (c3 & -> & Ht3 & Hr3).
  exists c1, c2, c3. cbn [fst snd].
  split; [exact Hemit|].
  assert (Hl1 : length b1 = 2%nat) by lia.
  assert (Hl2 : length b2 = 2%nat) by lia.
  assert (Hl3 : length rest2 = 1%nat) by lia.
  repeat split; try lia.
  rewrite Hr3, Hr2, Hr1, Hl1, Hl2, Hl3. vm_compute. reflexivity.
Qed.


(** C8, as amended.  Short of an overflow of the 64-bit counter (the
    counter has room for the tokens a scanner can yield), no operation of
    the Reader decreases [RecordNum]: not [ReadToEnd], however it ends, nor
    the fingerprint refresh, nor [delete].  The content phase advances the
    counter once for every token that decodes, when the token joins the
    batch and before the batch is flushed: the phase scans the first [k]
    tokens, [k] being the poll at which the context is first found done (or
    the number of tokens, if it never is before the scanner stops), and the
    counter ends at its value at entry plus the number of those [k] tokens
    that decode; these are, in order, the tokens passed to the sink followed
    by the tokens still pending in the batch.  Each flush call is passed the
    count as of after its batch, and the counter is never behind the number
    of tokens passed to the sink.  When the phase runs until the scanner
    stops (the context is never cancelled) nothing is left pending: every
    counted token has been passed to the sink, whether or not the sink
    accepted it. *)
Theorem recordNum_counts_batched_tokens ctx (r : Reader) (w : World) :
  1 <= maxBatchSize r < maxInt64 ->
  - 2 ^ 63 <= RecordNum (md r) ->
  (forall src z,
     RecordNum (md r)
     + Z.of_nat (length (scanner_script (contentSplitFunc r) src z).1)
     <= maxInt64) ->
  (exists k cs pending,
     (k <= length (scanner_script (contentSplitFunc r) (reader r)
                     (fpos w)).1)%nat
     /\ (forall j, (j < k)%nat -> ctx (polls w + j)%nat = false)
     /\ ((k < length (scanner_script (contentSplitFunc r) (reader r)
                        (fpos w)).1)%nat ->
         ctx (polls w + k)%nat = true)
     /\ emitted (readContents ctx r w).1.2 = emitted w ++ cs
     /\ map fst (decoded (decoder r) (Offset (md r))
                   (take k (scanner_script (contentSplitFunc r) (reader r)
                              (fpos w)).1))
        = concat (map call_tokens cs) ++ pending
     /\ RecordNum (md (readContents ctx r w).1.1)
        = RecordNum (md r)
          + Z.of_nat
              (length (decoded (decoder r) (Offset (md r))
                         (take k (scanner_script (contentSplitFunc r)
                                    (reader r) (fpos w)).1)))
     /\ RecordNum (md r) <= RecordNum (md (readContents ctx r w).1.1)
     /\ RecordNum (md r)
          + Z.of_nat (length (concat (map call_tokens cs)))
        <= RecordNum (md (readContents ctx r w).1.1)
     /\ (forall i c, cs !! i = Some c ->
           call_recordNum c
           = RecordNum (md r)
             + Z.of_nat
                 (length (concat (map call_tokens (take (S i) cs)))))
     /\ ((forall i, ctx i = false) ->
         k = length (scanner_script (contentSplitFunc r) (reader r)
                       (fpos w)).1
         /\ pending = []
         /\ RecordNum (md (readContents ctx r w).1.1)
            = RecordNum (md r)
              + Z.of_nat (length (concat (map call_tokens cs)))))
  /\ RecordNum (md r) <= RecordNum (md (ReadToEnd ctx r w).1.1)
  /\ RecordNum (md (updateFingerprint r)) = RecordNum (md r)
  /\ RecordNum (md (delete r w).1) = RecordNum (md r).
Proof.
  intros Hm Hlo Hhi. split; [|split; [|split]].
  - pose proof (Hhi (reader r) (fpos w)) as Hhere.
    destruct (scanner_script (contentSplitFunc r) (reader r) (fpos w))
      as [toks fin] eqn:Hscript.
    cbn [fst] in *.
    destruct (readContents_counts_decoded ctx r w toks fin Hm Hlo Hhere
                Hscript)
      as (k & cs & pending & Hk & Hbefore & Hat & Hem & Hseq & Hrn & Hcalls
          & Hunc).
    assert (Hlen : (length (concat (map call_tokens cs)) + length pending
                    = length (decoded (decoder r) (Offset (md r))
                                (take k toks)))%nat).
    { rewrite <- (length_map fst (decoded _ _ _)), Hseq, length_app.
      reflexivity. }
    exists k, cs, pending.
    split; [exact Hk|]. split; [exact Hbefore|]. split; [exact Hat|].
    split; [exact Hem|]. split; [exact Hseq|]. split; [exact Hrn|].
    split; [lia|]. split; [lia|]. split; [exact Hcalls|].
    intros Hnever. destruct (Hunc Hnever) as [Hall Hnone].
    split; [exact Hall|]. split; [exact Hnone|].
    rewrite Hnone in Hlen. cbn [length] in Hlen. lia.
  - apply ReadToEnd_recordNum_le. unfold counter_has_room. auto.
  - apply updateFingerprint_preserves.
  - rewrite (do_md _ _ _ _ (delete_delete_only r w)). reflexivity.
Qed.

(** C10.  With [maxBatchSize] 0 the array of token bodies has length zero,
    a store at index 0 is out of range, and the content phase panics on the
    first token it scans; a negative [maxBatchSize] panics at the
    allocation already; with [maxBatchSize] at least 1 (and room for one
    more entry in the offsets array) it never panics. *)
Theorem readContents_needs_positive_batch ctx (r : Reader) (w : World)
    toks fin :
  scanner_script (contentSplitFunc r) (reader r) (fpos w) = (toks, fin) ->
  (maxBatchSize r = 0 -> toks <> [] -> ctx (polls w) = false ->
   make_slice ([] : bytes) (maxBatchSize r) = Some []
   /\ (forall body, slice_set ([] : list bytes) 0 body = None)
   /\ (readContents ctx r w).2 = Panicked "index out of range"
   /\ emitted (readContents ctx r w).1.2 = emitted w)
  /\ (maxBatchSize r < 0 ->
      (readContents ctx r w).2 = Panicked "makeslice: len out of range")
  /\ (1 <= maxBatchSize r < maxInt64 ->
      (readContents ctx r w).2 = Returned tt).
Proof.
  intros Hscript. split; [|split].
  - intros Hm Hne Hctx. split; [rewrite Hm; reflexivity|].
    split; [reflexivity|].
    unfold readContents, scanner_New. rewrite Hscript, Hm.
    cbn [s_tokens s_final s_pos].
    rewrite make_slice_Some by lia.
    rewrite wrap64_small by lia.
    rewrite make_slice_Some by lia.
    change (Z.to_nat (0 + 1)) with 1%nat. change (Z.to_nat 0) with 0%nat.
    cbn [replicate]. rewrite slice_set_Some by (cbn [length]; lia).
    destruct toks as [|t ts]; [contradiction|].
    cbn [readContents_loop Z.to_nat replicate]. unfold ctx_Done.
    rewrite Hctx.
    pose proof (scan_reads_reads_only (tok_reads t) r (with_poll w)) as Hro.
    destruct (scan_reads (tok_reads t) r (with_poll w)) as [r1 w1].
    cbn [fst snd] in Hro. destruct Hro as [_ _ _ _ _ Hem _ _ _ _ _].
    destruct (decoder r1 (tok_bytes t)) as [b err].
    cbn. split; [reflexivity | exact Hem].
  - intros Hm. unfold readContents, make_slice.
    destruct (maxBatchSize r <? 0) eqn:Hneg; [reflexivity | lia].
  - intros Hm.
    destruct (readContents ctx r w) as [[r' w'] o] eqn:Hrun.
    destruct (readContents_run _ _ _ _ _ _ _ _ Hm Hscript Hrun)
      as (k & items & left & cs & Hcr).
    exact (cr_returned _ _ _ _ _ _ _ _ _ _ _ _ _ _ _ Hcr).
Qed.

End Claims.

(** ** The properties on concrete runs *)



Lemma readContents_offsets_of_call_witness :
  (1 <= maxBatchSize Example.r_one < maxInt64)
  /\ exists cs,
       emitted (readContents Example.never Example.r_one
                  Example.world0).1.2
       = emitted (@Example.world0 Example.env_one) ++ cs
       /\ forall c, c ∈ cs ->
            Z.of_nat (length (call_offsets c))
            = maxBatchSize Example.r_one + 1
            /\ exists pre batch post,
                 decoded (decoder Example.r_one)
                   (Offset (md Example.r_one)) (fst Example.one_line)
                 = pre ++ batch ++ post
                 /\ call_tokens c = map fst batch
                 /\ 1 <= Z.of_nat (length batch)
                    <= maxBatchSize Example.r_one
                 /\ take (S (length batch)) (call_offsets c)
                    = last_pos (Offset (md Example.r_one)) pre
                      :: map snd batch.
Proof.
  assert (Hm : 1 <= maxBatchSize Example.r_one < maxInt64)
    by (unfold maxInt64; cbn; lia).
  split; [exact Hm|].
  exact (readContents_offsets_of_call Example.never Example.r_one
           Example.world0 (fst Example.one_line) (snd Example.one_line)
           Hm eq_refl).
Defined.

(** C2, as stated, fails: the only flush passes one token and an offsets
    array of three entries. *)
Lemma partial_batch_offsets_length :
  ~ (forall c,
       c ∈ emitted (readContents Example.never Example.r_one
                      Example.world0).1.2 ->
       length (call_offsets c) = S (length (call_tokens c))).
Proof.
  intros H.
  assert (Hem : exists c,
            emitted (readContents Example.never Example.r_one
                       Example.world0).1.2 = [c]
            /\ length (call_offsets c) = 3%nat
            /\ length (call_tokens c) = 1%nat)
    by (vm_compute; eexists; repeat split).
  destruct Hem as (c & Hem & Hoffs & Htoks).
  specialize (H c). rewrite Hem in H.
  specialize (H (list_elem_of_here _ _)). lia.
Qed.

Lemma ReadToEnd_gzip_offset_witness :
  (compression Example.r_gzip = "gzip"
   \/ (compression Example.r_gzip = "auto"
       /\ FileType (md Example.r_gzip) = gzipExtension))
  /\ (acquireFSLock Example.r_gzip = false
      \/ tryLockFile Example.r_gzip = true)
  /\ scan_end 0 (fst Example.five_lines) = 12
  /\ Offset (md (ReadToEnd Example.never Example.r_gzip
                   Example.world0).1.1) = 4.
Proof.
  assert (Hmode : compression Example.r_gzip = "gzip"
                  \/ (compression Example.r_gzip = "auto"
                      /\ FileType (md Example.r_gzip) = gzipExtension))
    by (left; reflexivity).
  assert (Hlock : acquireFSLock Example.r_gzip = false
                  \/ tryLockFile Example.r_gzip = true)
    by (left; reflexivity).
  split; [exact Hmode|]. split; [exact Hlock|]. split; [reflexivity|].
  exact (ReadToEnd_gzip_offset Example.never Example.r_gzip Example.world0
           Example.gz_contents 4 Hmode Hlock eq_refl eq_refl eq_refl).
Defined.

Lemma updateFingerprint_keeps_prefix_witness :
  0 < fingerprint_Len (Fingerprint_ (md Example.r_truncated))
  /\ md (updateFingerprint Example.r_truncated) = md Example.r_truncated.
Proof.
  assert (Hlen : 0 < fingerprint_Len (Fingerprint_ (md Example.r_truncated)))
    by (cbn; lia).
  split; [exact Hlen|].
  exact (proj2 (updateFingerprint_keeps_prefix Example.r_truncated Hlen)
           [Byte.x62; Byte.x63] [Byte.x62; Byte.x63]
           eq_refl eq_refl eq_refl).
Defined.

Lemma Validate_iff_witness : Validate Example.r_truncated = false.
Proof.
  exact (proj2 (proj2 (Validate_iff Example.r_truncated))
           [Byte.x62; Byte.x63] [Byte.x62; Byte.x63]
           eq_refl eq_refl eq_refl).
Defined.

Lemma readHeader_end_of_header_witness :
  Example.never (polls (@Example.world0 Example.env_hdr)) = false
  /\ headerReader Example.r_hdr = Some tt
  /\ DecodeAsString (decoder Example.r_hdr)
       (tok_bytes (Example.line Example.b_a)) = ("a"%string, None)
  /\ errors_Is ErrEndOfHeader ErrEndOfHeader = true
  /\ Offset (md Example.end_of_header_run.1.1) = Offset (md Example.r_hdr)
  /\ headerReader Example.end_of_header_run.1.1 = None
  /\ HeaderFinalized (md Example.end_of_header_run.1.1) = true
  /\ stops Example.end_of_header_run.1.2 = 1%nat
  /\ processed Example.end_of_header_run.1.2 = ["a"%string]
  /\ emitted Example.end_of_header_run.1.2 = []
  /\ Example.end_of_header_run.2 = Returned false
  /\ fpos Example.end_of_header_run.1.2 = 0.
Proof.
  pose proof (@readHeader_end_of_header Example.env_hdr Example.never
                (Example.line Example.b_a) [] Example.eof 0 Example.r_hdr
                Example.world0 tt "a"%string tt ∅ ErrEndOfHeader
                eq_refl eq_refl eq_refl eq_refl eq_refl) as H.
  destruct H as (H1 & H2 & H3 & H4 & H5 & H6 & H8).
  repeat split; try reflexivity; try assumption; apply H8.
Defined.

(** C5.  What the claim promises is lost on a gzip file.
    [Example.r_gzip_header] reads a gzip file of four bytes whose stream
    holds the header line [#a] and the line [a].  The header pipeline takes
    [#a] and signals the end of the header at [a]; the header phase leaves
    the offset before [a], stops and drops the pipeline, sets
    [HeaderFinalized] and seeks the raw handle to the offset.  But the
    scanners read through the gzip reader, which a seek of the raw handle
    does not rewind: the header scanner has read the stream to its end, the
    content scanner finds nothing left, [a] is never passed to the sink,
    and the cycle ends with the offset at the end of the file, so that no
    later cycle reads it either.  Over the raw handle
    ([Example.r_plain_header], the same two lines uncompressed) the seek
    does what it is there for, and [a] is delivered. *)
Theorem gzip_header_drops_first_content_token :
  (compression Example.r_gzip_header = "gzip"
   /\ @file_Stat (Example.env_lines Example.gz_contents
                    Example.header_and_line) Example.gz_contents = inl 4
   /\ processed (ReadToEnd Example.never Example.r_gzip_header
                   Example.world0).1.2 = ["#a"; "a"]%string
   /\ headerReader (ReadToEnd Example.never Example.r_gzip_header
                      Example.world0).1.1 = None
   /\ HeaderFinalized (md (ReadToEnd Example.never Example.r_gzip_header
                             Example.world0).1.1) = true
   /\ fpos (ReadToEnd Example.never Example.r_gzip_header
              Example.world0).1.2 = 3
   /\ reader (ReadToEnd Example.never Example.r_gzip_header
                Example.world0).1.1 = SrcGzip 0 4 5
   /\ emitted (ReadToEnd Example.never Example.r_gzip_header
                 Example.world0).1.2 = []
   /\ logs (ReadToEnd Example.never Example.r_gzip_header
              Example.world0).1.2 = []
   /\ Offset (md (ReadToEnd Example.never Example.r_gzip_header
                    Example.world0).1.1) = 4)
  /\ (compression Example.r_plain_header = EmptyString
      /\ processed (ReadToEnd Example.never Example.r_plain_header
                      Example.world0).1.2 = ["#a"; "a"]%string
      /\ map call_tokens
           (emitted (ReadToEnd Example.never Example.r_plain_header
                       Example.world0).1.2) = [[Example.b_a]]
      /\ Offset (md (ReadToEnd Example.never Example.r_plain_header
                       Example.world0).1.1) = 5).
Proof.
  split; repeat split; vm_compute; reflexivity.
Qed.

Lemma readContents_five_tokens_by_two_witness :
  maxBatchSize Example.r_five = 2
  /\ RecordNum (md Example.r_five) = 0
  /\ length (fst Example.five_lines) = 5%nat
  /\ exists c1 c2 c3,
       emitted (readContents Example.never Example.r_five
                  Example.world0).1.2
       = emitted (@Example.world0 Example.env_five) ++ [c1; c2; c3]
       /\ length (call_tokens c1) = 2%nat
       /\ length (call_tokens c2) = 2%nat
       /\ length (call_tokens c3) = 1%nat
       /\ call_recordNum c3 = 5.
Proof.
  split; [reflexivity|]. split; [reflexivity|]. split; [reflexivity|].
  apply (readContents_five_tokens_by_two Example.never Example.r_five
           Example.world0 (fst Example.five_lines) (snd Example.five_lines));
    try reflexivity.
  repeat constructor.
Defined.


Lemma recordNum_counts_batched_tokens_witness :
  (1 <= maxBatchSize Example.r_five < maxInt64)
  /\ - 2 ^ 63 <= RecordNum (md Example.r_five)
  /\ (forall src z,
        RecordNum (md Example.r_five)
        + Z.of_nat (length (@scanner_script Example.env_five
                              (contentSplitFunc Example.r_five) src z).1)
        <= maxInt64)
  /\ (exists cs,
        emitted (readContents Example.never Example.r_five
                   Example.world0).1.2
        = emitted (@Example.world0 Example.env_five) ++ cs
        /\ RecordNum (md (readContents Example.never Example.r_five
                            Example.world0).1.1)
           = RecordNum (md Example.r_five)
             + Z.of_nat (length (concat (map call_tokens cs))))
  /\ RecordNum (md Example.r_five)
     <= RecordNum (md (ReadToEnd Example.never Example.r_five
                         Example.world0).1.1).
Proof.
  assert (Hm : 1 <= maxBatchSize Example.r_five < maxInt64)
    by (unfold maxInt64; cbn; lia).
  assert (Hlo : - 2 ^ 63 <= RecordNum (md Example.r_five)) by (cbn; lia).
  assert (Hhi : forall src z,
            RecordNum (md Example.r_five)
            + Z.of_nat (length (@scanner_script Example.env_five
                                  (contentSplitFunc Example.r_five)
                                  src z).1)
            <= maxInt64)
    by (intros src z; unfold maxInt64; cbn; lia).
  split; [exact Hm|]. split; [exact Hlo|]. split; [exact Hhi|].
  destruct (recordNum_counts_batched_tokens Example.never Example.r_five
              Example.world0 Hm Hlo Hhi)
    as ((k & cs & pending & _ & _ & _ & Hem & _ & _ & _ & _ & _ & Hall)
        & Hle & _).
  split; [|exact Hle].
  exists cs. split; [exact Hem|].
  apply (Hall (fun _ => eq_refl)).
Defined.

(** C8, as stated, fails: the context is cancelled after the first token of a
    batch of two was counted, and that token was never passed to the sink. *)
Lemma cancelled_batch_is_counted :
  ~ (RecordNum (md Example.cancelled_run.1.1)
     = RecordNum (md Example.r_five)
       + Z.of_nat (length (concat (map call_tokens
                                     (emitted Example.cancelled_run.1.2))))).
Proof.
  vm_compute. discriminate.
Qed.

Lemma readContents_needs_positive_batch_witness :
  maxBatchSize Example.r_zero = 0
  /\ fst Example.one_line <> []
  /\ (readContents Example.never Example.r_zero Example.world0).2
     = Panicked "index out of range"
  /\ emitted (readContents Example.never Example.r_zero Example.world0).1.2
     = [].
Proof.
  assert (Hne : fst Example.one_line <> []) by discriminate.
  split; [reflexivity|]. split; [exact Hne|].
  exact (proj2 (proj2 (proj1
           (readContents_needs_positive_batch Example.never Example.r_zero
              Example.world0 (fst Example.one_line) (snd Example.one_line)
              eq_refl)
           eq_refl Hne eq_refl))).
Defined.

(** ** Further properties of the Reader *)

(** *** Relations that every step of a cycle respects

    A relation between the state before and the state after that holds
    across each elementary step of a cycle holds across the loops and across
    the whole of [ReadToEnd] short of the lock. *)

Section Closure.
Context {E : Env}.
Variable R : Reader -> World -> Reader -> World -> Prop.
Hypothesis R_refl : forall r w, R r w r w.
Hypothesis R_trans :
  forall r1 w1 r2 w2 r3 w3, R r1 w1 r2 w2 -> R r2 w2 r3 w3 -> R r1 w1 r3 w3.
Hypothesis R_Read : forall res r w, R r w (Read res r w).1 (Read res r w).2.
Hypothesis R_log : forall lvl msg r w, R r w r (log lvl msg w).
Hypothesis R_poll : forall r w, R r w r (with_poll w).
Hypothesis R_setOffset : forall z r w, R r w (setOffset z r) w.
Hypothesis R_setRecordNum : forall z r w, R r w (setRecordNum z r) w.
Hypothesis R_emitted : forall c r w, R r w r (with_emitted c w).
Hypothesis R_delete :
  forall r w, deleteAtEOF r = true -> R r w (delete r w).1 (delete r w).2.
Hypothesis R_process :
  forall h h' attrs tok r w,
    headerReader r = Some h ->
    R r w (with_headerReader (Some h') (setFileAttributes attrs r))
      (with_processed tok w).
Hypothesis R_finalize :
  forall h r w,
    headerReader r = Some h ->
    R r w (setHeaderFinalized true (with_headerReader None r)) (with_stop w).
Hypothesis R_fpos : forall z r w, R r w r (with_fpos z w).
Hypothesis R_reader : forall src r w, R r w (with_reader src r) w.
Hypothesis R_updateFingerprint :
  forall r w, needsUpdateFingerprint r = true -> R r w (updateFingerprint r) w.

Lemma scan_reads_closed rs r w :
  R r w (scan_reads rs r w).1 (scan_reads rs r w).2.
Proof.
  unfold scan_reads. revert r w.
  induction rs as [|res rs IH]; intros r w; [apply R_refl|].
  cbn [fold_left fst snd].
  eapply R_trans; [apply (R_Read res r w)|].
  specialize (IH (Read res r w).1 (Read res r w).2).
  destruct (Read res r w) as [r1 w1]. exact IH.
Qed.

Lemma emit_batch_closed batch tokenOffsets r0 r w :
  R r w r (emit_batch batch tokenOffsets r0 w).
Proof.
  unfold emit_batch. destruct (emitFunc r0 _ _).
  - eapply R_trans; [apply R_emitted | apply R_log].
  - apply R_emitted.
Qed.

Ltac peel :=
  repeat first
    [ apply R_refl
    | assumption
    | (eapply R_trans; [|apply R_setOffset])
    | (eapply R_trans; [|apply R_setRecordNum])
    | (eapply R_trans; [|apply R_log])
    | (eapply R_trans; [|apply emit_batch_closed])
    | (eapply R_trans; [|apply R_poll])
    | (eapply R_trans; [|apply R_fpos])
    | (eapply R_trans; [|apply R_reader])
    | (eapply R_trans; [|eassumption]) ].

Lemma readContents_loop_closed toks :
  forall ctx fin pos tb to n r w,
    R r w (readContents_loop ctx toks fin pos tb to n r w).1.1
      (readContents_loop ctx toks fin pos tb to n r w).1.2.
Proof.
  induction toks as [|t ts IH]; intros ctx fin pos tb to n r w;
    cbn [readContents_loop]; unfold ctx_Done;
    destruct (ctx (polls w)); cbn [fst snd]; try solve [peel].
  - pose proof (scan_reads_closed (fin_reads fin) r (with_poll w)) as Hsr.
    destruct (scan_reads (fin_reads fin) r (with_poll w)) as [r1 w1].
    cbn [fst snd] in Hsr.
    assert (Hfin : R r w
              (match fin_err fin with
               | Some _ => (r1, log ErrorLevel "failed during scan" w1)
               | None => if deleteAtEOF r1 then delete r1 w1 else (r1, w1)
               end).1
              (match fin_err fin with
               | Some _ => (r1, log ErrorLevel "failed during scan" w1)
               | None => if deleteAtEOF r1 then delete r1 w1 else (r1, w1)
               end).2).
    { destruct (fin_err fin); cbn [fst snd]; [peel|].
      destruct (deleteAtEOF r1) eqn:Hdel; cbn [fst snd]; [|peel].
      pose proof (R_delete r1 w1 Hdel). peel. }
    destruct (match fin_err fin with
              | Some _ => _
              | None => _
              end) as [r2 w2].
    cbn [fst snd] in Hfin.
    destruct (0 <? n); [|exact Hfin].
    destruct (slice_to tb n); cbn [fst snd]; [|exact Hfin].
    peel.
  - pose proof (scan_reads_closed (tok_reads t) r (with_poll w)) as Hsr.
    destruct (scan_reads (tok_reads t) r (with_poll w)) as [r1 w1].
    cbn [fst snd] in Hsr.
    destruct (decoder r1 (tok_bytes t)) as [b err].
    destruct (slice_set tb n b); cbn [fst snd]; [|peel].
    destruct (slice_set to (wrap64 (n + 1)) (pos + tok_advance t));
      cbn [fst snd]; [|peel].
    destruct err as [e|].
    + eapply R_trans; [|apply IH]. peel.
    + proj_simpl.
      destruct ((0 <? maxBatchSize r1)
                && (maxBatchSize r1 <=? wrap64 (n + 1))).
      * destruct (slice_to l (wrap64 (n + 1))); cbn [fst snd]; [|peel].
        destruct (slice_set l0 0 (pos + tok_advance t)); cbn [fst snd].
        -- eapply R_trans; [|apply IH]. peel.
        -- peel.
      * eapply R_trans; [|apply IH]. peel.
Qed.

Lemma readContents_closed ctx r w :
  R r w (readContents ctx r w).1.1 (readContents ctx r w).1.2.
Proof.
  unfold readContents.
  destruct (make_slice ([] : bytes) (maxBatchSize r)); [|apply R_refl].
  destruct (make_slice 0 (wrap64 (maxBatchSize r + 1))); [|apply R_refl].
  destruct (slice_set l0 0 (Offset (md r))); [|apply R_refl].
  apply readContents_loop_closed.
Qed.

Lemma readHeader_loop_closed toks :
  forall ctx fin pos r w,
    R r w (readHeader_loop ctx toks fin pos r w).1.1
      (readHeader_loop ctx toks fin pos r w).1.2.
Proof.
  induction toks as [|t ts IH]; intros ctx fin pos r w;
    cbn [readHeader_loop]; unfold ctx_Done;
    destruct (ctx (polls w)); cbn [fst snd]; try solve [peel].
  - pose proof (scan_reads_closed (fin_reads fin) r (with_poll w)) as Hsr.
    destruct (scan_reads (fin_reads fin) r (with_poll w)) as [r1 w1].
    cbn [fst snd] in Hsr.
    destruct (fin_err fin); cbn [fst snd]; [peel|].
    destruct (deleteAtEOF r1) eqn:Hdel; cbn [fst snd]; [|peel].
    pose proof (R_delete r1 (log DebugLevel "end of file reached" w1) Hdel)
      as Hd.
    destruct (delete r1 _) as [r2 w2]. cbn [fst snd] in *. peel.
  - pose proof (scan_reads_closed (tok_reads t) r (with_poll w)) as Hsr.
    destruct (scan_reads (tok_reads t) r (with_poll w)) as [r1 w1].
    cbn [fst snd] in Hsr.
    destruct (DecodeAsString (decoder r1) (tok_bytes t)) as [token err].
    destruct err as [e|]; [eapply R_trans; [|apply IH]; peel|].
    destruct (headerReader r1) as [h|] eqn:Hh; cbn [fst snd]; [|peel].
    destruct (header_Process h token (FileAttributes (md r1)))
      as [[h' attrs] perr].
    pose proof (R_process h h' attrs token r1 w1 Hh) as Hp.
    destruct perr as [e|]; [destruct (errors_Is e ErrEndOfHeader)|];
      cbn [fst snd]; try solve [peel];
      (eapply R_trans; [|apply IH]); peel.
Qed.

Lemma finalizeHeader_closed r w :
  R r w (finalizeHeader r w).1.1 (finalizeHeader r w).1.2.
Proof.
  unfold finalizeHeader, Seek.
  destruct (headerReader r) as [h|] eqn:Hh; cbn [fst snd]; [|peel].
  pose proof (R_finalize h r w Hh) as Hf.
  proj_simpl.
  destruct (file r) as [f|]; [destruct (file_Seek f (Offset (md r)))|];
    destruct (header_Stop h); cbn [fst snd]; peel.
Qed.

Lemma readHeader_closed ctx r w :
  R r w (readHeader ctx r w).1.1 (readHeader ctx r w).1.2.
Proof.
  unfold readHeader, readHeader_from.
  set (s := scanner_New r w (headerSplitFunc r)).
  pose proof (readHeader_loop_closed (s_tokens s) ctx (s_final s) (s_pos s)
                r w) as Hloop.
  destruct (readHeader_loop ctx (s_tokens s) (s_final s) (s_pos s) r w)
    as [[r1 w1] [b| |msg]]; cbn [fst snd] in *; try exact Hloop.
  eapply R_trans; [exact Hloop | apply finalizeHeader_closed].
Qed.

Lemma readPhases_closed ctx r w :
  R r w (readPhases ctx r w).1.1 (readPhases ctx r w).1.2.
Proof.
  unfold readPhases.
  destruct (headerReader r); [|apply readContents_closed].
  pose proof (readHeader_closed ctx r w) as Hh.
  destruct (readHeader ctx r w) as [[r1 w1] [[|]|msg]]; cbn [fst snd] in *;
    try exact Hh.
  eapply R_trans; [exact Hh | apply readContents_closed].
Qed.

Lemma readFromOffset_closed ctx r w :
  R r w (readFromOffset ctx r w).1.1 (readFromOffset ctx r w).1.2.
Proof.
  unfold readFromOffset, Seek.
  assert (Hgo : forall w0,
            R r w r w0 ->
            R r w
              (let '(r1, w1, o) := readPhases ctx r w0 in
               (if needsUpdateFingerprint r1 then updateFingerprint r1
                else r1, w1, o)).1.1
              (let '(r1, w1, o) := readPhases ctx r w0 in
               (if needsUpdateFingerprint r1 then updateFingerprint r1
                else r1, w1, o)).1.2).
  { intros w0 H0. pose proof (readPhases_closed ctx r w0) as Hp.
    destruct (readPhases ctx r w0) as [[r1 w1] o]. cbn [fst snd] in *.
    destruct (needsUpdateFingerprint r1) eqn:Hn; [|peel].
    pose proof (R_updateFingerprint r1 w1 Hn). peel. }
  destruct (file r) as [f|]; [|cbn [fst snd]; peel].
  destruct (file_Seek f (Offset (md r))); [cbn [fst snd]; peel|].
  apply Hgo. peel.
Qed.

Lemma readGzip_closed ctx r w :
  R r w (readGzip ctx r w).1.1 (readGzip ctx r w).1.2.
Proof.
  unfold readGzip, createGzipReader.
  destruct (file r) as [f|]; [|cbn [fst snd]; peel].
  destruct (file_Stat f) as [currentEOF|e]; [|cbn [fst snd]; peel].
  destruct (gzip_NewReader f (Offset (md r)) currentEOF) as [e|].
  - destruct (negb (errors_Is e io_EOF)); cbn [fst snd]; peel.
  - pose proof (readFromOffset_closed ctx
                  (with_reader (SrcGzip (Offset (md r)) currentEOF 0) r) w)
      as Hr.
    destruct (readFromOffset ctx _ w) as [[r1 w1] o]. cbn [fst snd] in *.
    peel.
Qed.

Lemma readSelected_closed ctx r w :
  R r w (readSelected ctx r w).1.1 (readSelected ctx r w).1.2.
Proof.
  assert (Hraw : R r w (readFromOffset ctx (with_reader SrcFile r) w).1.1
                   (readFromOffset ctx (with_reader SrcFile r) w).1.2).
  { eapply R_trans; [apply (R_reader SrcFile)|].
    apply readFromOffset_closed. }
  unfold readSelected.
  destruct (String.eqb (compression r) "gzip"); [apply readGzip_closed|].
  destruct (String.eqb (compression r) "auto"); [|exact Hraw].
  destruct (String.eqb (FileType (md r)) gzipExtension);
    [apply readGzip_closed | exact Hraw].
Qed.

End Closure.

(** *** What a cycle keeps *)

Section Kept.
Context {E : Env}.

Lemma readSelected_keeps_config ctx (r : Reader) (w : World) :
  keeps_config r w (readSelected ctx r w).1.1 (readSelected ctx r w).1.2.
Proof.
  apply readSelected_closed; unfold keeps_config;
    try solve [intros; proj_simpl; repeat split; reflexivity].
  - intros r1 w1 r2 w2 r3 w3 (H1 & H2) (H1' & H2').
    split; [eapply same_static_trans; eassumption|].
    congruence.
  - intros res r0 w0. destruct (Read_reads_only res r0 w0) as [Hst Hmd].
    rewrite Hmd. auto.
  - intros r0 w0 _. destruct (delete_delete_only r0 w0) as [Hst Hmd].
    rewrite Hmd. auto.
  - intros r0 w0 _. unfold updateFingerprint. proj_simpl.
    destruct (file r0) as [f|];
      [|repeat split; reflexivity].
    destruct (fingerprint_NewFromFile f (fingerprintSize r0) _);
      [|repeat split; reflexivity].
    destruct (_ && _); repeat split; reflexivity.
Qed.

Ltac unfold_refresh r0 :=
  unfold updateFingerprint; proj_simpl;
  let Hfile := fresh "Hfile" in
  destruct (file r0) as [?f|] eqn:Hfile;
  [destruct (fingerprint_NewFromFile _ _ _); [destruct (_ && _)|]|];
  proj_simpl; rewrite ?Hfile.

Lemma readSelected_keeps_lock ctx (r : Reader) (w : World) :
  keeps_lock r w (readSelected ctx r w).1.1 (readSelected ctx r w).1.2.
Proof.
  apply readSelected_closed; unfold keeps_lock;
    try solve [intros; proj_simpl; reflexivity].
  - intros; congruence.
  - intros res r0 w0. apply (ro_locked _ _ _ _ (Read_reads_only res r0 w0)).
  - intros r0 w0 _. apply (do_locked _ _ _ _ (delete_delete_only r0 w0)).
Qed.

Lemma readSelected_keeps_full_fingerprint ctx (r : Reader) (w : World) :
  keeps_full_fingerprint r w (readSelected ctx r w).1.1
    (readSelected ctx r w).1.2.
Proof.
  apply readSelected_closed; unfold keeps_full_fingerprint;
    try solve [intros; proj_simpl; split; auto].
  - intros r1 w1 r2 w2 r3 w3 [H1 H2] [H1' H2']. split; [congruence|].
    intros Hn Hl. destruct (H2 Hn Hl) as [Hn2 Hf2].
    destruct (H2' Hn2) as [Hn3 Hf3]; [rewrite H1, Hf2; exact Hl|].
    split; congruence.
  - intros [n err] r0 w0. unfold Read, source_advance.
    split.
    + destruct (reader r0); proj_simpl;
        destruct ((n =? 0) || _); proj_simpl; try reflexivity;
        destruct (negb _ && _); reflexivity.
    + intros Hn Hl.
      destruct (reader r0); proj_simpl;
        destruct ((n =? 0) || _); proj_simpl; auto;
        rewrite Hn; cbn [negb andb];
        (destruct (_ <? _) eqn:Hlt; [lia|]); proj_simpl; auto.
  - intros r0 w0 _.
    destruct (delete_delete_only r0 w0) as [Hst Hmd _ _ Hneeds].
    rewrite Hmd, Hneeds, (st_fingerprintSize _ _ Hst). auto.
  - intros r0 w0 Hn. split; [|intros Hn'; congruence].
    destruct (updateFingerprint_preserves r0) as (_ & _ & Hst).
    apply (st_fingerprintSize _ _ Hst).
Qed.

Lemma readSelected_keeps_header_state ctx (r : Reader) (w : World) :
  keeps_header_state r w (readSelected ctx r w).1.1
    (readSelected ctx r w).1.2.
Proof.
  apply readSelected_closed; unfold keeps_header_state;
    try solve [intros; proj_simpl; repeat split; auto];
    try solve [intros; congruence].
  - intros r1 w1 r2 w2 r3 w3 H1 H2 Hn.
    destruct (H1 Hn) as (Ha & Hb & Hc & Hd & He).
    destruct (H2 Ha) as (Ha' & Hb' & Hc' & Hd' & He').
    repeat split; congruence.
  - intros res r0 w0 Hn.
    destruct (Read_reads_only res r0 w0)
      as [_ Hmd _ Hhr _ _ Hpr Hstops _ _ _].
    rewrite Hmd, Hhr, Hpr, Hstops. auto.
  - intros r0 w0 _ Hn. unfold delete, close.
    destruct (file r0) as [f|]; [destruct (file_Close f)|]; proj_simpl;
      rewrite Hn; proj_simpl; destruct (os_Remove (fileName r0));
      proj_simpl; repeat split; auto.
  - intros r0 w0 _ Hn. unfold_refresh r0; repeat split; auto.
Qed.

Lemma readSelected_keeps_latch ctx (r : Reader) (w : World) :
  keeps_latch r w (readSelected ctx r w).1.1 (readSelected ctx r w).1.2.
Proof.
  apply readSelected_closed; unfold keeps_latch;
    try solve [intros; proj_simpl; auto].
  - intros res r0 w0 H.
    rewrite (ro_md _ _ _ _ (Read_reads_only res r0 w0)). exact H.
  - intros r0 w0 _ H.
    rewrite (do_md _ _ _ _ (delete_delete_only r0 w0)). exact H.
  - intros r0 w0 _ H. unfold_refresh r0; exact H.
Qed.

Lemma readSelected_keeps_file ctx (r : Reader) (w : World) :
  keeps_file r w (readSelected ctx r w).1.1 (readSelected ctx r w).1.2.
Proof.
  apply readSelected_closed; unfold keeps_file;
    try solve [intros; proj_simpl; repeat split; auto];
    try solve [intros; congruence].
  - intros r1 w1 r2 w2 r3 w3 H1 H2 Hd.
    destruct (H1 Hd) as (Ha & Hb & Hc).
    destruct (H2 Ha) as (Ha' & Hb' & Hc').
    repeat split; congruence.
  - intros res r0 w0 Hd.
    destruct (Read_reads_only res r0 w0)
      as [Hst _ Hfile _ _ _ _ _ Hrem _ _].
    rewrite (st_deleteAtEOF _ _ Hst), Hfile, Hrem. auto.
  - intros r0 w0 _ Hd. unfold_refresh r0; repeat split; auto.
Qed.

Lemma readContents_keeps_headerReader ctx (r : Reader) (w : World) :
  keeps_headerReader r w (readContents ctx r w).1.1
    (readContents ctx r w).1.2.
Proof.
  apply readContents_closed; unfold keeps_headerReader;
    try solve [intros; proj_simpl; reflexivity].
  - intros; congruence.
  - intros res r0 w0.
    apply (ro_headerReader _ _ _ _ (Read_reads_only res r0 w0)).
  - intros r0 w0 _.
    apply (do_headerReader _ _ _ _ (delete_delete_only r0 w0)).
Qed.

End Kept.

(** *** The cycle as a whole *)

Section Cycle.
Context {E : Env}.

(** X1.  [ReadToEnd] changes nothing of the Reader's configuration (file
    name, fingerprint size, split functions, decoder, sink, delete-at-EOF,
    compression, lock flag, batch size) and leaves the [FileType] as it is:
    the file name it answers to and its answers to [NameEquals] are the same
    before and after. *)
Theorem ReadToEnd_keeps_configuration ctx (r : Reader) (w : World) :
  same_static r (ReadToEnd ctx r w).1.1
  /\ FileType (md (ReadToEnd ctx r w).1.1) = FileType (md r)
  /\ GetFileName (ReadToEnd ctx r w).1.1 = GetFileName r
  /\ forall other,
       NameEquals (ReadToEnd ctx r w).1.1 other = NameEquals r other.
Proof.
  assert (H : keeps_config r w (ReadToEnd ctx r w).1.1
                (ReadToEnd ctx r w).1.2).
  { unfold ReadToEnd.
    destruct (acquireFSLock r); [|apply readSelected_keeps_config].
    destruct (tryLockFile r); cbn [negb fst snd];
      [|repeat split; reflexivity].
    pose proof (readSelected_keeps_config ctx r (with_locked true w)) as Hs.
    destruct (readSelected ctx r (with_locked true w)) as [[r1 w1] o].
    exact Hs. }
  destruct H as (Hst & Hft).
  split; [exact Hst|]. split; [exact Hft|].
  unfold GetFileName, NameEquals.
  rewrite (st_fileName _ _ Hst). split; [reflexivity|].
  intros other. reflexivity.
Qed.

(** X2.  The file lock.  Without [acquireFSLock] a cycle never touches the
    lock.  With it, a cycle that cannot take the lock does nothing at all,
    and a cycle that takes it has released it when it ends, however it
    ends. *)
Theorem ReadToEnd_lock ctx (r : Reader) (w : World) :
  (acquireFSLock r = false ->
   locked (ReadToEnd ctx r w).1.2 = locked w)
  /\ (acquireFSLock r = true -> tryLockFile r = false ->
      ReadToEnd ctx r w = (r, w, Returned tt))
  /\ (acquireFSLock r = true -> tryLockFile r = true ->
      locked (ReadToEnd ctx r w).1.2 = false).
Proof.
  unfold ReadToEnd. repeat split.
  - intros ->. apply readSelected_keeps_lock.
  - intros -> ->. reflexivity.
  - intros -> ->. cbn [negb].
    destruct (readSelected ctx r (with_locked true w)) as [[r1 w1] o].
    reflexivity.
Qed.

(** X3.  A fingerprint that has reached the configured size is never
    refreshed: with no refresh pending at entry, [ReadToEnd] leaves the
    fingerprint as it is and no refresh pending, whatever is read. *)
Theorem ReadToEnd_full_fingerprint ctx (r : Reader) (w : World) :
  needsUpdateFingerprint r = false ->
  fingerprintSize r <= fingerprint_Len (Fingerprint_ (md r)) ->
  Fingerprint_ (md (ReadToEnd ctx r w).1.1) = Fingerprint_ (md r)
  /\ needsUpdateFingerprint (ReadToEnd ctx r w).1.1 = false.
Proof.
  intros Hn Hl. unfold ReadToEnd.
  assert (Hs : forall w0,
            Fingerprint_ (md (readSelected ctx r w0).1.1)
            = Fingerprint_ (md r)
            /\ needsUpdateFingerprint (readSelected ctx r w0).1.1 = false).
  { intros w0.
    destruct (readSelected_keeps_full_fingerprint ctx r w0) as [_ H].
    destruct (H Hn Hl). auto. }
  destruct (acquireFSLock r); [|apply Hs].
  destruct (tryLockFile r); cbn [negb fst snd]; [|auto].
  specialize (Hs (with_locked true w)).
  destruct (readSelected ctx r (with_locked true w)) as [[r1 w1] o].
  exact Hs.
Qed.

(** X4.  Once the header reader is gone, the header phase never runs again:
    [ReadToEnd] hands no token to a header pipeline, stops none, and leaves
    the file attributes and [HeaderFinalized] as they are. *)
Theorem ReadToEnd_without_header ctx (r : Reader) (w : World) :
  headerReader r = None ->
  headerReader (ReadToEnd ctx r w).1.1 = None
  /\ FileAttributes (md (ReadToEnd ctx r w).1.1) = FileAttributes (md r)
  /\ HeaderFinalized (md (ReadToEnd ctx r w).1.1) = HeaderFinalized (md r)
  /\ processed (ReadToEnd ctx r w).1.2 = processed w
  /\ stops (ReadToEnd ctx r w).1.2 = stops w.
Proof.
  intros Hn. unfold ReadToEnd.
  destruct (acquireFSLock r);
    [|apply (readSelected_keeps_header_state ctx r w Hn)].
  destruct (tryLockFile r); cbn [negb fst snd]; [|auto].
  pose proof (readSelected_keeps_header_state ctx r (with_locked true w) Hn)
    as Hs.
  destruct (readSelected ctx r (with_locked true w)) as [[r1 w1] o].
  exact Hs.
Qed.

(** X5.  [HeaderFinalized] is a latch: once true, it is true after every
    cycle. *)
Theorem ReadToEnd_header_finalized_stays ctx (r : Reader) (w : World) :
  HeaderFinalized (md r) = true ->
  HeaderFinalized (md (ReadToEnd ctx r w).1.1) = true.
Proof.
  intros Hf. unfold ReadToEnd.
  destruct (acquireFSLock r); [|apply (readSelected_keeps_latch ctx r w Hf)].
  destruct (tryLockFile r); cbn [negb fst snd]; [|exact Hf].
  pose proof (readSelected_keeps_latch ctx r (with_locked true w) Hf) as Hs.
  destruct (readSelected ctx r (with_locked true w)) as [[r1 w1] o].
  exact Hs.
Qed.

(** X6.  Without [deleteAtEOF] a cycle never closes the handle and never
    removes a file. *)
Theorem ReadToEnd_keeps_file ctx (r : Reader) (w : World) :
  deleteAtEOF r = false ->
  file (ReadToEnd ctx r w).1.1 = file r
  /\ removed (ReadToEnd ctx r w).1.2 = removed w.
Proof.
  intros Hd. unfold ReadToEnd.
  assert (Hs : forall w0,
            file (readSelected ctx r w0).1.1 = file r
            /\ removed (readSelected ctx r w0).1.2 = removed w0).
  { intros w0. destruct (readSelected_keeps_file ctx r w0 Hd) as (_ & H).
    exact H. }
  destruct (acquireFSLock r); [|apply Hs].
  destruct (tryLockFile r); cbn [negb fst snd]; [|auto].
  specialize (Hs (with_locked true w)).
  destruct (readSelected ctx r (with_locked true w)) as [[r1 w1] o].
  exact Hs.
Qed.

(** X7.  On a Reader whose handle is closed, [ReadToEnd] returns without
    reading: in every mode it leaves the Metadata as it is, calls neither
    the sink nor the header pipeline, and does not panic. *)
Theorem ReadToEnd_closed_handle ctx (r : Reader) (w : World) :
  file r = None ->
  md (ReadToEnd ctx r w).1.1 = md r
  /\ emitted (ReadToEnd ctx r w).1.2 = emitted w
  /\ processed (ReadToEnd ctx r w).1.2 = processed w
  /\ (ReadToEnd ctx r w).2 = Returned tt.
Proof.
  intros Hf. unfold ReadToEnd, tryLockFile. rewrite Hf.
  destruct (acquireFSLock r); cbn [negb]; [auto|].
  unfold readSelected, readGzip, createGzipReader, readFromOffset, Seek.
  proj_simpl. rewrite Hf.
  destruct (String.eqb (compression r) "gzip"); [auto|].
  destruct (String.eqb (compression r) "auto"); [|auto].
  destruct (String.eqb (FileType (md r)) gzipExtension); auto.
Qed.

End Cycle.

(** *** From the phases to the cycle

    What holds of the two phases for every Reader and world, and survives the
    steps [ReadToEnd] wraps around them, holds of [ReadToEnd]. *)

Section LiftOffset.
Context {E : Env}.
Variable ctx : Context.
Variable I : Reader -> Prop.
Variable P : Reader -> World -> Reader -> World -> Outcome unit -> Prop.
Hypothesis P_phases :
  forall r w,
    I r ->
    P r w (readPhases ctx r w).1.1 (readPhases ctx r w).1.2
      (readPhases ctx r w).2.
Hypothesis P_stay : forall r w, I r -> P r w r w (Returned tt).
Hypothesis P_in_fpos :
  forall z r w r' w' o, P r (with_fpos z w) r' w' o -> P r w r' w' o.
Hypothesis P_out_log :
  forall lvl msg r w r' w' o, P r w r' w' o -> P r w r' (log lvl msg w') o.
Hypothesis P_out_refresh :
  forall r w r' w' o,
    P r w r' w' o -> needsUpdateFingerprint r' = true ->
    P r w (updateFingerprint r') w' o.

Lemma readFromOffset_lifts r w :
  I r ->
  P r w (readFromOffset ctx r w).1.1 (readFromOffset ctx r w).1.2
    (readFromOffset ctx r w).2.
Proof.
  intros Hi. unfold readFromOffset, Seek.
  destruct (file r) as [f|];
    [|cbn [fst snd]; apply P_out_log, P_stay, Hi].
  destruct (file_Seek f (Offset (md r)));
    [cbn [fst snd]; apply P_out_log, P_stay, Hi|].
  pose proof (P_phases r (with_fpos (Offset (md r)) w) Hi) as Hp.
  destruct (readPhases ctx r (with_fpos (Offset (md r)) w))
    as [[r1 w1] o]. cbn [fst snd] in *.
  apply (P_in_fpos (Offset (md r))).
  destruct (needsUpdateFingerprint r1) eqn:Hn; [|exact Hp].
  apply P_out_refresh; assumption.
Qed.

End LiftOffset.

Section LiftCycle.
Context {E : Env}.
Variable ctx : Context.
Variable I : Reader -> Prop.
Variable P : Reader -> World -> Reader -> World -> Outcome unit -> Prop.
Hypothesis I_reader : forall src r, I r -> I (with_reader src r).
Hypothesis P_from :
  forall r w,
    I r ->
    P r w (readFromOffset ctx r w).1.1 (readFromOffset ctx r w).1.2
      (readFromOffset ctx r w).2.
Hypothesis P_stay : forall r w, I r -> P r w r w (Returned tt).
Hypothesis P_in_reader :
  forall src r w r' w' o, P (with_reader src r) w r' w' o -> P r w r' w' o.
Hypothesis P_in_locked :
  forall r w r' w' o, P r (with_locked true w) r' w' o -> P r w r' w' o.
Hypothesis P_out_log :
  forall lvl msg r w r' w' o, P r w r' w' o -> P r w r' (log lvl msg w') o.
Hypothesis P_out_unlock :
  forall r w r' w' o, P r w r' w' o -> P r w r' (unlockFile w') o.
Hypothesis P_out_offset :
  forall z r w r' w' o, P r w r' w' o -> P r w (setOffset z r') w' o.

Lemma readRaw_lifts r w :
  I r ->
  P r w (readFromOffset ctx (with_reader SrcFile r) w).1.1
    (readFromOffset ctx (with_reader SrcFile r) w).1.2
    (readFromOffset ctx (with_reader SrcFile r) w).2.
Proof.
  intros Hi. apply (P_in_reader SrcFile), P_from, I_reader, Hi.
Qed.

Lemma readGzip_lifts r w :
  I r ->
  P r w (readGzip ctx r w).1.1 (readGzip ctx r w).1.2 (readGzip ctx r w).2.
Proof.
  intros Hi. unfold readGzip, createGzipReader.
  destruct (file r) as [f|];
    [|cbn [fst snd]; apply P_out_log, P_stay, Hi].
  destruct (file_Stat f) as [currentEOF|e];
    [|cbn [fst snd]; apply P_out_log, P_stay, Hi].
  destruct (gzip_NewReader f (Offset (md r)) currentEOF) as [e|].
  - destruct (negb (errors_Is e io_EOF)); cbn [fst snd];
      [apply P_out_log|]; apply P_stay, Hi.
  - pose proof (P_from (with_reader (SrcGzip (Offset (md r)) currentEOF 0) r)
                  w (I_reader _ _ Hi)) as Hp.
    destruct (readFromOffset ctx _ w) as [[r1 w1] o]. cbn [fst snd] in *.
    apply P_out_offset. eapply P_in_reader. exact Hp.
Qed.

Lemma with_lock_lifts (f : Reader -> World -> Reader * World * Outcome unit)
    r w :
  I r ->
  (forall w0, P r w0 (f r w0).1.1 (f r w0).1.2 (f r w0).2) ->
  P r w
    (if acquireFSLock r then
       if negb (tryLockFile r) then (r, w, Returned tt)
       else let '(r1, w1, o) := f r (with_locked true w) in
            (r1, unlockFile w1, o)
     else f r w).1.1
    (if acquireFSLock r then
       if negb (tryLockFile r) then (r, w, Returned tt)
       else let '(r1, w1, o) := f r (with_locked true w) in
            (r1, unlockFile w1, o)
     else f r w).1.2
    (if acquireFSLock r then
       if negb (tryLockFile r) then (r, w, Returned tt)
       else let '(r1, w1, o) := f r (with_locked true w) in
            (r1, unlockFile w1, o)
     else f r w).2.
Proof.
  intros Hi Hf.
  destruct (acquireFSLock r); [|apply Hf].
  destruct (tryLockFile r); cbn [negb fst snd]; [|apply P_stay, Hi].
  specialize (Hf (with_locked true w)).
  destruct (f r (with_locked true w)) as [[r1 w1] o]. cbn [fst snd] in *.
  apply P_out_unlock, P_in_locked. exact Hf.
Qed.

Lemma ReadToEnd_lifts r w :
  I r ->
  P r w (ReadToEnd ctx r w).1.1 (ReadToEnd ctx r w).1.2 (ReadToEnd ctx r w).2.
Proof.
  intros Hi. apply (with_lock_lifts (readSelected ctx) r w Hi).
  intros w0. unfold readSelected.
  destruct (String.eqb (compression r) "gzip");
    [apply readGzip_lifts, Hi|].
  destruct (String.eqb (compression r) "auto");
    [|apply readRaw_lifts, Hi].
  destruct (String.eqb (FileType (md r)) gzipExtension);
    [apply readGzip_lifts, Hi | apply readRaw_lifts, Hi].
Qed.

Lemma ReadToEnd_raw_lifts r w :
  I r -> reads_raw r = true ->
  P r w (ReadToEnd ctx r w).1.1 (ReadToEnd ctx r w).1.2 (ReadToEnd ctx r w).2.
Proof.
  intros Hi Hraw. apply (with_lock_lifts (readSelected ctx) r w Hi).
  intros w0. unfold readSelected. unfold reads_raw in Hraw.
  destruct (String.eqb (compression r) "gzip"); [discriminate|].
  destruct (String.eqb (compression r) "auto");
    [|apply readRaw_lifts, Hi].
  destruct (String.eqb (FileType (md r)) gzipExtension);
    [discriminate | apply readRaw_lifts, Hi].
Qed.

End LiftCycle.

(** *** The phases, one by one *)

Section Phases.
Context {E : Env}.

Lemma updateFingerprint_md (r : Reader) :
  Offset (md (updateFingerprint r)) = Offset (md r)
  /\ RecordNum (md (updateFingerprint r)) = RecordNum (md r)
  /\ FileAttributes (md (updateFingerprint r)) = FileAttributes (md r)
  /\ HeaderFinalized (md (updateFingerprint r)) = HeaderFinalized (md r)
  /\ headerReader (updateFingerprint r) = headerReader r
  /\ file (updateFingerprint r) = file r
  /\ needsUpdateFingerprint (updateFingerprint r) = false.
Proof.
  unfold updateFingerprint. proj_simpl.
  destruct (file r) as [f|] eqn:Hf; [|repeat split; auto].
  destruct (fingerprint_NewFromFile f (fingerprintSize r) _);
    [|repeat split; auto].
  destruct (_ && _); repeat split; auto.
Qed.

(** The header phase: it calls no sink and counts no record, it returns,
    and when it reports that the file is not done it has finalized the header
    and left the handle at the offset. *)
Lemma readHeader_outcome ctx (r : Reader) (w : World) h :
  headerReader r = Some h ->
  emitted (readHeader ctx r w).1.2 = emitted w
  /\ RecordNum (md (readHeader ctx r w).1.1) = RecordNum (md r)
  /\ same_static r (readHeader ctx r w).1.1
  /\ exists b,
       (readHeader ctx r w).2 = Returned b
       /\ (b = false ->
           headerReader (readHeader ctx r w).1.1 = None
           /\ HeaderFinalized (md (readHeader ctx r w).1.1) = true
           /\ fpos (readHeader ctx r w).1.2
              = Offset (md (readHeader ctx r w).1.1)).
Proof.
  intros Hh. unfold readHeader, scanner_New.
  destruct (scanner_script (headerSplitFunc r) (reader r) (fpos w))
    as [toks fin].
  cbn [s_tokens s_final s_pos]. unfold readHeader_from.
  destruct (readHeader_loop ctx toks fin (Offset (md r)) r w)
    as [[r1 w1] ex] eqn:Hloop.
  destruct (readHeader_loop_run _ _ _ _ _ _ _ _ _ _ Hh eq_refl Hloop)
    as (k & Hhr).
  destruct Hhr as [_ _ (h1 & Hh1 & _) Hrn _ Hem Hst Hex].
  destruct ex as [b| |msg]; cbn [fst snd]; [| |contradiction].
  - destruct Hex as (-> & _).
    split; [exact Hem|]. split; [exact Hrn|]. split; [exact Hst|].
    exists true. split; [reflexivity | discriminate].
  - unfold finalizeHeader, Seek. rewrite Hh1. proj_simpl.
    destruct (file r1) as [f|]; [destruct (file_Seek f (Offset (md r1)))|];
      destruct (header_Stop h1); cbn [fst snd]; proj_simpl;
      (split; [exact Hem|]); (split; [exact Hrn|]);
      (split; [destruct Hst; constructor; assumption|]);
      first [ exists true; split; [reflexivity | discriminate]
            | exists false; split; [reflexivity|];
              intros _; repeat split; reflexivity ].
Qed.

Lemma readContents_returns ctx (r : Reader) (w : World) :
  1 <= maxBatchSize r < maxInt64 ->
  (readContents ctx r w).2 = Returned tt.
Proof.
  intros Hm.
  destruct (scanner_script (contentSplitFunc r) (reader r) (fpos w))
    as [toks fin] eqn:Hscript.
  destruct (readContents ctx r w) as [[r' w'] o] eqn:Hrun.
  destruct (readContents_run _ _ _ _ _ _ _ _ Hm Hscript Hrun)
    as (k & items & left & cs & Hcr).
  exact (cr_returned _ _ _ _ _ _ _ _ _ _ _ _ _ _ _ Hcr).
Qed.

(** A context that is cancelled at the first poll ends either phase before
    it scans. *)
Lemma readPhases_cancelled ctx (r : Reader) (w : World) :
  ctx (polls w) = true ->
  md (readPhases ctx r w).1.1 = md r
  /\ emitted (readPhases ctx r w).1.2 = emitted w
  /\ processed (readPhases ctx r w).1.2 = processed w.
Proof.
  intros Hc.
  assert (Hcont : md (readContents ctx r w).1.1 = md r
                  /\ emitted (readContents ctx r w).1.2 = emitted w
                  /\ processed (readContents ctx r w).1.2 = processed w).
  { unfold readContents.
    destruct (make_slice ([] : bytes) (maxBatchSize r)); [|auto].
    destruct (make_slice 0 (wrap64 (maxBatchSize r + 1))); [|auto].
    destruct (slice_set l0 0 (Offset (md r))); [|auto].
    destruct (s_tokens (scanner_New r w (contentSplitFunc r)));
      cbn [readContents_loop]; unfold ctx_Done; rewrite Hc; auto. }
  unfold readPhases. destruct (headerReader r); [|exact Hcont].
  unfold readHeader, readHeader_from.
  destruct (s_tokens (scanner_New r w (headerSplitFunc r)));
    cbn [readHeader_loop]; unfold ctx_Done; rewrite Hc; auto.
Qed.

End Phases.

(** Closing the premises of the lifting lemmas. *)
Ltac lift_auto :=
  intros; proj_simpl;
  first [ solve [auto] | solve [repeat split; auto] | solve [intuition auto] ].

Section CycleFacts.
Context {E : Env}.

(** X8.  The header phase hands nothing to the sink and counts no record,
    and it does not panic.  When it reports that the file is not done, the
    header is finalized: the header reader is gone, [HeaderFinalized] is
    true and the handle is at the offset. *)
Theorem readHeader_is_silent ctx (r : Reader) (w : World) h :
  headerReader r = Some h ->
  emitted (readHeader ctx r w).1.2 = emitted w
  /\ RecordNum (md (readHeader ctx r w).1.1) = RecordNum (md r)
  /\ exists b,
       (readHeader ctx r w).2 = Returned b
       /\ (b = false ->
           headerReader (readHeader ctx r w).1.1 = None
           /\ HeaderFinalized (md (readHeader ctx r w).1.1) = true
           /\ fpos (readHeader ctx r w).1.2
              = Offset (md (readHeader ctx r w).1.1)).
Proof.
  intros Hh.
  destruct (readHeader_outcome ctx r w h Hh) as (Hem & Hrn & _ & Hb).
  auto.
Qed.

(** X9.  No record is emitted before the header is finalized: if a Reader
    with a header reader still has one after [ReadToEnd], that cycle has
    passed nothing to the sink and counted no record. *)
Theorem ReadToEnd_header_pending ctx (r : Reader) (w : World) h :
  headerReader r = Some h ->
  headerReader (ReadToEnd ctx r w).1.1 <> None ->
  emitted (ReadToEnd ctx r w).1.2 = emitted w
  /\ RecordNum (md (ReadToEnd ctx r w).1.1) = RecordNum (md r).
Proof.
  intros Hh Hafter.
  assert (Hne : headerReader r <> None) by congruence.
  revert Hne Hafter.
  apply (ReadToEnd_lifts ctx (fun _ => True)
           (fun r w r' w' _ =>
              headerReader r <> None -> headerReader r' <> None ->
              emitted w' = emitted w
              /\ RecordNum (md r') = RecordNum (md r)));
    try solve [lift_auto].
  clear. intros r w _.
  apply (readFromOffset_lifts ctx (fun _ => True)
           (fun r w r' w' _ =>
              headerReader r <> None -> headerReader r' <> None ->
              emitted w' = emitted w
              /\ RecordNum (md r') = RecordNum (md r)));
    try solve [lift_auto].
  - clear. intros r w _ Hne Hafter. unfold readPhases in *.
    destruct (headerReader r) as [h|] eqn:Hh; [|congruence].
    destruct (readHeader_outcome ctx r w h Hh)
      as (Hem & Hrn & _ & b & Hb & Hfin).
    destruct (readHeader ctx r w) as [[r1 w1] o]. cbn [fst snd] in *.
    subst o. destruct b; [auto|].
    destruct (Hfin eq_refl) as (Hnone & _).
    pose proof (readContents_keeps_headerReader ctx r1 w1) as Hk.
    unfold keeps_headerReader in Hk. congruence.
  - intros r0 w0 r' w' o H Hn Hne Hafter.
    destruct (updateFingerprint_md r') as (_ & Hrn & _ & _ & Hhr & _).
    rewrite Hrn. rewrite Hhr in Hafter. auto.
Qed.

(** X10.  Every cycle that gets to read clears the pending refresh of the
    fingerprint: if a refresh is still pending after [ReadToEnd], it was
    pending before, and the cycle has emitted and counted nothing. *)
Theorem ReadToEnd_refresh_pending ctx (r : Reader) (w : World) :
  needsUpdateFingerprint (ReadToEnd ctx r w).1.1 = true ->
  needsUpdateFingerprint r = true
  /\ emitted (ReadToEnd ctx r w).1.2 = emitted w
  /\ RecordNum (md (ReadToEnd ctx r w).1.1) = RecordNum (md r).
Proof.
  apply (ReadToEnd_lifts ctx (fun _ => True)
           (fun r w r' w' _ =>
              needsUpdateFingerprint r' = true ->
              needsUpdateFingerprint r = true
              /\ emitted w' = emitted w
              /\ RecordNum (md r') = RecordNum (md r)));
    try solve [lift_auto].
  clear. intros r w _. unfold readFromOffset, Seek.
  destruct (file r) as [f|]; [|cbn [fst snd]; proj_simpl; auto].
  destruct (file_Seek f (Offset (md r)));
    [cbn [fst snd]; proj_simpl; auto|].
  destruct (readPhases ctx r _) as [[r1 w1] o]. cbn [fst snd].
  destruct (needsUpdateFingerprint r1) eqn:Hn; [|congruence].
  destruct (updateFingerprint_md r1) as (_ & _ & _ & _ & _ & _ & Hfalse).
  congruence.
Qed.

(** X11.  When the context is already cancelled at the first poll, a cycle
    over the raw handle passes nothing to the sink or the header pipeline
    and leaves the offset, the record number, the attributes and
    [HeaderFinalized] as they are. *)
Theorem ReadToEnd_cancelled_at_entry ctx (r : Reader) (w : World) :
  reads_raw r = true ->
  ctx (polls w) = true ->
  Offset (md (ReadToEnd ctx r w).1.1) = Offset (md r)
  /\ RecordNum (md (ReadToEnd ctx r w).1.1) = RecordNum (md r)
  /\ FileAttributes (md (ReadToEnd ctx r w).1.1) = FileAttributes (md r)
  /\ HeaderFinalized (md (ReadToEnd ctx r w).1.1) = HeaderFinalized (md r)
  /\ emitted (ReadToEnd ctx r w).1.2 = emitted w
  /\ processed (ReadToEnd ctx r w).1.2 = processed w.
Proof.
  intros Hraw. revert Hraw.
  apply (ReadToEnd_raw_lifts ctx (fun _ => True)
           (fun r w r' w' _ =>
              ctx (polls w) = true ->
              Offset (md r') = Offset (md r)
              /\ RecordNum (md r') = RecordNum (md r)
              /\ FileAttributes (md r') = FileAttributes (md r)
              /\ HeaderFinalized (md r') = HeaderFinalized (md r)
              /\ emitted w' = emitted w
              /\ processed w' = processed w));
    try solve [lift_auto].
  clear. intros r w _.
  apply (readFromOffset_lifts ctx (fun _ => True)
           (fun r w r' w' _ =>
              ctx (polls w) = true ->
              Offset (md r') = Offset (md r)
              /\ RecordNum (md r') = RecordNum (md r)
              /\ FileAttributes (md r') = FileAttributes (md r)
              /\ HeaderFinalized (md r') = HeaderFinalized (md r)
              /\ emitted w' = emitted w
              /\ processed w' = processed w));
    try solve [lift_auto].
  - clear. intros r w _ Hc.
    destruct (readPhases_cancelled ctx r w Hc) as (Hmd & Hem & Hpr).
    rewrite Hmd. repeat split; assumption.
  - intros r0 w0 r' w' o H Hn Hc.
    destruct (updateFingerprint_md r') as (H1 & H2 & H3 & H4 & _).
    rewrite H1, H2, H3, H4. exact (H Hc).
Qed.

(** X12.  With a batch size of at least one (and below the largest
    int), no slice of a cycle is made with a negative length or indexed out
    of range: [ReadToEnd] runs to its end without such a panic, in any mode
    and whatever the file, the sink, the header pipeline and the context
    do. *)
Theorem ReadToEnd_returns ctx (r : Reader) (w : World) :
  1 <= maxBatchSize r < maxInt64 ->
  (ReadToEnd ctx r w).2 = Returned tt.
Proof.
  apply (ReadToEnd_lifts ctx (fun r => 1 <= maxBatchSize r < maxInt64)
           (fun _ _ _ _ o => o = Returned tt));
    try solve [lift_auto].
  clear. intros r w Hm.
  apply (readFromOffset_lifts ctx (fun r => 1 <= maxBatchSize r < maxInt64)
           (fun _ _ _ _ o => o = Returned tt));
    try solve [lift_auto].
  clear. intros r w Hm. unfold readPhases.
  destruct (headerReader r) as [h|] eqn:Hh;
    [|apply readContents_returns, Hm].
  destruct (readHeader_outcome ctx r w h Hh)
    as (_ & _ & Hst & b & Hb & _).
  destruct (readHeader ctx r w) as [[r1 w1] o]. cbn [fst snd] in *.
  subst o. destruct b; [reflexivity|].
  apply readContents_returns. rewrite (st_maxBatchSize _ _ Hst). exact Hm.
Qed.

End CycleFacts.

(** *** The offset and the end of the file *)

Section OffsetAndEnd.
Context {E : Env}.

Lemma scan_end_ge pos toks :
  Forall (fun t => 0 <= tok_advance t) toks -> pos <= scan_end pos toks.
Proof.
  intros Hall. revert pos.
  induction Hall as [|t ts Ht _ IH]; intros pos; [cbn; lia|].
  change (scan_end pos (t :: ts)) with (scan_end (pos + tok_advance t) ts).
  specialize (IH (pos + tok_advance t)). lia.
Qed.

(** The content loop moves the offset forward only, and never beyond what
    the scanner has returned. *)
Lemma readContents_loop_offset toks :
  forall ctx fin pos tb to n (r : Reader) (w : World),
    Forall (fun t => 0 <= tok_advance t) toks ->
    Offset (md r) <= pos ->
    Offset (md r)
    <= Offset (md (readContents_loop ctx toks fin pos tb to n r w).1.1)
    <= scan_end pos toks.
Proof.
  induction toks as [|t ts IH]; intros ctx fin pos tb to n r w Hall Hle;
    cbn [readContents_loop]; unfold ctx_Done;
    (destruct (ctx (polls w)); cbn [fst snd];
     [pose proof (scan_end_ge pos _ Hall); cbn [scan_end fold_left] in *;
      lia|]).
  - destruct (scan_reads_reads_only (fin_reads fin) r (with_poll w))
      as [_ Hmd _ _ _ _ _ _ _ _ _].
    destruct (scan_reads (fin_reads fin) r (with_poll w)) as [r1 w1].
    cbn [fst snd] in Hmd.
    assert (Hfin : md (match fin_err fin with
                       | Some _ => (r1, log ErrorLevel "failed during scan" w1)
                       | None =>
                           if deleteAtEOF r1 then delete r1 w1 else (r1, w1)
                       end).1 = md r).
    { destruct (fin_err fin); cbn [fst]; [exact Hmd|].
      destruct (deleteAtEOF r1); cbn [fst]; [|exact Hmd].
      rewrite (do_md _ _ _ _ (delete_delete_only r1 w1)). exact Hmd. }
    destruct (match fin_err fin with Some _ => _ | None => _ end)
      as [r2 w2]. cbn [fst] in Hfin. cbn [scan_end fold_left].
    destruct (0 <? n); cbn [fst snd]; [|rewrite Hfin; lia].
    destruct (slice_to tb n); cbn [fst snd]; proj_simpl;
      rewrite ?Hfin; lia.
  - inversion Hall as [|? ? Ht Hts]; subst.
    change (scan_end pos (t :: ts))
      with (scan_end (pos + tok_advance t) ts).
    pose proof (scan_end_ge (pos + tok_advance t) ts Hts) as Hge.
    destruct (scan_reads_reads_only (tok_reads t) r (with_poll w))
      as [_ Hmd _ _ _ _ _ _ _ _ _].
    destruct (scan_reads (tok_reads t) r (with_poll w)) as [r1 w1].
    cbn [fst snd] in Hmd.
    destruct (decoder r1 (tok_bytes t)) as [b err].
    destruct (slice_set tb n b); cbn [fst snd]; [|rewrite Hmd; lia].
    destruct (slice_set to (wrap64 (n + 1)) (pos + tok_advance t));
      cbn [fst snd]; [|rewrite Hmd; lia].
    destruct err as [e|].
    + specialize (IH ctx fin (pos + tok_advance t) l l0 n
                    (setOffset (pos + tok_advance t) r1)
                    (log ErrorLevel "failed to decode token" w1) Hts).
      proj_simpl. specialize (IH ltac:(lia)). lia.
    + proj_simpl.
      destruct ((0 <? maxBatchSize r1)
                && (maxBatchSize r1 <=? wrap64 (n + 1))).
      * destruct (slice_to l (wrap64 (n + 1))); cbn [fst snd]; proj_simpl;
          [|rewrite Hmd; lia].
        destruct (slice_set l0 0 (pos + tok_advance t)); cbn [fst snd];
          proj_simpl; [|lia].
        match goal with
        | |- context [readContents_loop ctx ts fin ?p ?a ?b ?c ?rr ?ww] =>
            specialize (IH ctx fin p a b c rr ww Hts)
        end.
        proj_simpl. specialize (IH ltac:(lia)). lia.
      * match goal with
        | |- context [readContents_loop ctx ts fin ?p ?a ?b ?c ?rr ?ww] =>
            specialize (IH ctx fin p a b c rr ww Hts)
        end.
        proj_simpl.
        assert (Ho : Offset (md r1) = Offset (md r)) by (rewrite Hmd; auto).
        specialize (IH ltac:(lia)). lia.
Qed.

Lemma readContents_offset_le ctx (r : Reader) (w : World) :
  Forall (fun t => 0 <= tok_advance t)
    (scanner_script (contentSplitFunc r) (reader r) (fpos w)).1 ->
  Offset (md r) <= Offset (md (readContents ctx r w).1.1).
Proof.
  intros Hall. unfold readContents, scanner_New.
  destruct (scanner_script (contentSplitFunc r) (reader r) (fpos w))
    as [toks fin]. cbn [fst s_tokens s_final s_pos] in *.
  destruct (make_slice ([] : bytes) (maxBatchSize r)); cbn [fst]; [|lia].
  destruct (make_slice 0 (wrap64 (maxBatchSize r + 1))); cbn [fst]; [|lia].
  destruct (slice_set l0 0 (Offset (md r))); cbn [fst]; [|lia].
  apply readContents_loop_offset; [exact Hall | lia].
Qed.

Lemma readHeader_offset_le ctx (r : Reader) (w : World) h :
  headerReader r = Some h ->
  Forall (fun t => 0 <= tok_advance t)
    (scanner_script (headerSplitFunc r) (reader r) (fpos w)).1 ->
  Offset (md r) <= Offset (md (readHeader ctx r w).1.1).
Proof.
  intros Hh Hall. unfold readHeader, scanner_New.
  destruct (scanner_script (headerSplitFunc r) (reader r) (fpos w))
    as [toks fin]. cbn [fst s_tokens s_final s_pos] in *.
  unfold readHeader_from.
  destruct (readHeader_loop ctx toks fin (Offset (md r)) r w)
    as [[r1 w1] ex] eqn:Hloop.
  destruct (readHeader_loop_run _ _ _ _ _ _ _ _ _ _ Hh eq_refl Hloop)
    as (k & Hhr).
  destruct Hhr as [_ _ (h1 & Hh1 & _) _ _ _ _ Hex].
  assert (Htake : Forall (fun t => 0 <= tok_advance t) (take k toks))
    by (apply Forall_take; exact Hall).
  assert (Hr1 : Offset (md r) <= Offset (md r1)).
  { destruct ex as [b| |msg]; [| |contradiction].
    - destruct Hex as (_ & -> & _). apply scan_end_ge, Htake.
    - destruct Hex as (pre & t & Heq & -> & _). rewrite Heq in Htake.
      apply Forall_app in Htake. apply scan_end_ge, Htake. }
  destruct ex as [b| |msg]; cbn [fst snd]; try exact Hr1.
  unfold finalizeHeader, Seek. rewrite Hh1. proj_simpl.
  destruct (file r1) as [f|]; [destruct (file_Seek f (Offset (md r1)))|];
    cbn [fst snd]; proj_simpl; exact Hr1.
Qed.

Lemma emit_batch_removed batch tokenOffsets (r : Reader) (w : World) :
  removed (emit_batch batch tokenOffsets r w) = removed w.
Proof.
  unfold emit_batch. destruct (emitFunc r _ _); reflexivity.
Qed.

Ltac loop_step IH Hnever Hfin Hret :=
  match goal with
  | |- context [readContents_loop ?ctx ?ts ?fin ?p ?a ?b ?c ?rr ?ww] =>
      let H := fresh in
      let Hf := fresh "Hf" in
      let Hr := fresh "Hr" in
      assert (H : deleteAtEOF rr = true);
      [ | destruct (IH ctx fin p a b c rr ww Hnever Hfin H Hret) as [Hf Hr];
          clear H; revert Hf Hr ]
  end.

(** When the loop runs to the end of a cleanly ended stream with
    delete-at-EOF set, the handle is closed and the file removed. *)
Lemma readContents_loop_deletes toks :
  forall ctx fin pos tb to n (r : Reader) (w : World),
    (forall i, ctx i = false) ->
    fin_err fin = None ->
    deleteAtEOF r = true ->
    (readContents_loop ctx toks fin pos tb to n r w).2 = Returned tt ->
    file (readContents_loop ctx toks fin pos tb to n r w).1.1 = None
    /\ removed (readContents_loop ctx toks fin pos tb to n r w).1.2
       = removed w
         ++ match os_Remove (fileName r) with
            | None => [fileName r]
            | Some _ => []
            end.
Proof.
  induction toks as [|t ts IH];
    intros ctx fin pos tb to n r w Hnever Hfin Hdel;
    cbn [readContents_loop]; unfold ctx_Done; rewrite Hnever.
  - destruct (scan_reads_reads_only (fin_reads fin) r (with_poll w))
      as [Hst _ _ _ _ _ _ _ Hrem _ _].
    destruct (scan_reads (fin_reads fin) r (with_poll w)) as [r1 w1].
    cbn [fst snd] in *. cbn in Hrem.
    rewrite Hfin, (st_deleteAtEOF _ _ Hst), Hdel.
    assert (Hd : file (delete r1 w1).1 = None
                 /\ removed (delete r1 w1).2
                    = removed w
                      ++ match os_Remove (fileName r) with
                         | None => [fileName r]
                         | Some _ => []
                         end).
    { unfold delete, close. rewrite <- Hrem, <- (st_fileName _ _ Hst).
      destruct (file r1) as [f|] eqn:Hf; [destruct (file_Close f)|];
        proj_simpl;
        (destruct (headerReader r1) as [hh|]; [destruct (header_Stop hh)|]);
        proj_simpl; destruct (os_Remove (fileName r1)); proj_simpl;
        rewrite ?app_nil_r; auto. }
    destruct (delete r1 w1) as [r2 w2]. cbn [fst snd] in Hd.
    destruct Hd as [Hf2 Hr2].
    destruct (0 <? n); cbn [fst snd]; [|auto].
    destruct (slice_to tb n); cbn [fst snd]; [|discriminate].
    intros _. unfold emit_batch. destruct (emitFunc r2 _ _); proj_simpl; auto.
  - destruct (scan_reads_reads_only (tok_reads t) r (with_poll w))
      as [Hst _ _ _ _ _ _ _ Hrem _ _].
    destruct (scan_reads (tok_reads t) r (with_poll w)) as [r1 w1].
    cbn [fst snd] in *. cbn in Hrem.
    pose proof (st_deleteAtEOF _ _ Hst) as Hd1.
    pose proof (st_fileName _ _ Hst) as Hn1.
    destruct (decoder r1 (tok_bytes t)) as [b err].
    destruct (slice_set tb n b); cbn [fst snd]; [|discriminate].
    destruct (slice_set to (wrap64 (n + 1)) (pos + tok_advance t));
      cbn [fst snd]; [|discriminate].
    destruct err as [e|].
    + intros Hret.
      loop_step IH Hnever Hfin Hret; [proj_simpl; congruence|].
      intros Hf Hr. rewrite Hf, Hr. proj_simpl.
      rewrite ?emit_batch_removed, Hrem, Hn1. auto.
    + proj_simpl.
      destruct ((0 <? maxBatchSize r1)
                && (maxBatchSize r1 <=? wrap64 (n + 1))).
      * destruct (slice_to l (wrap64 (n + 1))); cbn [fst snd];
          [|discriminate].
        destruct (slice_set l0 0 (pos + tok_advance t)); cbn [fst snd];
          [|discriminate].
        intros Hret.
      loop_step IH Hnever Hfin Hret; [proj_simpl; congruence|].
      intros Hf Hr. rewrite Hf, Hr. proj_simpl.
      rewrite ?emit_batch_removed, Hrem, Hn1. auto.
      * intros Hret.
      loop_step IH Hnever Hfin Hret; [proj_simpl; congruence|].
      intros Hf Hr. rewrite Hf, Hr. proj_simpl.
      rewrite ?emit_batch_removed, Hrem, Hn1. auto.
Qed.

End OffsetAndEnd.

(** *** The cycle, end to end *)

Section CycleRuns.
Context {E : Env}.

Lemma readSelected_raw ctx (r : Reader) (w : World) :
  reads_raw r = true ->
  readSelected ctx r w = readFromOffset ctx (with_reader SrcFile r) w.
Proof.
  unfold reads_raw, readSelected.
  destruct (String.eqb (compression r) "gzip"); [discriminate|].
  destruct (String.eqb (compression r) "auto"); [|reflexivity].
  destruct (String.eqb (FileType (md r)) gzipExtension);
    [discriminate | reflexivity].
Qed.

Lemma readSelected_gzip ctx (r : Reader) (w : World) :
  compression r = "gzip"
  \/ (compression r = "auto" /\ FileType (md r) = gzipExtension) ->
  readSelected ctx r w = readGzip ctx r w.
Proof.
  unfold readSelected. intros [Hc | [Hc Ht]]; rewrite Hc; [reflexivity|].
  rewrite Ht. reflexivity.
Qed.

(** X13.  Over the raw handle the offset never moves backwards, provided
    the scanner's position never does: whatever the sink, the decoder, the
    header pipeline and the context do, the offset after a cycle is at
    least the offset before it. *)
Theorem ReadToEnd_offset_forward ctx (r : Reader) (w : World) :
  reads_raw r = true ->
  (forall split src z,
     Forall (fun t => 0 <= tok_advance t) (scanner_script split src z).1) ->
  Offset (md r) <= Offset (md (ReadToEnd ctx r w).1.1).
Proof.
  intros Hraw Hscan. revert Hraw.
  apply (ReadToEnd_raw_lifts ctx (fun _ => True)
           (fun r _ r' _ _ => Offset (md r) <= Offset (md r')));
    try solve [lift_auto]; try solve [intros; lia].
  intros r0 w0 _.
  apply (readFromOffset_lifts ctx (fun _ => True)
           (fun r _ r' _ _ => Offset (md r) <= Offset (md r')));
    try solve [lift_auto]; try solve [intros; lia].
  - intros r1 w1 _. unfold readPhases.
    destruct (headerReader r1) as [h|] eqn:Hh;
      [|apply readContents_offset_le, Hscan].
    pose proof (readHeader_offset_le ctx r1 w1 h Hh (Hscan _ _ _)) as Hle.
    destruct (readHeader ctx r1 w1) as [[r2 w2] [[]|]]; cbn [fst snd] in *;
      try exact Hle.
    pose proof (readContents_offset_le ctx r2 w2 (Hscan _ _ _)). lia.
  - intros r1 w1 r' w' o H Hn.
    destruct (updateFingerprint_md r') as (H1 & _). rewrite H1. exact H.
Qed.

(** X14.  With delete-at-EOF set, a content phase that reaches a clean end
    of the stream without being cancelled closes the handle and removes the
    file by its name, once; the Reader no longer validates. *)
Theorem readContents_deletes_at_eof ctx (r : Reader) (w : World) :
  (forall i, ctx i = false) ->
  fin_err (scanner_script (contentSplitFunc r) (reader r) (fpos w)).2 = None ->
  deleteAtEOF r = true ->
  1 <= maxBatchSize r < maxInt64 ->
  file (readContents ctx r w).1.1 = None
  /\ Validate (readContents ctx r w).1.1 = false
  /\ removed (readContents ctx r w).1.2
     = removed w
       ++ match os_Remove (fileName r) with
          | None => [fileName r]
          | Some _ => []
          end.
Proof.
  intros Hnever Hfin Hdel Hm.
  pose proof (readContents_returns ctx r w Hm) as Hret.
  assert (Hgoal :
    file (readContents ctx r w).1.1 = None
    /\ removed (readContents ctx r w).1.2
       = removed w
         ++ match os_Remove (fileName r) with
            | None => [fileName r]
            | Some _ => []
            end).
  { revert Hret. unfold readContents, scanner_New.
    destruct (scanner_script (contentSplitFunc r) (reader r) (fpos w))
      as [toks fin]. cbn [snd s_tokens s_final s_pos] in *.
    destruct (make_slice ([] : bytes) (maxBatchSize r)); [|discriminate].
    destruct (make_slice 0 (wrap64 (maxBatchSize r + 1))); [|discriminate].
    destruct (slice_set l0 0 (Offset (md r))); [|discriminate].
    intros Hret. apply readContents_loop_deletes; assumption. }
  destruct Hgoal as [Hf Hr]. split; [exact Hf|]. split; [|exact Hr].
  unfold Validate. rewrite Hf. reflexivity.
Qed.

(** X15.  A gzip file with nothing new: when the gzip reader cannot be
    created, the cycle ends at once.  The Reader is left exactly as it was,
    nothing is scanned, emitted or processed, and the failure is logged
    unless it is [io.EOF]. *)
Theorem ReadToEnd_gzip_nothing_new ctx (r : Reader) (w : World) f
    currentEOF e :
  compression r = "gzip"
  \/ (compression r = "auto" /\ FileType (md r) = gzipExtension) ->
  acquireFSLock r = false \/ tryLockFile r = true ->
  file r = Some f ->
  file_Stat f = inl currentEOF ->
  gzip_NewReader f (Offset (md r)) currentEOF = Some e ->
  (ReadToEnd ctx r w).1.1 = r
  /\ (ReadToEnd ctx r w).2 = Returned tt
  /\ emitted (ReadToEnd ctx r w).1.2 = emitted w
  /\ processed (ReadToEnd ctx r w).1.2 = processed w
  /\ polls (ReadToEnd ctx r w).1.2 = polls w
  /\ fpos (ReadToEnd ctx r w).1.2 = fpos w
  /\ logs (ReadToEnd ctx r w).1.2
     = logs w
       ++ (if errors_Is e io_EOF then []
           else [(ErrorLevel, "failed to create gzip reader"%string)]).
Proof.
  intros Hgz Hlock Hf Hstat Hnew.
  assert (Hsel : forall w0,
            readSelected ctx r w0
            = (r, (if negb (errors_Is e io_EOF)
                   then log ErrorLevel "failed to create gzip reader" w0
                   else w0), Returned tt)).
  { intros w0. rewrite (readSelected_gzip ctx r w0 Hgz).
    unfold readGzip, createGzipReader. rewrite Hf, Hstat, Hnew.
    reflexivity. }
  unfold ReadToEnd.
  destruct Hlock as [Hl | Hl].
  - rewrite Hl, Hsel.
    destruct (errors_Is e io_EOF); cbn [negb fst snd]; proj_simpl;
      rewrite ?app_nil_r; auto 10.
  - destruct (acquireFSLock r); [rewrite Hl|]; rewrite Hsel;
      destruct (errors_Is e io_EOF); cbn [negb fst snd]; unfold unlockFile;
      proj_simpl; rewrite ?app_nil_r; auto 10.
Qed.

(** X16.  A cycle over the raw handle of a Reader without a header reader,
    not cancelled and with the seek to the offset succeeding, delivers
    every token the decoder accepts exactly once and in order, never calls
    the sink with an empty batch, and leaves the offset at the scanner's
    final position.  A cycle that finds no token calls the sink not at
    all. *)
Theorem ReadToEnd_delivers_all ctx (r : Reader) (w : World) f toks fin :
  reads_raw r = true ->
  acquireFSLock r = false \/ tryLockFile r = true ->
  headerReader r = None ->
  file r = Some f ->
  file_Seek f (Offset (md r)) = None ->
  1 <= maxBatchSize r < maxInt64 ->
  (forall i, ctx i = false) ->
  scanner_script (contentSplitFunc r) SrcFile (Offset (md r)) = (toks, fin) ->
  exists cs,
    emitted (ReadToEnd ctx r w).1.2 = emitted w ++ cs
    /\ concat (map call_tokens cs)
       = map fst (decoded (decoder r) (Offset (md r)) toks)
    /\ (forall c, c ∈ cs -> call_tokens c <> [])
    /\ (toks = [] -> cs = [])
    /\ Offset (md (ReadToEnd ctx r w).1.1) = scan_end (Offset (md r)) toks.
Proof.
  intros Hraw Hlock Hh Hf Hseek Hm Hnever Hscript.
  assert (Hsel : forall w0,
    exists cs,
      emitted (readSelected ctx r w0).1.2 = emitted w0 ++ cs
      /\ concat (map call_tokens cs)
         = map fst (decoded (decoder r) (Offset (md r)) toks)
      /\ (forall c, c ∈ cs -> call_tokens c <> [])
      /\ (toks = [] -> cs = [])
      /\ Offset (md (readSelected ctx r w0).1.1)
         = scan_end (Offset (md r)) toks).
  { intros w0. rewrite (readSelected_raw ctx r w0 Hraw).
    unfold readFromOffset, Seek. proj_simpl. rewrite Hf, Hseek.
    unfold readPhases. proj_simpl. rewrite Hh.
    destruct (readContents ctx (with_reader SrcFile r)
                (with_fpos (Offset (md r)) w0)) as [[r1 w1] o] eqn:Hrc.
    destruct (readContents_run ctx (with_reader SrcFile r)
                (with_fpos (Offset (md r)) w0) toks fin r1 w1 o Hm Hscript
                Hrc)
      as (k & items & left & cs & Hcr).
    destruct Hcr as [_ Hem _ Hseen Hb _ _ _ Hun Hend _].
    destruct (Hun Hnever) as [-> ->].
    rewrite firstn_all, app_nil_r in Hseen. cbn [app] in Hseen.
    proj_simpl. subst items.
    exists cs. cbn [fst snd]. split; [exact Hem|].
    split; [exact (Batches_tokens _ _ _ _ _ _ Hb)|].
    split.
    { intros c Hc.
      destruct (Batches_segment _ _ _ _ _ _ _ Hb Hc)
        as (pre & batch & post & _ & Hne & _ & Htok & _).
      rewrite Htok. destruct batch; [congruence | discriminate]. }
    split.
    { intros ->. cbn [decoded] in Hb.
      exact (Batches_no_items _ _ _ _ _ Hb). }
    specialize (Hend Hnever (or_intror eq_refl)).
    destruct (needsUpdateFingerprint r1); [|exact Hend].
    destruct (updateFingerprint_md r1) as (H1 & _). rewrite H1. exact Hend. }
  unfold ReadToEnd.
  assert (Hlocked : acquireFSLock r = true -> tryLockFile r = true).
  { destruct Hlock as [Hl | Hl]; [rewrite Hl; discriminate | auto]. }
  destruct (acquireFSLock r); [|apply Hsel].
  rewrite (Hlocked eq_refl). cbn [negb].
  destruct (Hsel (with_locked true w)) as (cs & Hem & Hrest).
  destruct (readSelected ctx r (with_locked true w)) as [[r1 w1] o].
  cbn [fst snd] in *. exists cs. split; [exact Hem | exact Hrest].
Qed.

(** X17.  Every call of the sink a cycle makes carries the attributes the
    Reader holds when the cycle is over: attributes the header phase
    collects reach every record, and nothing is emitted with attributes
    that are changed afterwards. *)
Theorem ReadToEnd_calls_carry_attributes ctx (r : Reader) (w : World) :
  1 <= maxBatchSize r < maxInt64 ->
  exists cs,
    emitted (ReadToEnd ctx r w).1.2 = emitted w ++ cs
    /\ forall c, c ∈ cs ->
         call_attrs c = FileAttributes (md (ReadToEnd ctx r w).1.1).
Proof.
  apply (ReadToEnd_lifts ctx (fun r => 1 <= maxBatchSize r < maxInt64)
           (fun _ w r' w' _ =>
              exists cs,
                emitted w' = emitted w ++ cs
                /\ forall c, c ∈ cs ->
                     call_attrs c = FileAttributes (md r')));
    try solve [lift_auto].
  - intros r0 w0 Hm.
    apply (readFromOffset_lifts ctx
             (fun r => 1 <= maxBatchSize r < maxInt64)
             (fun _ w r' w' _ =>
                exists cs,
                  emitted w' = emitted w ++ cs
                  /\ forall c, c ∈ cs ->
                       call_attrs c = FileAttributes (md r')));
      try solve [lift_auto].
    + clear. intros r w Hm.
      assert (Hcontent : forall (r1 : Reader) (w1 : World),
                1 <= maxBatchSize r1 < maxInt64 ->
                exists cs,
                  emitted (readContents ctx r1 w1).1.2 = emitted w1 ++ cs
                  /\ forall c, c ∈ cs ->
                       call_attrs c
                       = FileAttributes (md (readContents ctx r1 w1).1.1)).
      { clear. intros r1 w1 Hm.
        destruct (scanner_script (contentSplitFunc r1) (reader r1) (fpos w1))
          as [toks fin] eqn:Hscript.
        destruct (readContents ctx r1 w1) as [[r2 w2] o] eqn:Hrc.
        destruct (readContents_run ctx r1 w1 toks fin r2 w2 o Hm Hscript Hrc)
          as (k & items & left & cs & Hcr).
        destruct Hcr as [_ Hem _ _ Hb _ Hattrs _ _ _ _].
        exists cs. cbn [fst snd]. split; [exact Hem|].
        intros c Hc.
        destruct (Batches_segment _ _ _ _ _ _ _ Hb Hc)
          as (pre & batch & post & _ & _ & _ & _ & Ha & _).
        rewrite Ha, Hattrs. reflexivity. }
      unfold readPhases.
      destruct (headerReader r) as [h|] eqn:Hh; [|apply Hcontent, Hm].
      destruct (readHeader_outcome ctx r w h Hh)
        as (Hem & _ & Hst & b & Hb & _).
      destruct (readHeader ctx r w) as [[r1 w1] o]. cbn [fst snd] in *.
      subst o. destruct b.
      * exists []. cbn [fst snd]. rewrite app_nil_r. split; [exact Hem|].
        intros c Hc. apply elem_of_nil in Hc. contradiction.
      * rewrite <- Hem. apply Hcontent.
        rewrite (st_maxBatchSize _ _ Hst). exact Hm.
    + intros r1 w1 _. exists []. rewrite app_nil_r. split; [reflexivity|].
      intros c Hc. apply elem_of_nil in Hc. contradiction.
    + intros r1 w1 r' w' o (cs & Hem & Hall) Hn. exists cs.
      split; [exact Hem|].
      destruct (updateFingerprint_md r') as (_ & _ & Ha & _).
      rewrite Ha. exact Hall.
  - intros r1 w1 _. exists []. rewrite app_nil_r. split; [reflexivity|].
    intros c Hc. apply elem_of_nil in Hc. contradiction.
Qed.

(** X18.  [Close] hands over the Metadata the Reader held and leaves a
    Reader without a handle: whatever Metadata it is given again, it does
    not validate.  Closing stops the header pipeline if there is one, and
    neither emits nor removes anything. *)
Theorem Close_hands_over (r : Reader) (w : World) :
  (Close r w).1.1 = md r
  /\ (forall m,
        md ((Close r w).1.2 m) = m
        /\ file ((Close r w).1.2 m) = None
        /\ Validate ((Close r w).1.2 m) = false
        /\ fileName ((Close r w).1.2 m) = fileName r)
  /\ stops (Close r w).2
     = (stops w + match headerReader r with Some _ => 1 | None => 0 end)%nat
  /\ emitted (Close r w).2 = emitted w
  /\ removed (Close r w).2 = removed w.
Proof.
  unfold Close, close.
  destruct (file r) as [f|] eqn:Hf; [destruct (file_Close f)|]; proj_simpl;
    (destruct (headerReader r) as [h|];
     [destruct (header_Stop h)|]); cbn [fst snd]; proj_simpl;
    unfold Validate; proj_simpl; rewrite ?Hf;
    repeat match goal with
           | |- _ /\ _ => split
           | |- forall _, _ => intros m
           end;
    solve [reflexivity | lia].
Qed.

(** X19.  [close] never clears the header reader.  Closing a closed Reader
    again leaves the Reader as it is; without a header reader it does
    nothing at all, with one it stops the header pipeline a second time. *)
Theorem close_twice (r : Reader) (w : World) :
  headerReader (close r w).1 = headerReader r
  /\ file (close r w).1 = None
  /\ (close (close r w).1 (close r w).2).1 = (close r w).1
  /\ match headerReader r with
     | None => (close (close r w).1 (close r w).2).2 = (close r w).2
     | Some _ =>
         stops (close (close r w).1 (close r w).2).2 = S (S (stops w))
     end.
Proof.
  unfold close.
  destruct (file r) as [f|] eqn:Hf; [destruct (file_Close f)|]; proj_simpl;
    (destruct (headerReader r) as [h|] eqn:Hh;
     [destruct (header_Stop h) eqn:Hs|]); cbn [fst snd]; proj_simpl;
    rewrite ?Hf, ?Hh, ?Hs; cbn [fst snd]; proj_simpl; auto.
Qed.

(** X20.  When the file can be fingerprinted, [updateFingerprint] adopts
    the fresh fingerprint exactly when the Reader validates or its stored
    fingerprint is empty; otherwise the stored fingerprint stays.  In
    every case the pending refresh is cleared. *)
Theorem updateFingerprint_adopts_iff (r : Reader) f fresh :
  file r = Some f ->
  fingerprint_NewFromFile f (fingerprintSize r)
    (negb (String.eqb (compression r) "")) = inl fresh ->
  Fingerprint_ (md (updateFingerprint r))
  = (if Validate r || (fingerprint_Len (Fingerprint_ (md r)) <=? 0)
     then fresh else Fingerprint_ (md r))
  /\ needsUpdateFingerprint (updateFingerprint r) = false.
Proof.
  intros Hf Hnew. unfold updateFingerprint, Validate. proj_simpl.
  rewrite Hf, Hnew.
  destruct (fingerprint_StartsWith fresh (Fingerprint_ (md r)));
    destruct (0 <? fingerprint_Len (Fingerprint_ (md r))) eqn:Hlen;
    cbn [negb andb orb]; proj_simpl;
    try (rewrite (proj2 (Z.leb_gt _ _)) by (apply Z.ltb_lt; exact Hlen));
    try (rewrite (proj2 (Z.leb_le _ _)) by (apply Z.ltb_ge; exact Hlen));
    auto.
Qed.

End CycleRuns.

(** ** The further properties on concrete runs *)

Lemma ReadToEnd_lock_witness :
  acquireFSLock Example.r_locking = true
  /\ tryLockFile Example.r_locking = true
  /\ locked (ReadToEnd Example.never Example.r_locking
               Example.world0).1.2 = false.
Proof.
  split; [reflexivity|]. split; [reflexivity|].
  exact (proj2 (proj2 (ReadToEnd_lock Example.never Example.r_locking
                         Example.world0)) eq_refl eq_refl).
Defined.

Lemma ReadToEnd_full_fingerprint_witness :
  fingerprintSize Example.r_full_fingerprint
  <= fingerprint_Len (Fingerprint_ (md Example.r_full_fingerprint))
  /\ Fingerprint_ (md (ReadToEnd Example.never Example.r_full_fingerprint
                         Example.world0).1.1) = Example.b_bb
  /\ needsUpdateFingerprint
       (ReadToEnd Example.never Example.r_full_fingerprint
          Example.world0).1.1 = false.
Proof.
  assert (Hl : fingerprintSize Example.r_full_fingerprint
               <= fingerprint_Len
                    (Fingerprint_ (md Example.r_full_fingerprint)))
    by (vm_compute; discriminate).
  split; [exact Hl|].
  exact (ReadToEnd_full_fingerprint Example.never
           Example.r_full_fingerprint Example.world0 eq_refl Hl).
Defined.

Lemma ReadToEnd_without_header_witness :
  headerReader Example.r_five = None
  /\ headerReader (ReadToEnd Example.never Example.r_five
                     Example.world0).1.1 = None
  /\ processed (ReadToEnd Example.never Example.r_five
                  Example.world0).1.2 = []
  /\ stops (ReadToEnd Example.never Example.r_five
              Example.world0).1.2 = 0%nat.
Proof.
  split; [reflexivity|].
  destruct (ReadToEnd_without_header Example.never Example.r_five
              Example.world0 eq_refl) as (H1 & _ & _ & H4 & H5).
  split; [exact H1|]. split; [exact H4 | exact H5].
Defined.

Lemma ReadToEnd_header_finalized_stays_witness :
  HeaderFinalized (md Example.r_full_fingerprint) = true
  /\ HeaderFinalized
       (md (ReadToEnd Example.never Example.r_full_fingerprint
              Example.world0).1.1) = true.
Proof.
  split; [reflexivity|].
  exact (ReadToEnd_header_finalized_stays Example.never
           Example.r_full_fingerprint Example.world0 eq_refl).
Defined.

Lemma ReadToEnd_keeps_file_witness :
  deleteAtEOF Example.r_five = false
  /\ file (ReadToEnd Example.never Example.r_five Example.world0).1.1
     = Some []
  /\ removed (ReadToEnd Example.never Example.r_five Example.world0).1.2
     = [].
Proof.
  split; [reflexivity|].
  exact (ReadToEnd_keeps_file Example.never Example.r_five Example.world0
           eq_refl).
Defined.

Lemma ReadToEnd_closed_handle_witness :
  file Example.r_closed = None
  /\ md (ReadToEnd Example.never Example.r_closed Example.world0).1.1
     = md Example.r_closed
  /\ emitted (ReadToEnd Example.never Example.r_closed Example.world0).1.2
     = []
  /\ (ReadToEnd Example.never Example.r_closed Example.world0).2
     = Returned tt.
Proof.
  split; [reflexivity|].
  destruct (ReadToEnd_closed_handle Example.never Example.r_closed
              Example.world0 eq_refl) as (H1 & H2 & _ & H4).
  split; [exact H1|]. split; [exact H2 | exact H4].
Defined.

Lemma readHeader_is_silent_witness :
  headerReader Example.r_hdr = Some tt
  /\ emitted (readHeader Example.never Example.r_hdr Example.world0).1.2
     = []
  /\ RecordNum (md (readHeader Example.never Example.r_hdr
                      Example.world0).1.1) = 0.
Proof.
  split; [reflexivity|].
  destruct (readHeader_is_silent Example.never Example.r_hdr Example.world0
              tt eq_refl) as (H1 & H2 & _).
  split; [exact H1 | exact H2].
Defined.

Lemma ReadToEnd_header_pending_witness :
  headerReader Example.r_hdr = Some tt
  /\ headerReader (ReadToEnd Example.never Example.r_hdr
                     Example.world0).1.1 <> None
  /\ emitted (ReadToEnd Example.never Example.r_hdr Example.world0).1.2
     = []
  /\ RecordNum (md (ReadToEnd Example.never Example.r_hdr
                      Example.world0).1.1) = 0.
Proof.
  assert (Hp : headerReader (ReadToEnd Example.never Example.r_hdr
                               Example.world0).1.1 <> None)
    by (vm_compute; discriminate).
  split; [reflexivity|]. split; [exact Hp|].
  exact (ReadToEnd_header_pending Example.never Example.r_hdr
           Example.world0 tt eq_refl Hp).
Defined.

Lemma ReadToEnd_refresh_pending_witness :
  needsUpdateFingerprint
    (ReadToEnd Example.never Example.r_stale Example.world0).1.1 = true
  /\ needsUpdateFingerprint Example.r_stale = true
  /\ emitted (ReadToEnd Example.never Example.r_stale Example.world0).1.2
     = [].
Proof.
  split; [reflexivity|].
  destruct (ReadToEnd_refresh_pending Example.never Example.r_stale
              Example.world0 eq_refl) as (H1 & H2 & _).
  split; [exact H1 | exact H2].
Defined.

Lemma ReadToEnd_cancelled_at_entry_witness :
  reads_raw Example.r_five = true
  /\ Example.cancelled_from 0 (polls (@Example.world0 Example.env_five))
     = true
  /\ Offset (md (ReadToEnd (Example.cancelled_from 0) Example.r_five
                   Example.world0).1.1) = 0
  /\ emitted (ReadToEnd (Example.cancelled_from 0) Example.r_five
                Example.world0).1.2 = [].
Proof.
  split; [reflexivity|]. split; [reflexivity|].
  destruct (ReadToEnd_cancelled_at_entry (Example.cancelled_from 0)
              Example.r_five Example.world0 eq_refl eq_refl)
    as (H1 & _ & _ & _ & H5 & _).
  split; [exact H1 | exact H5].
Defined.

Lemma ReadToEnd_returns_witness :
  1 <= maxBatchSize Example.r_five < maxInt64
  /\ (ReadToEnd Example.never Example.r_five Example.world0).2
     = Returned tt.
Proof.
  assert (Hm : 1 <= maxBatchSize Example.r_five < maxInt64)
    by (vm_compute; split; [discriminate | reflexivity]).
  split; [exact Hm|].
  exact (ReadToEnd_returns Example.never Example.r_five Example.world0 Hm).
Defined.

Lemma ReadToEnd_offset_forward_witness :
  reads_raw Example.r_hdr_done = true
  /\ Offset (md Example.r_hdr_done)
     <= Offset (md (ReadToEnd Example.never Example.r_hdr_done
                      Example.world0).1.1).
Proof.
  split; [reflexivity|].
  apply (@ReadToEnd_offset_forward Example.env_hdr_done Example.never
           Example.r_hdr_done Example.world0 eq_refl).
  intros [] src z; cbn; repeat constructor; vm_compute; discriminate.
Defined.

Lemma readContents_deletes_at_eof_witness :
  deleteAtEOF Example.r_delete_at_eof = true
  /\ file (readContents Example.never Example.r_delete_at_eof
             Example.world0).1.1 = None
  /\ Validate (readContents Example.never Example.r_delete_at_eof
                 Example.world0).1.1 = false
  /\ removed (readContents Example.never Example.r_delete_at_eof
                Example.world0).1.2 = ["app.log"%string].
Proof.
  split; [reflexivity|].
  apply (@readContents_deletes_at_eof Example.env_five Example.never
           Example.r_delete_at_eof Example.world0).
  - intros i. reflexivity.
  - reflexivity.
  - reflexivity.
  - vm_compute. split; [discriminate | reflexivity].
Defined.

Lemma ReadToEnd_gzip_nothing_new_witness :
  compression Example.r_gz_done = "gzip"
  /\ @gzip_NewReader Example.env_gz_done Example.gz_contents
       (Offset (md Example.r_gz_done)) 4 = Some io_EOF
  /\ (ReadToEnd Example.never Example.r_gz_done Example.world0).1.1
     = Example.r_gz_done
  /\ logs (ReadToEnd Example.never Example.r_gz_done Example.world0).1.2
     = [].
Proof.
  split; [reflexivity|]. split; [reflexivity|].
  destruct (@ReadToEnd_gzip_nothing_new Example.env_gz_done Example.never
              Example.r_gz_done Example.world0 Example.gz_contents 4 io_EOF
              (or_introl eq_refl) (or_introl eq_refl) eq_refl eq_refl
              eq_refl) as (H1 & _ & _ & _ & _ & _ & H7).
  split; [exact H1 | exact H7].
Defined.

Lemma ReadToEnd_delivers_all_witness :
  reads_raw Example.r_five = true
  /\ exists cs,
       emitted (ReadToEnd Example.never Example.r_five Example.world0).1.2
       = cs
       /\ concat (map call_tokens cs)
          = [Example.b_a; Example.b_bb; Example.b_a; Example.b_bb;
             Example.b_a]
       /\ Offset (md (ReadToEnd Example.never Example.r_five
                        Example.world0).1.1) = 12.
Proof.
  split; [reflexivity|].
  destruct (@ReadToEnd_delivers_all Example.env_five Example.never
              Example.r_five Example.world0 [] (fst Example.five_lines)
              Example.eof eq_refl (or_introl eq_refl) eq_refl eq_refl
              eq_refl
              ltac:(vm_compute; split; [discriminate | reflexivity])
              (fun _ => eq_refl) eq_refl)
    as (cs & H1 & H2 & _ & _ & H5).
  exists cs. split; [exact H1|]. split; [exact H2 | exact H5].
Defined.

Lemma ReadToEnd_calls_carry_attributes_witness :
  1 <= maxBatchSize Example.r_hdr_done < maxInt64
  /\ exists cs,
       emitted (ReadToEnd Example.never Example.r_hdr_done
                  Example.world0).1.2 = cs
       /\ forall c, c ∈ cs ->
            call_attrs c
            = FileAttributes
                (md (ReadToEnd Example.never Example.r_hdr_done
                       Example.world0).1.1).
Proof.
  assert (Hm : 1 <= maxBatchSize Example.r_hdr_done < maxInt64)
    by (vm_compute; split; [discriminate | reflexivity]).
  split; [exact Hm|].
  exact (ReadToEnd_calls_carry_attributes Example.never Example.r_hdr_done
           Example.world0 Hm).
Defined.

Lemma updateFingerprint_adopts_iff_witness :
  file Example.r_truncated = Some [Byte.x62; Byte.x63]
  /\ Validate Example.r_truncated = false
  /\ Fingerprint_ (md (updateFingerprint Example.r_truncated))
     = Example.b_a
  /\ needsUpdateFingerprint (updateFingerprint Example.r_truncated)
     = false.
Proof.
  split; [reflexivity|]. split; [reflexivity|].
  exact (updateFingerprint_adopts_iff Example.r_truncated
           [Byte.x62; Byte.x63] [Byte.x62; Byte.x63] eq_refl eq_refl).
Defined.
